(* ===== verification/_CoqProject ===== *)
-Q . S2P
Prelude.v
PyStr.v
PosixPath.v
FileSys.v
Glob.v
Matcher.v
Host.v
BuildWebui.v
Staging.v
Confinement.v
Refinement.v
Determinism.v
Rerun.v
