(* ===== verification/Prelude.v ===== *)
(** * A verification development for [build_webui.py] (fujinet-pc)

    The program: [src/build_webui.py] is the build-time script that stages the
    web UI of the FujiNet firmware.  It resolves a build context (target,
    build platform, optional output directory) either from the PlatformIO
    environment or from environment variables, loads a per-target YAML
    configuration, checks that the platform starts with [BUILD_], deletes the
    output directory, and then walks three source roots in order, each with a
    lazy recursive [glob.iglob(root + '**')]:
    - [data/webui/common/]: every file copied ([copy_file]);
    - [data/webui/template/]: files matching [^.*\.tmpl\.[a-zA-Z0-9_]+$] are
      rendered with Jinja ([process_template]) to a name with [.tmpl.]
      collapsed to [.], the others copied;
    - [data/webui/device_specific/<platform>/]: every file copied, overriding
      earlier outputs.
    The destination of a file is computed by [prep_dst], which removes the root
    prefix with [str.replace], joins it under the output directory and creates
    the missing parent directories with [os.makedirs].

    The library, by file (each file opens with its own summary):
    - [Prelude] (this file): the state-and-exception monad [StExc.M] used for
      every effectful operation, its notation ([x ← m; k] from stdpp), the
      loop combinator [mfor] for Python [for] loops, the string lemmas that
      the other files share, the hint database [pystr] and tactic [str_simpl].
    - [PyStr]: the Python [str] methods the script calls: [startswith],
      [endswith], [replace] (all non-overlapping occurrences, as CPython),
      the [in] operator on strings, [rstrip], [split].
    - [PosixPath]: [posixpath.join], [split], [dirname], [basename], and the
      [glob] helpers [has_magic] and [_ishidden], translated from CPython.
    - [FileSys]: the file system as a finite map from component paths to
      nodes (file contents or directory) with the working directory and the
      standard output; path resolution as the kernel does it (every
      intermediate component must be a directory, [.] and [..] handled
      physically, a trailing [/] demands a directory); [os.path.exists],
      [isdir], [isfile], [os.mkdir], [os.makedirs] (CPython's recursion),
      [shutil.rmtree], [shutil.copy], text read and write, [os.scandir]; the
      well-formedness invariant of the tree and its preservation.
    - [Glob]: [glob.iglob(dir + '**', recursive=True)] as CPython 3.12 runs it
      ([_iglob], [_glob2], [_rlistdir], [_listdir]) fused with the body of the
      [for] loop that consumes it, so that the laziness of the generator (a
      directory is listed only when the walk reaches it, after the body ran on
      the earlier names) is part of the model.
    - [Matcher]: the template regular expression, as a decision procedure and
      as an inductive description of the language of the regex, proved equal.
    - [Host]: the interfaces of the libraries the script only calls (Jinja's
      rendering, YAML loading, configparser lookups, the directory-listing
      order of the OS) as type classes, Jinja's [FileSystemLoader] lookup
      ([split_template_path], [get_template]) translated, and concrete
      instances used by the witnesses.
    - [BuildWebui]: [prep_dst], [process_template], [copy_file], the context
      resolution (both invocation modes), and the whole script [main].
    - [Staging]: what a successful run promises, stated without the
      script's control flow: the entries each root stages (key and text, in
      the order of the writes), [staged_fs] (the input tree cleared of the
      output directory by [cleared], with those files and their parent
      directories added), and the decidable per-file path checks.
    - [Confinement]: every run, the failing ones included.  [kept] says
      that the tree agrees with the input outside the output directory.
      Each operation that changes the tree keeps it ([mkdir_kept],
      [write_text_kept], [makedirs_kept], [copy_kept], [rmtree_kept]), and
      so does each loop, whose walk is the listing of the input tree
      ([loop_eager]).  [layout_ok] decides the conditions on the paths.
    - [Refinement]: [spec_entries] (every file a run stages) and
      [staging_ok] (the side conditions), and the proof that [main]
      computes the tree of [Staging].  It contains the staged state of the
      loops ([staged_state]), one lemma per loop body, the loops as loops
      over the input's listing, and the theorems on the whole run.
    - [Determinism]: two runs on one tree under two listing orders
      ([main (H := O1)], [main (H := O2)]), compared through the entries of
      [Refinement]: each root stages the same entries, in another order.
    - [Rerun]: a run on a tree that agrees with the input outside the
      output directory ([Confinement.kept]): every check of [staging_ok]
      and every entry of [spec_entries] carries over, and [rerun_ok]
      decides what the reads before [shutil.rmtree] need.

    Theorems, by group:
    - strings and paths ([PyStr], [PosixPath]): [replace] removes a prefix
      that does not recur and every later occurrence when it does (the spec
      says a single removal); [join_with]/[split] round trip; the components
      of [join], [dirname] and [basename], and which of them are absolute.
    - file system ([FileSys]): every mutating operation preserves the tree
      invariant [wf_fs]; on a path with no [.] or [..] component,
      [os.makedirs] succeeds and adds exactly the missing directories along
      the path ([makedirs_creates], against the reference [mkdir_p]);
      [os.mkdir], [open(p, 'w').write] and [shutil.copy] have the expected
      single-entry effects ([mkdir_plain], [write_text_plain], [copy_plain]);
      [shutil.rmtree] leaves nothing at or below the removed directory
      ([rmtree_clears_subtree]); [os.scandir] is unchanged by a run that
      keeps the tree around the directory ([scandir_agree]).
    - glob ([Glob]): the lazy walk equals the loop over the names of an
      eager listing ([rlistdir_names], [iglob_names]) when the loop body
      keeps the tree around the walked directory ([rlistdir_for_eager],
      [iglob_for_eager]), and the fuel [S (size of the tree)] is enough
      ([rlistdir_names_some], [iglob_names_some]); the listing is exactly
      the walked directory and every entry below it whose relative path
      has no hidden component ([rlistdir_names_spec], [iglob_names_spec]).
    - the template matcher ([Matcher]): the decision procedure equals the
      language of the regex, which is narrower than the [*.tmpl.*] of the
      comment on line 83 ([x.tmpl.min.js] is copied, not rendered).
    - the script ([BuildWebui]): every run preserves the tree invariant;
      it aborts before touching the file system when the platform does not
      start with [BUILD_], but only after the YAML configuration was read,
      whose absence is reported first ([main_config_error]); the standalone
      context is read from the environment with its four status lines
      ([resolve_context_standalone]); [prep_dst], [copy_file] and [process_template]
      have exactly the effects the spec describes on plain paths (missing
      parents created, the destination written, nothing else changed); the
      three loops iterate over the eager listing; the [filename != '.keep']
      test never holds; a resolved context is well formed for its mode
      ([resolve_context_ok]); two different files of a root whose relative
      paths do not repeat it get different destinations
      ([dst_path_injective]), while a relative path that starts with the
      root again collides with the one without it
      ([dst_path_repeated_root]).  Supporting lemmas: [copy_file] never runs
      out of fuel ([copy_file_no_fuel]) and the glob's depth is bounded by
      the entries below its root ([glob_fuel_bound]).  The [Runs] module
      holds concrete runs on the spec's example and the runs behind the
      findings (the [.tmpl.] rewrite of the whole path, an empty
      [BUILD_DATA_DIR]); they are evidence, not properties.
    - the refinement ([Refinement]): under [staging_ok], [main] ends normally
      and its final tree is [staged_fs] of [spec_entries] ([main_stages]);
      as a consequence a device-specific file overrides whatever the common
      and template roots staged at its destination ([main_device_override]);
      a template that the loader does not find or Jinja does not render
      ends the run with its exception after exactly the common files and
      the template files listed before it were staged
      ([main_template_error]).
      The proof runs each loop against the invariant [staged_state] (the
      tree is the cleared input with the entries staged so far) and uses the
      glob equivalence above to replace each lazy walk by its listing of
      the input tree, which the staging does not disturb.
    - every run ([Confinement]): under [layout_ok], whatever the files
      hold and however the run ends, nothing outside the output directory
      changes ([main_confined]), and the run ends normally or with one of
      Python's exceptions, never with [OutOfFuel] ([main_terminates]).  The
      libraries' contract [Host.LibErrors] (they raise their own
      exceptions) is the only assumption on them.  The proof carries a
      triple ([StExc.triple]: an invariant kept on every exit, and the
      exceptions raised) through each operation and each loop.
    - listing order ([Determinism]): when a run under one order meets
      the conditions of the refinement and, within each root, no two files
      are staged at one destination with different texts
      ([blocks_functional]), a run under any other order ends normally with
      the same tree ([main_order_independent]).  Without that condition the
      order matters: the file written last at a destination is the one
      the output keeps ([main_last_write_wins]), so a template
      [banner.tmpl.html] beside a plain [banner.html] gives the rendered
      page under the identity order and the plain file under the reversed
      order (the run [main_collision_order_dependent]).
    - rebuilding ([Rerun]): under the conditions of the refinement and
      [rerun_ok] (a plain output path, the configuration outside the
      output), whatever the output directory held before does not change
      the result ([main_stale_output_irrelevant]), and a second run on the
      output of a first ends normally and changes nothing
      ([main_idempotent]).  When the configuration lies inside the output
      directory, the first run deletes it after reading it and the second
      run fails on it ([main_rerun_fails_config_in_output]), as with a
      [BUILD_DATA_DIR] naming the configuration directory.

    Fuel.  [os.makedirs] recurses on [os.path.split(name)[0]], a strictly
    shorter string, so [S (length name)] calls are enough: [makedirs_go_fuel]
    shows that any larger fuel gives the same run, and [makedirs_creates]
    runs it to completion.  The recursive glob uses one unit per directory
    level.  The script gives it the number of entries of the tree plus one,
    taken when the loop starts.  That bound is proved enough
    ([iglob_names_some]): each level of the walk goes to an existing entry
    strictly below the previous one, so the number of entries below the
    walked directory decreases, and any fuel above the number of those
    entries gives the same listing ([glob_fuel_bound]).  Running out of
    fuel is the distinct exception [OutOfFuel], never confused with a
    Python exception; [StExc.raises_only] states which exceptions a
    computation can raise, and [makedirs_no_fuel] and [copy_file_no_fuel]
    show that the makedirs recursion never raises [OutOfFuel].  For a whole
    run, [main_terminates] shows that the fuel of every walk is enough
    even though the tree changes while the loops run.  The writes stay
    below the output directory, away from the walked roots, so each walk
    meets the tree it was given.

    Not modelled: file permissions and [shutil.copymode]; symbolic and hard
    links; text encodings (a Python [str] is a Rocq [string] of 8-bit
    characters); Jinja's template language (rendering is an interface of
    [Host]); YAML and INI syntax (interfaces); a build platform holding glob
    metacharacters, for which [glob] would expand the directory itself as a
    pattern (the model reports [NotModelled]); the Windows path flavour. *)

From Stdlib Require Export Ascii.
From Stdlib Require String.
From stdpp Require Export base list gmap strings.

Declare Scope py_scope.
Delimit Scope py_scope with py.

Create HintDb pystr.
Create Rewrite HintDb pystr.

(** ** Strings: the equations of [String.append], which stdpp declares
    [simpl never]. *)

Lemma append_nil_l (s : string) : "" +:+ s = s.
Proof. reflexivity. Qed.

Lemma append_cons (c : ascii) (s t : string) :
  String.String c s +:+ t = String.String c (s +:+ t).
Proof. reflexivity. Qed.

Lemma append_nil_r (s : string) : s +:+ "" = s.
Proof. induction s as [|c s IH]; [done|]. by rewrite append_cons, IH. Qed.

Lemma append_assoc (s t u : string) : s +:+ (t +:+ u) = (s +:+ t) +:+ u.
Proof. induction s as [|c s IH]; [done|]. by rewrite !append_cons, IH. Qed.

Lemma length_append (s t : string) :
  String.length (s +:+ t) = String.length s + String.length t.
Proof. induction s as [|c s IH]; [done|]. rewrite append_cons. simpl. by rewrite IH. Qed.

Lemma append_inv_l (s t u : string) : s +:+ t = s +:+ u → t = u.
Proof. induction s as [|c s IH]; [done|]. rewrite !append_cons. intros [= ?]. auto. Qed.

#[export] Hint Rewrite append_nil_l append_cons append_nil_r : pystr.

Ltac str_simpl := repeat (autorewrite with pystr in *; simpl in *).

(** [String.prefix] is the prefix test on strings. *)
Lemma prefix_spec (p s : string) :
  String.prefix p s = true ↔ ∃ r, s = p +:+ r.
Proof.
  revert s. induction p as [|c p IH]; intros [|d s].
  - split; [intros _; by exists "" | intros; reflexivity].
  - split; [intros _; by exists (String.String d s) | intros; reflexivity].
  - split; [done|]. by intros [r ?].
  - cbn [String.prefix]. destruct (ascii_dec c d) as [->|Hne].
    + rewrite IH. split; intros [r Hr]; exists r; [by subst|].
      rewrite append_cons in Hr. congruence.
    + split; [done|]. intros [r Hr]. rewrite append_cons in Hr. congruence.
Qed.

Lemma prefix_append (p r : string) : String.prefix p (p +:+ r) = true.
Proof. apply prefix_spec. eauto. Qed.

#[export] Hint Resolve prefix_append : pystr.

(** Boolean string equality, reflected. *)
Lemma eqb_true (s t : string) : String.eqb s t = true ↔ s = t.
Proof. apply String.eqb_eq. Qed.

Lemma eqb_refl (s : string) : String.eqb s s = true.
Proof. by apply eqb_true. Qed.

(** ** Lists: maps and checks that agree on the elements of a list *)

Lemma forallb_in_ext {A} (f g : A → bool) (l : list A) :
  (∀ x, x ∈ l → f x = g x) → forallb f l = forallb g l.
Proof.
  induction l as [|x l IH]; intros Hfg; [done|]. simpl.
  rewrite (Hfg x (list_elem_of_here _ _)), IH; [done|]. intros y Hy. apply Hfg. by right.
Qed.

Lemma omap_in_ext {A B} (f g : A → option B) (l : list A) :
  (∀ x, x ∈ l → f x = g x) → omap f l = omap g l.
Proof.
  intros Hfg. apply list_omap_ext, Forall_Forall2_diag, Forall_forall. intros x Hx. by apply Hfg.
Qed.

Lemma forallb_mono {A} (f g : A → bool) (l : list A) :
  (∀ x, f x = true → g x = true) → forallb f l = true → forallb g l = true.
Proof. rewrite !forallb_forall. naive_solver. Qed.

(** A boolean check that holds on every element, one element at a time. *)
Lemma forallb_elem {A} (f : A → bool) (l : list A) (x : A) :
  forallb f l = true → x ∈ l → f x = true.
Proof. rewrite forallb_forall. intros H Hx%list_elem_of_In. by apply H. Qed.

#[export] Hint Rewrite eqb_refl : pystr.

(** ** The state-and-exception monad.

    A computation runs on a state [S] and either returns a value or raises an
    exception of type [E]; in both cases the state it reached is kept, since
    a Python exception does not roll back the effects that preceded it. *)
Module StExc.
Section Monad.
Context {S E : Type}.

Definition M (A : Type) : Type := S → (E + A) * S.

Definition ret {A} (a : A) : M A := λ s, (inr a, s).
Definition bind {A B} (f : A → M B) (m : M A) : M B :=
  λ s, match m s with
       | (inl e, s') => (inl e, s')
       | (inr a, s') => f a s'
       end.
Definition raise {A} (e : E) : M A := λ s, (inl e, s).
Definition get : M S := λ s, (inr s, s).
Definition put (s : S) : M unit := λ _, (inr tt, s).
Definition modify (f : S → S) : M unit := λ s, (inr tt, f s).

(** [try: m except e: handler(e)] *)
Definition catch {A} (m : M A) (handler : E → M A) : M A :=
  λ s, match m s with
       | (inl e, s') => handler e s'
       | r => r
       end.

(** [for x in xs: body(x)] *)
Fixpoint mfor {A} (xs : list A) (body : A → M unit) : M unit :=
  match xs with
  | [] => ret tt
  | x :: xs' => bind (λ _, mfor xs' body) (body x)
  end.

Lemma bind_ret_l {A B} (a : A) (f : A → M B) s : bind f (ret a) s = f a s.
Proof. reflexivity. Qed.

Lemma bind_raise {A B} (e : E) (f : A → M B) s : bind f (raise e) s = (inl e, s).
Proof. reflexivity. Qed.

Lemma bind_inr {A B} (m : M A) (f : A → M B) s a s' :
  m s = (inr a, s') → bind f m s = f a s'.
Proof. unfold bind. by intros ->. Qed.

Lemma bind_inl {A B} (m : M A) (f : A → M B) s e s' :
  m s = (inl e, s') → bind f m s = (inl e, s').
Proof. unfold bind. by intros ->. Qed.

Lemma bind_get {A} (f : S → M A) s : bind f get s = f s s.
Proof. reflexivity. Qed.

Lemma catch_inr {A} (m : M A) (h : E → M A) s a s' :
  m s = (inr a, s') → catch m h s = (inr a, s').
Proof. unfold catch. by intros ->. Qed.

Lemma bind_assoc {A B C} (m : M A) (f : A → M B) (g : B → M C) s :
  bind g (bind f m) s = bind (λ a, bind g (f a)) m s.
Proof. unfold bind. by destruct (m s) as [[e|a] s']. Qed.

Lemma mfor_app {A} (xs ys : list A) (body : A → M unit) s :
  mfor (xs ++ ys) body s = bind (λ _, mfor ys body) (mfor xs body) s.
Proof.
  revert s. induction xs as [|x xs IH]; intros s; [done|].
  simpl. rewrite bind_assoc. unfold bind.
  destruct (body x s) as [[e|[]] s']; [done|]. apply IH.
Qed.

(** A computation keeps the predicate [P] of the state, on every exit. *)
Definition preserves {A} (P : S → Prop) (m : M A) : Prop :=
  ∀ s, P s → P (m s).2.

Lemma preserves_ret {A} P (a : A) : preserves P (ret a).
Proof. by intros s. Qed.

Lemma preserves_raise {A} P (e : E) : preserves P (@raise A e).
Proof. by intros s. Qed.

Lemma preserves_get P : preserves P get.
Proof. by intros s. Qed.

Lemma preserves_put P s' : P s' → preserves P (put s').
Proof. by intros ? s. Qed.

Lemma preserves_bind {A B} P (m : M A) (f : A → M B) :
  preserves P m → (∀ a, preserves P (f a)) → preserves P (bind f m).
Proof.
  intros Hm Hf s Hs. unfold bind. specialize (Hm s Hs).
  destruct (m s) as [[e|a] s']; simpl in *; auto. by apply Hf.
Qed.

Lemma preserves_catch {A} P (m : M A) (h : E → M A) :
  preserves P m → (∀ e, preserves P (h e)) → preserves P (catch m h).
Proof.
  intros Hm Hh s Hs. unfold catch. specialize (Hm s Hs).
  destruct (m s) as [[e|a] s']; simpl in *; auto. by apply Hh.
Qed.

Lemma preserves_get_bind {A} P (f : S → M A) :
  (∀ s, P s → P (f s s).2) → preserves P (bind f get).
Proof. intros Hf s Hs. by apply Hf. Qed.

Lemma preserves_get_bind_any {A} P (f : S → M A) :
  (∀ s, preserves P (f s)) → preserves P (bind f get).
Proof. intros Hf s Hs. by apply Hf. Qed.

Lemma preserves_modify P (f : S → S) :
  (∀ s, P s → P (f s)) → preserves P (modify f).
Proof. intros Hf s Hs. by apply Hf. Qed.

(** Computations that agree pointwise compose to computations that agree. *)
Lemma bind_ext {A B} (m1 m2 : M A) (f1 f2 : A → M B) s :
  (∀ s, m1 s = m2 s) → (∀ a s, f1 a s = f2 a s) → bind f1 m1 s = bind f2 m2 s.
Proof. intros Hm Hf. unfold bind. rewrite Hm. by destruct (m2 s) as [[e|a] s']. Qed.

Lemma catch_ext {A} (m1 m2 : M A) (h : E → M A) s :
  (∀ s, m1 s = m2 s) → catch m1 h s = catch m2 h s.
Proof. intros Hm. unfold catch. by rewrite Hm. Qed.

Lemma mfor_ext {A} (xs : list A) (f1 f2 : A → M unit) s :
  (∀ x s, f1 x s = f2 x s) → mfor xs f1 s = mfor xs f2 s.
Proof.
  intros Hf. revert s. induction xs as [|x xs IH]; intros s; [done|].
  simpl. apply bind_ext; [done|]. intros _ s'. apply IH.
Qed.

Lemma mfor_map {A B} (f : A → B) (xs : list A) (body : B → M unit) s :
  mfor (map f xs) body s = mfor xs (λ x, body (f x)) s.
Proof. revert s. induction xs as [|x xs IH]; intros s; [done|]. simpl. by apply bind_ext. Qed.

Lemma preserves_mfor {A} P (xs : list A) (f : A → M unit) :
  (∀ x, preserves P (f x)) → preserves P (mfor xs f).
Proof.
  intros Hf. induction xs as [|x xs IH]; simpl; [apply preserves_ret|].
  by apply preserves_bind.
Qed.

Lemma preserves_mfor_in {A} P (xs : list A) (f : A → M unit) :
  (∀ x, x ∈ xs → preserves P (f x)) → preserves P (mfor xs f).
Proof.
  intros Hf. induction xs as [|x xs IH]; simpl; [apply preserves_ret|].
  apply preserves_bind; [apply Hf; by left|]. intros _. apply IH. intros y Hy. apply Hf. by right.
Qed.

(** A loop whose every step succeeds and extends an accumulated trace
    [acc] by [out x], keeping [Q]: the whole loop succeeds with the
    concatenated trace. *)
Lemma mfor_accumulate {A B} (Q : list B → S → Prop) (xs : list A) (body : A → M unit)
    (out : A → list B) :
  (∀ x acc s, x ∈ xs → Q acc s → ∃ s', body x s = (inr tt, s') ∧ Q (acc ++ out x) s') →
  ∀ acc s, Q acc s → ∃ s', mfor xs body s = (inr tt, s') ∧ Q (acc ++ mjoin (map out xs)) s'.
Proof.
  intros Hb. induction xs as [|x xs IH]; intros acc s Hq.
  { exists s. by rewrite app_nil_r. }
  destruct (Hb x acc s (list_elem_of_here _ _) Hq) as (s1 & Hs1 & Hq1).
  destruct (IH (λ y acc s Hy, Hb y acc s (list_elem_of_further _ _ _ Hy)) _ _ Hq1) as (s2 & Hs2 & Hq2).
  exists s2. simpl. rewrite (bind_inr _ _ _ _ _ Hs1), Hs2. split; [done|].
  by rewrite <- app_assoc in Hq2.
Qed.

(** A loop whose every step keeps a predicate of the state keeps it, on
    every exit, normal or exceptional. *)
Lemma mfor_preserves {A} (P : S → Prop) (xs : list A) (body : A → M unit) :
  (∀ x s, P s → P (body x s).2) →
  ∀ s, P s → P (mfor xs body s).2.
Proof.
  intros Hb. induction xs as [|x xs IH]; intros s Hs; [done|].
  simpl. unfold bind. pose proof (Hb x s Hs) as H.
  destruct (body x s) as [[e|[]] s']; simpl in *; auto.
Qed.
(** A computation raises only exceptions satisfying [Q]: the other
    exceptions (in the script, running out of fuel) never occur. *)
Definition raises_only {A} (Q : E → Prop) (m : M A) : Prop :=
  ∀ s e s', m s = (inl e, s') → Q e.

Lemma raises_only_ret {A} Q (a : A) : raises_only Q (ret a).
Proof. by intros s e s'. Qed.

Lemma raises_only_raise {A} (Q : E → Prop) (e : E) : Q e → raises_only Q (@raise A e).
Proof. intros He s e' s' [= <- _]. done. Qed.

Lemma raises_only_get Q : raises_only Q get.
Proof. by intros s e s'. Qed.

Lemma raises_only_put Q s0 : raises_only Q (put s0).
Proof. by intros s e s'. Qed.

Lemma raises_only_modify Q (f : S → S) : raises_only Q (modify f).
Proof. by intros s e s'. Qed.

Lemma raises_only_bind {A B} Q (m : M A) (f : A → M B) :
  raises_only Q m → (∀ a, raises_only Q (f a)) → raises_only Q (bind f m).
Proof.
  intros Hm Hf s e s'. unfold bind. destruct (m s) as [[e0|a] s0] eqn:Hs.
  - intros [= <- _]. by apply (Hm s e0 s0).
  - apply Hf.
Qed.

(** [try: m except e: h(e)], where the handler raises only what it caught
    or exceptions satisfying [Q]. *)
Lemma raises_only_catch {A} Q (m : M A) (h : E → M A) :
  raises_only Q m → (∀ e, Q e → raises_only Q (h e)) → raises_only Q (catch m h).
Proof.
  intros Hm Hh s e s'. unfold catch. destruct (m s) as [[e0|a] s0] eqn:Hs; [|done].
  apply Hh. by apply (Hm s e0 s0).
Qed.

(** A triple for runs that may raise: from a state satisfying [P], the
    computation ends in a state satisfying [R], normally or not, and every
    exception it raises satisfies [Q].  It is [preserves] and [raises_only]
    together, restricted to the states of [P]. *)
Definition triple {A} (P : S → Prop) (m : M A) (R : S → Prop) (Q : E → Prop) : Prop :=
  ∀ s, P s → R (m s).2 ∧ ∀ e, (m s).1 = inl e → Q e.

Lemma triple_of {A} (P : S → Prop) (Q : E → Prop) (m : M A) :
  preserves P m → raises_only Q m → triple P m P Q.
Proof.
  intros Hp Hr s Hs. split; [by apply Hp|]. intros e He.
  apply (Hr s e (m s).2). by rewrite <- He, <- surjective_pairing.
Qed.

Lemma triple_ret {A} (P R : S → Prop) Q (a : A) : (∀ s, P s → R s) → triple P (ret a) R Q.
Proof. intros HR s Hs. split; [by apply HR|done]. Qed.

Lemma triple_raise {A} (P R : S → Prop) (Q : E → Prop) (e : E) :
  Q e → (∀ s, P s → R s) → triple P (@raise A e) R Q.
Proof. intros He HR s Hs. split; [by apply HR|]. by intros e' [= <-]. Qed.

Lemma triple_bind {A B} (P R T : S → Prop) Q (m : M A) (f : A → M B) :
  triple P m R Q → (∀ a, triple R (f a) T Q) → (∀ s, R s → T s) → triple P (bind f m) T Q.
Proof.
  intros Hm Hf HRT s Hs. unfold bind. destruct (Hm s Hs) as [HR HQ].
  destruct (m s) as [[e|a] s']; simpl in *; [split; [auto|]; intros e' [= <-]; auto|].
  by apply Hf.
Qed.

Lemma triple_get_bind {A} (P R : S → Prop) Q (f : S → M A) :
  (∀ s0, P s0 → triple (λ s, s = s0) (f s0) R Q) → triple P (bind f get) R Q.
Proof. intros Hf s Hs. by apply (Hf s Hs). Qed.

Lemma triple_ext {A} (P R : S → Prop) Q (m1 m2 : M A) :
  (∀ s, P s → m1 s = m2 s) → triple P m2 R Q → triple P m1 R Q.
Proof. intros He Hm s Hs. rewrite He by done. by apply Hm. Qed.

(** A run whose first step returned [a] in a state of [P]. *)
Lemma triple_run_bind {A B} (P R : S → Prop) Q (m : M A) (f : A → M B) s a s' :
  m s = (inr a, s') → P s' → triple P (f a) R Q →
  R (bind f m s).2 ∧ ∀ e, (bind f m s).1 = inl e → Q e.
Proof. intros Hm Hs Hf. rewrite (bind_inr _ _ _ _ _ Hm). by apply Hf. Qed.

(** A loop whose every step keeps [I] and raises only [Q] does so too. *)
Lemma triple_mfor {A} (I : S → Prop) Q (xs : list A) (f : A → M unit) :
  (∀ x, x ∈ xs → triple I (f x) I Q) → triple I (mfor xs f) I Q.
Proof.
  induction xs as [|x xs IH]; intros Hf; simpl; [by apply triple_ret|].
  apply triple_bind with I; [apply Hf; by left| |done]. intros _. apply IH.
  intros y Hy. apply Hf. by right.
Qed.
End Monad.
Arguments M : clear implicits.
End StExc.

#[export] Instance StExc_ret {S E} : MRet (StExc.M S E) := @StExc.ret S E.
#[export] Instance StExc_bind {S E} : MBind (StExc.M S E) := @StExc.bind S E.

(** Unfolding the monad instances in a goal. *)
Lemma preserves_mret {S E A} (P : S → Prop) (a : A) :
  StExc.preserves P (mret (M := StExc.M S E) a).
Proof. by intros s. Qed.

Lemma preserves_mbind {S E A B} (P : S → Prop) (m : StExc.M S E A) (f : A → StExc.M S E B) :
  StExc.preserves P m → (∀ a, StExc.preserves P (f a)) → StExc.preserves P (m ≫= f).
Proof. apply StExc.preserves_bind. Qed.

#[export] Hint Resolve preserves_mret preserves_mbind : pystr.
#[export] Hint Resolve StExc.preserves_ret StExc.preserves_raise StExc.preserves_get
  StExc.preserves_bind StExc.preserves_catch StExc.preserves_get_bind StExc.preserves_mfor : pystr.

Lemma raises_only_mret {S E A} (Q : E → Prop) (a : A) :
  StExc.raises_only Q (mret (M := StExc.M S E) a).
Proof. by intros s e s'. Qed.

Lemma raises_only_mbind {S E A B} (Q : E → Prop) (m : StExc.M S E A) (f : A → StExc.M S E B) :
  StExc.raises_only Q m → (∀ a, StExc.raises_only Q (f a)) → StExc.raises_only Q (m ≫= f).
Proof. apply StExc.raises_only_bind. Qed.

Lemma triple_mret {S E A} (P R : S → Prop) (Q : E → Prop) (a : A) :
  (∀ s, P s → R s) → StExc.triple P (mret (M := StExc.M S E) a) R Q.
Proof. apply StExc.triple_ret. Qed.

Lemma triple_mbind {S E A B} (P R T : S → Prop) (Q : E → Prop) (m : StExc.M S E A)
    (f : A → StExc.M S E B) :
  StExc.triple P m R Q → (∀ a, StExc.triple R (f a) T Q) → (∀ s, R s → T s) →
  StExc.triple P (m ≫= f) T Q.
Proof. apply StExc.triple_bind. Qed.

Create HintDb raises.
#[export] Hint Resolve raises_only_mret raises_only_mbind StExc.raises_only_ret
  StExc.raises_only_get StExc.raises_only_put StExc.raises_only_modify StExc.raises_only_bind : raises.

Ltac unfold_monad :=
  unfold mbind, mret, StExc_bind, StExc_ret in *.
