(* ===== verification/PyStr.v ===== *)
(** * Python [str] methods used by [build_webui.py]

    Each definition follows CPython's semantics for the method named in its
    comment: [s[:i]] and [s[i:]] ([stake], [sdrop]), [s.startswith(p)],
    [s.endswith(p)], [x in s] ([contains]), [s.replace(old, new)] (every
    non-overlapping occurrence, scanning left to right, and the interleaving
    behaviour for an empty [old]), [s.rstrip(c)] for one character,
    [s.split(c)] for one character, and [s.rfind(c)].  The lemmas give each
    its specification; [replace] gets the two facts the script depends on. *)

From S2P Require Import Prelude.

Module PyStr.

(** [s[:n]] *)
Fixpoint stake (n : nat) (s : string) : string :=
  match n, s with
  | 0, _ | _, "" => ""
  | S n', String.String c s' => String.String c (stake n' s')
  end.

(** [s[n:]] *)
Fixpoint sdrop (n : nat) (s : string) : string :=
  match n, s with
  | 0, _ => s
  | S _, "" => ""
  | S n', String.String _ s' => sdrop n' s'
  end.

(** [s.startswith(p)] *)
Definition startswith (s p : string) : bool := String.prefix p s.

(** [s.endswith(p)]: compare the last [len(p)] characters. *)
Definition endswith (s p : string) : bool :=
  let n := String.length s in
  let k := String.length p in
  (k <=? n) && String.eqb (sdrop (n - k) s) p.

(** [needle in hay] *)
Fixpoint contains (needle hay : string) : bool :=
  String.prefix needle hay ||
  match hay with
  | "" => false
  | String.String _ h => contains needle h
  end.

(** The scan of [str.replace] for a non-empty [old]: [skip] counts the
    characters still covered by the occurrence just replaced. *)
Fixpoint replace_scan (old new : string) (skip : nat) (s : string) : string :=
  match s with
  | "" => ""
  | String.String c s' =>
      match skip with
      | S k => replace_scan old new k s'
      | 0 =>
          if String.prefix old s
          then new +:+ replace_scan old new (pred (String.length old)) s'
          else String.String c (replace_scan old new 0 s')
      end
  end.

(** [s.replace("", new)] puts [new] before every character and at the end. *)
Fixpoint interleave (new s : string) : string :=
  match s with
  | "" => new
  | String.String c s' => new +:+ String.String c (interleave new s')
  end.

(** [s.replace(old, new)] *)
Definition replace (s old new : string) : string :=
  match old with
  | "" => interleave new s
  | _ => replace_scan old new 0 s
  end.

(** [s.rstrip(c)] for a single character [c]. *)
Fixpoint rstrip (c : ascii) (s : string) : string :=
  match s with
  | "" => ""
  | String.String d s' =>
      let r := rstrip c s' in
      if bool_decide (d = c) && String.eqb r "" then "" else String.String d r
  end.

(** [s.split(c)] for a single-character separator. *)
Fixpoint split (c : ascii) (s : string) : list string :=
  match s with
  | "" => [""]
  | String.String d s' =>
      match split c s' with
      | [] => []
      | h :: t => if decide (d = c) then "" :: h :: t else String.String d h :: t
      end
  end.

(** [c.join(pieces)] for a single-character separator. *)
Fixpoint join_with (c : ascii) (pieces : list string) : string :=
  match pieces with
  | [] => ""
  | [p] => p
  | p :: ps => p +:+ String.String c (join_with c ps)
  end.

(** [s.rfind(c)], [None] standing for [-1]. *)
Fixpoint rfind (c : ascii) (s : string) : option nat :=
  match s with
  | "" => None
  | String.String d s' =>
      match rfind c s' with
      | Some i => Some (S i)
      | None => if decide (d = c) then Some 0 else None
      end
  end.

(** ** Lemmas *)

Lemma stake_sdrop (n : nat) (s : string) : stake n s +:+ sdrop n s = s.
Proof.
  revert s. induction n as [|n IH]; intros [|c s]; try done.
  simpl. rewrite append_cons. by rewrite IH.
Qed.

Lemma sdrop_append (x r : string) : sdrop (String.length x) (x +:+ r) = r.
Proof. induction x as [|c x IH]; [done|]. by rewrite append_cons. Qed.

Lemma stake_append (x r : string) : stake (String.length x) (x +:+ r) = x.
Proof. induction x as [|c x IH]; [done|]. rewrite append_cons. simpl. by rewrite IH. Qed.

Lemma startswith_spec (s p : string) :
  startswith s p = true ↔ ∃ r, s = p +:+ r.
Proof. apply prefix_spec. Qed.

Lemma endswith_spec (s p : string) :
  endswith s p = true ↔ ∃ r, s = r +:+ p.
Proof.
  unfold endswith. rewrite andb_true_iff, Nat.leb_le, eqb_true. split.
  - intros [Hle Hd]. exists (stake (String.length s - String.length p) s).
    rewrite <- Hd at 2. by rewrite stake_sdrop.
  - intros [r ->]. rewrite length_append.
    replace (String.length r + String.length p - String.length p)
      with (String.length r) by lia.
    split; [lia|]. apply sdrop_append.
Qed.

Lemma contains_spec (needle hay : string) :
  contains needle hay = true ↔ ∃ a b, hay = a +:+ needle +:+ b.
Proof.
  induction hay as [|c hay IH]; cbn [contains]; rewrite orb_true_iff, prefix_spec.
  - split.
    + intros [[r Hr] | H]; [by exists "", r | discriminate].
    + intros [a [b Hab]]. left. exists b. destruct a; [done|discriminate].
  - rewrite IH. split.
    + intros [[r Hr] | [a [b Hab]]].
      * by exists "", r.
      * exists (String.String c a), b. rewrite append_cons. congruence.
    + intros [[|d a] [b Hab]].
      * left. by exists b.
      * right. exists a, b. rewrite append_cons in Hab. congruence.
Qed.

Lemma contains_append_r (needle x r : string) :
  contains needle r = true → contains needle (x +:+ r) = true.
Proof.
  rewrite !contains_spec. intros [a [b ->]]. exists (x +:+ a), b.
  by rewrite !append_assoc.
Qed.

Lemma contains_prefix (p r : string) : contains p (p +:+ r) = true.
Proof. apply contains_spec. by exists "", r. Qed.

(** The characters covered by a replaced occurrence are skipped. *)
Lemma replace_scan_skip (old new x r : string) :
  replace_scan old new (String.length x) (x +:+ r) = replace_scan old new 0 r.
Proof. induction x as [|c x IH]; [done|]. by rewrite append_cons. Qed.

(** An occurrence at the front is replaced and the scan resumes after it. *)
Lemma replace_app_prefix (s old new : string) :
  old ≠ "" → replace (old +:+ s) old new = new +:+ replace s old new.
Proof.
  intros Hne. destruct old as [|c o]; [done|]. unfold replace.
  rewrite append_cons. cbn [replace_scan].
  rewrite <- append_cons, prefix_append. simpl. by rewrite replace_scan_skip.
Qed.

(** A string in which [old] does not occur is left unchanged. *)
Lemma replace_absent (s old new : string) :
  old ≠ "" → contains old s = false → replace s old new = s.
Proof.
  intros Hne. destruct old as [|c o]; [done|]. unfold replace.
  induction s as [|d s IH]; [done|]. cbn [contains].
  rewrite orb_false_iff. intros [Hp Hc]. cbn [replace_scan].
  rewrite Hp. by rewrite IH.
Qed.

#[export] Hint Rewrite sdrop_append stake_append replace_scan_skip : pystr.

Lemma split_nonempty (c : ascii) (s : string) : split c s ≠ [].
Proof.
  induction s as [|d s IH]; simpl; [done|].
  destruct (split c s); [done|]. by case_decide.
Qed.

(** [c.join(s.split(c)) == s] *)
Lemma join_split (c : ascii) (s : string) : join_with c (split c s) = s.
Proof.
  induction s as [|d s IH]; [done|]. simpl.
  destruct (split c s) as [|h t] eqn:E; [by destruct (split_nonempty c s)|].
  case_decide as Hd.
  - subst d. rewrite <- IH. simpl. destruct t; by rewrite append_nil_l.
  - rewrite <- IH. by destruct t.
Qed.

(** No piece of [s.split(c)] contains the separator. *)
Lemma split_pieces (c : ascii) (s p : string) :
  p ∈ split c s → contains (String.String c "") p = false.
Proof.
  revert p. induction s as [|d s IH]; intros p; simpl.
  - rewrite list_elem_of_singleton. by intros ->.
  - destruct (split c s) as [|h t] eqn:E; [by rewrite elem_of_nil|].
    case_decide as Hd.
    + rewrite !elem_of_cons. intros [->|Hp]; [done|]. apply IH.
      by rewrite elem_of_cons.
    + rewrite elem_of_cons. intros [->|Hp]; [|apply IH; by right].
      cbn [contains String.prefix]. destruct (ascii_dec c d) as [->|_]; [done|].
      simpl. apply IH. by left.
Qed.

(** Splitting at a separator splits the pieces on each side. *)
Lemma split_app_sep (c : ascii) (a b : string) :
  split c (a +:+ String.String c b) = split c a ++ split c b.
Proof.
  induction a as [|d a IH].
  - simpl. destruct (split c b) as [|h t] eqn:E; [by destruct (split_nonempty c b)|].
    by rewrite decide_True.
  - rewrite append_cons. cbn [split]. rewrite IH.
    destruct (split c a) as [|h t] eqn:E; [by destruct (split_nonempty c a)|].
    simpl. by case_decide.
Qed.

Lemma rfind_app (c : ascii) (a b : string) :
  rfind c (a +:+ b) =
  match rfind c b with
  | Some i => Some (String.length a + i)
  | None => rfind c a
  end.
Proof.
  induction a as [|d a IH].
  - rewrite append_nil_l. by destruct (rfind c b).
  - rewrite append_cons. cbn [rfind]. rewrite IH. by destruct (rfind c b).
Qed.

Lemma rfind_none (c : ascii) (s : string) :
  rfind c s = None ↔ contains (String.String c "") s = false.
Proof.
  induction s as [|d s IH]; [done|]. cbn [rfind contains].
  destruct (rfind c s) eqn:E.
  - split; [done|]. rewrite orb_false_iff. intros [_ Hc].
    apply IH in Hc. discriminate.
  - assert (Hc : contains (String.String c "") s = false) by (by apply IH).
    rewrite Hc, orb_false_r. cbn [String.prefix].
    destruct (ascii_dec c d) as [->|Hne].
    + rewrite decide_True by done. by destruct s.
    + by rewrite decide_False by congruence.
Qed.

Lemma rfind_some (c : ascii) (s : string) (j : nat) :
  rfind c s = Some j →
  ∃ a b, s = a +:+ String.String c b ∧ String.length a = j ∧ rfind c b = None.
Proof.
  revert j. induction s as [|d s IH]; intros j; [done|]. cbn [rfind].
  destruct (rfind c s) as [i|] eqn:E.
  - intros [= <-]. destruct (IH i eq_refl) as (a & b & -> & <- & Hb).
    exists (String.String d a), b. by rewrite append_cons.
  - case_decide as Hd; [|done]. intros [= <-]. subst d. by exists "", s.
Qed.

Lemma split_no_sep (c : ascii) (s : string) : rfind c s = None → split c s = [s].
Proof.
  induction s as [|d s IH]; [done|]. cbn [rfind split].
  destruct (rfind c s); [done|]. case_decide; [done|]. intros _.
  by rewrite IH.
Qed.

Lemma rfind_lt (c : ascii) (s : string) (j : nat) : rfind c s = Some j → j < String.length s.
Proof. intros H. apply rfind_some in H as (a & b & -> & <- & _). rewrite length_append. simpl. lia. Qed.

Lemma sdrop_length_nonempty (n : nat) (s : string) : n < String.length s → sdrop n s ≠ "".
Proof.
  revert s. induction n as [|n IH]; intros [|c s] Hn; simpl in *; try done; try lia.
  apply IH. lia.
Qed.

Lemma sdrop_ge (n : nat) (s : string) : String.length s ≤ n → sdrop n s = "".
Proof. revert s. induction n as [|n IH]; intros [|c s] Hn; simpl in *; try done; try lia. apply IH. lia. Qed.

End PyStr.
