(* ===== verification/PosixPath.v ===== *)
(** * [posixpath] and the path helpers of [glob]

    Translations of CPython's [posixpath.join], [dirname], [basename] and
    [split], of [glob.has_magic] and [glob._ishidden], and the list of
    components the kernel reads from a path string ([components]: the pieces
    between slashes, empty pieces dropped).  The lemmas relate the string
    operations to the components: joining appends components, [dirname] of
    a joined name gives back the directory's components. *)

From S2P Require Import Prelude PyStr.

Module PosixPath.
Import PyStr.

Definition sep : string := "/".

(** One iteration of the loop of [posixpath.join(a, *p)]:
    [if b.startswith(sep): path = b
     elif not path or path.endswith(sep): path += b
     else: path += sep + b] *)
Definition join_step (path b : string) : string :=
  if startswith b sep then b
  else if String.eqb path "" || endswith path sep then path +:+ b
  else path +:+ sep +:+ b.

(** [posixpath.join(a, *p)] *)
Definition join (a : string) (p : list string) : string := foldl join_step a p.

(** [c * n] for a one-character string [c]. *)
Fixpoint srepeat (n : nat) (c : ascii) : string :=
  match n with
  | 0 => ""
  | S n' => String.String c (srepeat n' c)
  end.

(** [i = p.rfind(sep) + 1] *)
Definition last_sep_end (p : string) : nat :=
  match rfind "/"%char p with Some j => S j | None => 0 end.

(** [posixpath.dirname(p)]:
    [head = p[:i]; if head and head != sep*len(head): head = head.rstrip(sep)] *)
Definition dirname (p : string) : string :=
  let head := stake (last_sep_end p) p in
  if negb (String.eqb head "") &&
     negb (String.eqb head (srepeat (String.length head) "/"%char))
  then rstrip "/"%char head else head.

(** [posixpath.basename(p)]: [p[i:]] *)
Definition basename (p : string) : string := sdrop (last_sep_end p) p.

(** [posixpath.split(p)] computes the [head] of [dirname] and the [tail] of
    [basename] with the same code. *)
Definition split (p : string) : string * string := (dirname p, basename p).

(** The components the kernel walks: [p.split('/')] without empty pieces. *)
Definition components (p : string) : list string :=
  filter (λ x, x ≠ "") (PyStr.split "/"%char p).

(** [glob.has_magic]: [re.compile('([*?[])').search(s) is not None] *)
Definition has_magic (s : string) : bool :=
  contains "*" s || contains "?" s || contains "[" s.

(** [glob._ishidden(path)]: [path[0] == '.'] *)
Definition ishidden (s : string) : bool :=
  match s with
  | String.String "."%char _ => true
  | _ => false
  end.

(** A name that can be joined under a directory: not empty and free of
    separators. *)
Definition plain_name (x : string) : Prop :=
  x ≠ "" ∧ contains "/" x = false.

(** ** Components *)

Lemma components_app_sep (a b : string) :
  components (a +:+ "/" +:+ b) = components a ++ components b.
Proof.
  unfold components. rewrite append_cons, append_nil_l, split_app_sep.
  apply filter_app.
Qed.

Lemma components_app_slash (a : string) : components (a +:+ "/") = components a.
Proof.
  change "/" with ("/" +:+ ""). rewrite components_app_sep. apply app_nil_r.
Qed.

Lemma components_srepeat (k : nat) : components (srepeat k "/"%char) = [].
Proof.
  induction k as [|k IH]; [done|]. simpl.
  change (String.String "/"%char (srepeat k "/"%char))
    with ("" +:+ "/" +:+ srepeat k "/"%char).
  rewrite components_app_sep. by rewrite IH.
Qed.

Lemma components_app_srepeat (s : string) (k : nat) :
  components (s +:+ srepeat k "/"%char) = components s.
Proof.
  destruct k as [|k]; [by rewrite append_nil_r|]. simpl.
  change (String.String "/"%char (srepeat k "/"%char)) with ("/" +:+ srepeat k "/"%char).
  rewrite components_app_sep, components_srepeat. apply app_nil_r.
Qed.

Lemma rstrip_spec (c : ascii) (s : string) : ∃ k, s = rstrip c s +:+ srepeat k c.
Proof.
  induction s as [|d s [k Hk]]; [by exists 0|]. simpl.
  destruct (bool_decide (d = c)) eqn:Hd; destruct (String.eqb (rstrip c s) "") eqn:Hr;
    simpl; try (exists k; rewrite append_cons; congruence).
  apply bool_decide_eq_true in Hd. apply eqb_true in Hr. subst.
  exists (S k). rewrite Hr in Hk. rewrite Hk at 1. done.
Qed.

Lemma components_rstrip (s : string) : components (rstrip "/"%char s) = components s.
Proof.
  destruct (rstrip_spec "/"%char s) as [k Hk]. rewrite Hk at 2.
  by rewrite components_app_srepeat.
Qed.

Lemma components_join_step (a b : string) :
  startswith b sep = false →
  components (join_step a b) = components a ++ components b.
Proof.
  intros Hb. unfold join_step. rewrite Hb.
  destruct (String.eqb a "") eqn:Ha; simpl.
  - apply eqb_true in Ha. by subst.
  - destruct (endswith a sep) eqn:He.
    + apply endswith_spec in He as [a' ->]. unfold sep.
      rewrite <- append_assoc, components_app_sep.
      rewrite <- (append_nil_r "/"), components_app_sep. simpl. by rewrite app_nil_r.
    + apply components_app_sep.
Qed.

Lemma components_join (a : string) (ps : list string) :
  Forall (λ b, startswith b sep = false) ps →
  components (join a ps) = components a ++ mjoin (map components ps).
Proof.
  revert a. induction ps as [|b ps IH]; intros a Hps; simpl.
  - by rewrite app_nil_r.
  - inversion Hps as [|? ? Hb Hps']; subst. unfold join. simpl.
    fold (join (join_step a b) ps). rewrite IH by done.
    rewrite components_join_step by done. by rewrite app_assoc.
Qed.

(** ** [dirname] and [basename] of a joined name *)

Lemma plain_name_not_sep (x : string) : plain_name x → startswith x sep = false.
Proof.
  intros [Hne Hc]. destruct (startswith x sep) eqn:E; [|done].
  apply startswith_spec in E as [r ->]. unfold sep in Hc.
  by rewrite contains_prefix in Hc.
Qed.

Lemma length_srepeat (k : nat) (c : ascii) : String.length (srepeat k c) = k.
Proof. induction k; simpl; auto. Qed.

(** The three shapes of [join_step d x] for a plain name [x]. *)
Lemma join_step_plain (d x : string) :
  plain_name x →
  (d = "" ∧ join_step d x = x) ∨
  (d ≠ "" ∧ ∃ a, join_step d x = a +:+ "/" +:+ x ∧
                 components d = components (a +:+ "/")).
Proof.
  intros Hx. unfold join_step. rewrite plain_name_not_sep by done.
  destruct (String.eqb_spec d "") as [->|Hd]; simpl.
  - by left.
  - right. split; [done|].
    destruct (endswith d sep) eqn:He.
    + apply endswith_spec in He as [a ->]. exists a. unfold sep.
      split; [by rewrite append_assoc | done].
    + exists d. split; [done|]. by rewrite components_app_slash.
Qed.

Lemma last_sep_end_sep (a x : string) :
  contains "/" x = false → last_sep_end (a +:+ "/" +:+ x) = String.length (a +:+ "/").
Proof.
  intros Hx. unfold last_sep_end. apply rfind_none in Hx.
  rewrite append_assoc, rfind_app, Hx, rfind_app. simpl.
  rewrite length_append. simpl. lia.
Qed.

Lemma basename_join_step (d x : string) :
  plain_name x → basename (join_step d x) = x.
Proof.
  intros Hx. destruct (join_step_plain d x Hx) as [[_ ->] | [_ [a [-> _]]]].
  - destruct Hx as [_ Hx]. unfold basename, last_sep_end.
    apply rfind_none in Hx as ->. done.
  - destruct Hx as [_ Hx]. unfold basename. rewrite last_sep_end_sep by done.
    rewrite append_assoc. apply sdrop_append.
Qed.

(** The parent directory of a joined name has the directory's components,
    and is the empty string only when the directory is. *)
Lemma dirname_join_step (d x : string) :
  plain_name x →
  components (dirname (join_step d x)) = components d ∧
  (dirname (join_step d x) = "" ↔ d = "").
Proof.
  intros Hx. destruct (join_step_plain d x Hx) as [[-> ->] | [Hd [a [-> Hc]]]].
  - destruct Hx as [_ Hx]. unfold dirname, last_sep_end.
    apply rfind_none in Hx as ->. done.
  - destruct Hx as [_ Hx]. unfold dirname. rewrite last_sep_end_sep by done.
    rewrite append_assoc, stake_append. rewrite Hc.
    assert (Hne : String.eqb (a +:+ "/") "" = false).
    { destruct a; [done|]. by rewrite append_cons. }
    rewrite Hne. simpl.
    destruct (String.eqb (a +:+ "/") (srepeat _ _)) eqn:Hs; simpl.
    + split; [done|]. split; [|done]. intros H. by rewrite H in Hne.
    + rewrite components_rstrip. split; [done|]. split; [|done]. intros Hr.
      destruct (rstrip_spec "/"%char (a +:+ "/")) as [k Hk].
      rewrite Hr, append_nil_l in Hk. rewrite Hk, length_srepeat, eqb_refl in Hs.
      discriminate.
Qed.

Lemma length_stake_le (n : nat) (s : string) : String.length (stake n s) ≤ n.
Proof. revert s. induction n as [|n IH]; intros [|c s]; simpl; try lia. specialize (IH s). lia. Qed.

Lemma sdrop_nonempty (n : nat) (s : string) : sdrop n s ≠ "" → n < String.length s.
Proof. revert s. induction n as [|n IH]; intros [|c s]; simpl; try done; [lia|]. intros H. specialize (IH s H). lia. Qed.

Lemma length_stake_le_length (n : nat) (s : string) : String.length (stake n s) ≤ String.length s.
Proof. revert s. induction n as [|n IH]; intros [|c s]; simpl; try lia. specialize (IH s). lia. Qed.

Lemma length_rstrip (c : ascii) (s : string) : String.length (rstrip c s) ≤ String.length s.
Proof.
  destruct (rstrip_spec c s) as [k Hk]. rewrite Hk at 2. rewrite length_append. lia.
Qed.

Lemma length_dirname_le (p : string) : String.length (dirname p) ≤ String.length p.
Proof.
  unfold dirname. pose proof (length_stake_le_length (last_sep_end p) p).
  pose proof (length_rstrip "/"%char (stake (last_sep_end p) p)).
  destruct (_ && _); lia.
Qed.

(** [dirname] shortens a path whose [basename] is not empty. *)
Lemma length_dirname_lt (p : string) :
  basename p ≠ "" → String.length (dirname p) < String.length p.
Proof.
  unfold basename, dirname. intros H. apply sdrop_nonempty in H.
  pose proof (length_stake_le (last_sep_end p) p).
  pose proof (length_rstrip "/"%char (stake (last_sep_end p) p)).
  destruct (_ && _); lia.
Qed.

(** A name joined under a non-empty directory is never the bare [.keep]. *)
Lemma join_ne_keep (d n : string) : d ≠ "" → join d [n] ≠ ".keep".
Proof.
  intros Hd. unfold join. simpl. unfold join_step.
  destruct (startswith n sep) eqn:Hs.
  - intros ->. discriminate.
  - destruct (String.eqb_spec d "") as [->|_]; [done|]. simpl.
    assert (Hk : contains "/" ".keep" = false) by reflexivity.
    destruct (endswith d sep) eqn:He.
    + apply endswith_spec in He as [a ->]. intros E. rewrite <- E in Hk.
      rewrite <- append_assoc in Hk. unfold sep in Hk.
      rewrite (proj2 (contains_spec _ _)) in Hk; [done|]. by exists a, n.
    + intros E. rewrite <- E in Hk. unfold sep in Hk.
      rewrite (proj2 (contains_spec _ _)) in Hk; [done|]. by exists d, n.
Qed.

(** ** [dirname], [basename] and the components of a path *)

Lemma components_plain (b : string) : b ≠ "" → rfind "/"%char b = None → components b = [b].
Proof. intros Hb Hr. unfold components. rewrite split_no_sep by done. by rewrite filter_cons_True. Qed.

(** A path whose last component is not empty is its directory's components
    followed by its base name. *)
Lemma components_basename (p : string) :
  basename p ≠ "" →
  components p = components (dirname p) ++ [basename p] ∧ rfind "/"%char (basename p) = None.
Proof.
  unfold basename, dirname, last_sep_end. destruct (rfind "/"%char p) as [j|] eqn:E.
  - apply rfind_some in E as (a & b & -> & Ha & Hb).
    change (String.String "/"%char b) with ("/" +:+ b). rewrite append_assoc.
    replace (S j) with (String.length (a +:+ "/"))
      by (rewrite length_append; simpl; lia).
    rewrite sdrop_append, stake_append. intros Hne. split; [|done].
    rewrite <- append_assoc, components_app_sep, (components_plain b) by done.
    f_equal. destruct (_ && _); [rewrite components_rstrip|];
      by rewrite components_app_slash.
  - simpl. intros Hne. split; [|done]. by rewrite components_plain.
Qed.

Lemma components_dirname_slash (p : string) :
  basename p = "" → components (dirname p) = components p.
Proof.
  unfold basename, dirname. intros Hb.
  assert (Hp : stake (last_sep_end p) p = p).
  { pose proof (stake_sdrop (last_sep_end p) p) as H. by rewrite Hb, append_nil_r in H. }
  rewrite Hp. destruct (_ && _); [apply components_rstrip|done].
Qed.

Lemma rstrip_prefix (c : ascii) (s : string) : ∃ r, s = rstrip c s +:+ r.
Proof. destruct (rstrip_spec c s) as [k Hk]. eauto. Qed.

Lemma dirname_prefix (p : string) : ∃ r, p = dirname p +:+ r.
Proof.
  unfold dirname. destruct (_ && _).
  - destruct (rstrip_prefix "/"%char (stake (last_sep_end p) p)) as [r Hr].
    exists (r +:+ sdrop (last_sep_end p) p). rewrite append_assoc, <- Hr.
    by rewrite stake_sdrop.
  - exists (sdrop (last_sep_end p) p). by rewrite stake_sdrop.
Qed.

Lemma startswith_sep_prefix (x r : string) :
  x ≠ "" → startswith (x +:+ r) sep = startswith x sep.
Proof.
  destruct x as [|c x]; [done|]. intros _. rewrite append_cons.
  unfold startswith, sep. cbn [String.prefix].
  destruct (ascii_dec "/" c); [|done]. by destruct (x +:+ r), x.
Qed.

(** A non-empty directory part is absolute exactly when the path is. *)
Lemma dirname_startswith (p : string) :
  dirname p ≠ "" → startswith (dirname p) sep = startswith p sep.
Proof.
  intros Hd. destruct (dirname_prefix p) as [r Hr]. rewrite Hr at 2.
  by rewrite startswith_sep_prefix.
Qed.

Lemma dirname_empty (p : string) :
  dirname p = "" → rfind "/"%char p = None.
Proof.
  unfold dirname, last_sep_end. destruct (rfind "/"%char p) as [j|] eqn:E; [|done].
  apply rfind_some in E as (a & b & -> & Ha & Hb).
  change (String.String "/"%char b) with ("/" +:+ b). rewrite append_assoc.
  replace (S j) with (String.length (a +:+ "/")) by (rewrite length_append; simpl; lia).
  rewrite stake_append. destruct (negb _ && negb _) eqn:C.
  - intros Hr. apply andb_true_iff in C as [_ C]. apply negb_true_iff in C.
    destruct (rstrip_spec "/"%char (a +:+ "/")) as [k Hk]. rewrite Hr, append_nil_l in Hk.
    rewrite Hk, length_srepeat, eqb_refl in C. discriminate.
  - intros Hr. destruct a; [discriminate|]. rewrite append_cons in Hr. discriminate.
Qed.

Lemma rfind_none_not_abs (p : string) : rfind "/"%char p = None → startswith p sep = false.
Proof.
  destruct p as [|c p]; [done|]. cbn [rfind]. intros H.
  destruct (rfind _ p); [done|]. case_decide as Hc; [done|].
  unfold startswith, sep. cbn [String.prefix]. destruct (ascii_dec "/" c); [congruence|done].
Qed.

(** What [rstrip] leaves is empty or ends with another character. *)
Lemma rstrip_last (c : ascii) (s : string) :
  rstrip c s = "" ∨ ∃ x d, rstrip c s = x +:+ String.String d "" ∧ d ≠ c.
Proof.
  induction s as [|d s IH]; [by left|]. simpl.
  destruct (bool_decide (d = c)) eqn:Hd; destruct (String.eqb (rstrip c s) "") eqn:Hr;
    simpl; try by left.
  - right. destruct IH as [IH | (x & d' & Hx & Hne)]; [by apply eqb_true in IH; rewrite IH in Hr|].
    exists (String.String d x), d'. rewrite Hx. by rewrite append_cons.
  - right. apply eqb_true in Hr. rewrite Hr. exists "", d. split; [done|].
    intros ->. by rewrite bool_decide_eq_true_2 in Hd.
  - right. destruct IH as [IH | (x & d' & Hx & Hne)]; [by apply eqb_true in IH; rewrite IH in Hr|].
    exists (String.String d x), d'. rewrite Hx. by rewrite append_cons.
Qed.

Lemma basename_last (x : string) (d : ascii) : d ≠ "/"%char → basename (x +:+ String.String d "") ≠ "".
Proof.
  intros Hd. unfold basename, last_sep_end. rewrite rfind_app. simpl.
  rewrite decide_False by done.
  assert (Hlt : ∀ j, rfind "/"%char x = Some j → S j ≤ String.length x) by
    (intros j Hj; apply rfind_lt in Hj; lia).
  apply sdrop_length_nonempty. rewrite length_append. simpl.
  destruct (rfind "/"%char x) as [j|]; [specialize (Hlt j eq_refl)|]; lia.
Qed.

(** The directory part of a path is empty, only slashes, or has a base name. *)
Lemma dirname_shape (p : string) :
  dirname p = "" ∨ components (dirname p) = [] ∨ basename (dirname p) ≠ "".
Proof.
  unfold dirname at 1 2 3. destruct (negb _ && negb _) eqn:C.
  - right; right. apply andb_true_iff in C as [C1 C2]. apply negb_true_iff in C2.
    destruct (rstrip_last "/"%char (stake (last_sep_end p) p)) as [Hr | (x & d & -> & Hd)].
    + exfalso. destruct (rstrip_spec "/"%char (stake (last_sep_end p) p)) as [k Hk].
      rewrite Hr, append_nil_l in Hk. rewrite Hk, length_srepeat, eqb_refl in C2. discriminate.
    + by apply basename_last.
  - apply andb_false_iff in C as [C|C]; apply negb_false_iff, eqb_true in C.
    + by left.
    + right; left. rewrite C. apply components_srepeat.
Qed.

(** A path with a base name does not end with a separator. *)
Lemma basename_endswith_sep (p : string) : basename p ≠ "" → endswith p "/" = false.
Proof.
  intros Hb. destruct (endswith p "/") eqn:E; [|done]. exfalso. apply Hb.
  apply endswith_spec in E as [r ->]. unfold basename, last_sep_end. rewrite rfind_app.
  cbn [rfind]. rewrite decide_True by done. apply sdrop_ge. rewrite length_append. simpl. lia.
Qed.

Lemma components_nonempty (p : string) : basename p ≠ "" → components p ≠ [].
Proof. intros Hb. rewrite (proj1 (components_basename p Hb)). by intros [_ ?]%app_eq_nil. Qed.

(** [os.path.join(d, x)] for a name [x]: one more component, and absolute
    exactly when [d] is. *)
Lemma components_join1 (d x : string) :
  plain_name x → components (join d [x]) = components d ++ [x].
Proof.
  intros Hx. unfold join. simpl. rewrite components_join_step by (by apply plain_name_not_sep).
  destruct Hx as [Hne Hc]. rewrite (components_plain x); [done|done|]. by apply rfind_none.
Qed.

Lemma startswith_join1 (d x : string) :
  d ≠ "" → plain_name x → startswith (join d [x]) sep = startswith d sep.
Proof.
  intros Hd Hx. unfold join. simpl. unfold join_step.
  rewrite (plain_name_not_sep x Hx). destruct (String.eqb_spec d "") as [|_]; [done|].
  simpl. destruct (endswith d sep); by rewrite startswith_sep_prefix.
Qed.


(** A plain name neither starts nor ends with the separator, and the
    pieces of a relative path joined with ['/'] start with the first. *)
Lemma plain_name_not_endswith (x : string) : plain_name x → endswith x sep = false.
Proof.
  intros [_ Hc]. destruct (endswith x sep) eqn:E; [|done].
  apply endswith_spec in E as [r ->]. unfold sep in Hc.
  by rewrite (contains_append_r "/" r "/") in Hc.
Qed.

Lemma startswith_app_nonempty (r t : string) (c : ascii) :
  r ≠ "" → startswith (r +:+ t) (String.String c "") = startswith r (String.String c "").
Proof.
  destruct r as [|a r]; [done|]. intros _. rewrite append_cons. unfold startswith. cbn.
  destruct (ascii_dec c a); [|done]. by destruct (r +:+ t), r.
Qed.

Lemma join_with_head (r : string) (rs : list string) :
  ∃ t, join_with "/"%char (r :: rs) = r +:+ t.
Proof. destruct rs; [exists ""; by rewrite append_nil_r|by eexists]. Qed.

(** [posixpath.join(x, rel)] of a plain name and a relative path of plain
    names is the path with [x] in front. *)
Lemma join_join_with (x : string) (rel : list string) :
  plain_name x → Forall plain_name rel → rel ≠ [] →
  join x [join_with "/"%char rel] = join_with "/"%char (x :: rel).
Proof.
  intros Hx Hrel Hne. destruct rel as [|r rs]; [done|]. inversion Hrel as [|? ? Hr _]; subst.
  change (join_with "/"%char (x :: r :: rs)) with (x +:+ String.String "/"%char (join_with "/"%char (r :: rs))).
  destruct (join_with_head r rs) as [t ->]. unfold join. simpl. unfold join_step.
  unfold sep at 1. rewrite (startswith_app_nonempty r t) by apply Hr. fold sep.
  rewrite plain_name_not_sep by done.
  rewrite plain_name_not_endswith by done. destruct (String.eqb_spec x "") as [->|_]; [by destruct Hx|].
  simpl. unfold sep. by rewrite append_cons, append_nil_l.
Qed.

Lemma join_with_nonempty (r : string) (rs : list string) :
  plain_name r → join_with "/"%char (r :: rs) ≠ "".
Proof. intros [Hr _]. destruct (join_with_head r rs) as [t ->]. by destruct r. Qed.

(** Joining is injective in a relative last component. *)
Lemma join_step_inj (d a b : string) :
  startswith a sep = false → startswith b sep = false → join_step d a = join_step d b → a = b.
Proof.
  intros Ha Hb. unfold join_step. rewrite Ha, Hb.
  destruct (_ || _); [apply append_inv_l|]. intros E%append_inv_l. by apply append_inv_l in E.
Qed.

(** One joined piece that does not start with the separator keeps a
    non-empty path absolute or relative. *)
Lemma startswith_join_step (d b : string) :
  d ≠ "" → startswith b sep = false → startswith (join_step d b) sep = startswith d sep.
Proof.
  intros Hd Hb. unfold join_step. rewrite Hb. destruct (String.eqb_spec d "") as [|_]; [done|].
  simpl. destruct (endswith d sep); by rewrite startswith_sep_prefix.
Qed.

(** The directory part of a path walks a prefix of its components. *)
Lemma components_dirname_prefix (p : string) : components (dirname p) `prefix_of` components p.
Proof.
  destruct (String.eqb_spec (basename p) "") as [Hb|Hb].
  - by rewrite components_dirname_slash.
  - rewrite (proj1 (components_basename p Hb)). by exists [basename p].
Qed.

(** A base name is at most one component. *)
Lemma components_basename_sub (p : string) :
  components (basename p) = [] ∨ components (basename p) = [basename p] ∧ basename p ∈ components p.
Proof.
  destruct (String.eqb_spec (basename p) "") as [Hb|Hb]; [left; by rewrite Hb|right].
  destruct (components_basename p Hb) as [Hc Hr]. split; [by apply components_plain|].
  rewrite Hc. apply elem_of_app. right. by left.
Qed.

Lemma basename_not_sep (p : string) : startswith (basename p) sep = false.
Proof.
  destruct (String.eqb_spec (basename p) "") as [->|Hb]; [done|].
  apply rfind_none_not_abs, (components_basename p Hb).
Qed.

End PosixPath.
