(* ===== verification/FileSys.v ===== *)
(** * The file system and the [os], [os.path] and [shutil] calls

    The state of a run ([world]) is the file system, a finite map from
    absolute component paths to nodes (a file with its text, or a
    directory), the working directory, and the lines printed so far.  Path
    strings are resolved the way the kernel resolves them: empty components
    are skipped, every component but the last must name a directory ([ENOTDIR]
    or [ENOENT] otherwise), [.] and [..] are followed physically, and a
    trailing slash demands a directory.  Every operation runs in the monad of
    [Prelude] over this state, raising the Python exception the call raises.
    The invariant [wf_fs] says the map is a tree rooted at [[]] whose
    components are valid names; every operation preserves it.  On paths
    with no [.] or [..] component the effects are stated exactly:
    [os.makedirs] against the reference [mkdir_p] (the existing entries
    kept, each missing prefix made a directory), [os.mkdir], the text write
    and [shutil.copy] as single insertions; and [os.scandir] is shown to
    depend only on the tree around the listed directory ([agree_around]). *)

From S2P Require Import Prelude PyStr PosixPath.

Module FileSys.
Import PyStr PosixPath.

(** The [errno] of an [OSError]; Python raises it as the matching subclass
    ([FileNotFoundError] for [ENOENT], [FileExistsError] for [EEXIST],
    [NotADirectoryError], [IsADirectoryError]). *)
Inductive errno := ENOENT | EEXIST | ENOTDIR | EISDIR | EINVAL | ENOTEMPTY | EBUSY.

#[export] Instance errno_eq_dec : EqDecision errno.
Proof. solve_decision. Defined.

(** The exceptions a run of the script can end with.  [OutOfFuel] is not a
    Python exception: it marks a model run that exhausted its fuel. *)
Inductive exc :=
| OSError (e : errno) (filename : string)
| SameFileError (src dst : string)
| KeyError (key : string)
| TemplateNotFound (name : string)
| TemplateError (msg : string)
| YAMLError (msg : string)
| ConfigParserError (msg : string)
| Exception (msg : string)
| NotModelled (what : string)
| OutOfFuel.

Inductive node := File (data : string) | Dir.

#[export] Instance node_eq_dec : EqDecision node.
Proof. solve_decision. Defined.

Record world := mkWorld {
  fs : gmap (list string) node;
  cwd : list string;
  stdout : list string
}.

Definition set_fs (w : world) (m : gmap (list string) node) : world :=
  mkWorld m (cwd w) (stdout w).

Abbreviation PyM := (StExc.M world exc).

Definition raise_os {A} (e : errno) (p : string) : PyM A := StExc.raise (OSError e p).

Lemma preserves_raise_os {A} (P : world → Prop) (e : errno) (p : string) :
  StExc.preserves P (raise_os (A := A) e p).
Proof. by intros w. Qed.

#[export] Hint Resolve preserves_raise_os : pystr.

(** [print(line)] *)
Definition print (line : string) : PyM unit :=
  StExc.modify (λ w, mkWorld (fs w) (cwd w) (stdout w ++ [line])).

(** ** Path resolution *)

(** Following one component from the directory [cur]. *)
Definition step_comp (cur : list string) (c : string) : list string :=
  if String.eqb c "." then cur
  else if String.eqb c ".." then removelast cur
  else cur ++ [c].

(** Walking the components [cs] from [cur]: before each component, the path
    reached must be a directory. *)
Fixpoint walk (m : gmap (list string) node) (cur : list string)
    (cs : list string) : errno + list string :=
  match cs with
  | [] => inr cur
  | c :: cs' =>
      match m !! cur with
      | Some Dir => walk m (step_comp cur c) cs'
      | Some (File _) => inl ENOTDIR
      | None => inl ENOENT
      end
  end.

(** The directory a path string starts from. *)
Definition start (w : world) (p : string) : list string :=
  if startswith p "/" then [] else cwd w.

Definition resolve (w : world) (p : string) : errno + list string :=
  if String.eqb p "" then inl ENOENT
  else walk (fs w) (start w p) (components p).

(** [os.stat(p)]: the node a path names. *)
Definition stat (w : world) (p : string) : errno + node :=
  match resolve w p with
  | inl e => inl e
  | inr q =>
      match fs w !! q with
      | None => inl ENOENT
      | Some (File d) => if endswith p "/" then inl ENOTDIR else inr (File d)
      | Some Dir => inr Dir
      end
  end.

(** [os.path.exists], [os.path.isdir], [os.path.isfile]: [stat] succeeds
    (with the right kind of node); errors read as [False]. *)
Definition path_exists (w : world) (p : string) : bool :=
  match stat w p with inr _ => true | inl _ => false end.

Definition isdir (w : world) (p : string) : bool :=
  match stat w p with inr Dir => true | _ => false end.

Definition isfile (w : world) (p : string) : bool :=
  match stat w p with inr (File _) => true | _ => false end.

(** [os.path.samefile(a, b)], errors read as [False] as in [shutil._samefile]:
    with no links, the same inode is the same resolved path. *)
Definition samefile (w : world) (a b : string) : bool :=
  match stat w a, stat w b, resolve w a, resolve w b with
  | inr _, inr _, inr qa, inr qb => bool_decide (qa = qb)
  | _, _, _, _ => false
  end.

(** The directory in which a new entry is created, and its name: the
    parent must resolve to an existing directory.  Used by [os.mkdir] and by
    [open(p, 'w')]. *)
Definition resolve_parent (w : world) (p : string)
    : errno + (list string * string) :=
  if String.eqb p "" then inl ENOENT else
  match last (components p) with
  | None => inl EEXIST
  | Some name =>
      match walk (fs w) (start w p) (removelast (components p)) with
      | inl e => inl e
      | inr par =>
          match fs w !! par with
          | Some Dir => inr (par, name)
          | Some (File _) => inl ENOTDIR
          | None => inl ENOENT
          end
      end
  end.

(** ** Operations that change the file system *)

Definition curdir_or_pardir (name : string) : bool :=
  String.eqb name "." || String.eqb name "..".

(** [os.mkdir(p)] *)
Definition mkdir (p : string) : PyM unit :=
  w ← StExc.get;
  match resolve_parent w p with
  | inl e => raise_os e p
  | inr (par, name) =>
      if curdir_or_pardir name then raise_os EEXIST p
      else match fs w !! (par ++ [name]) with
           | Some _ => raise_os EEXIST p
           | None => StExc.put (set_fs w (<[par ++ [name] := Dir]> (fs w)))
           end
  end.

(** [except FileExistsError: pass] *)
Definition pass_file_exists (e : exc) : PyM unit :=
  match e with
  | OSError EEXIST _ => mret tt
  | e => StExc.raise e
  end.

(** [os.makedirs(name)] with [exist_ok=False], one call per unit of fuel:
<<
    head, tail = path.split(name)
    if not tail:
        head, tail = path.split(head)
    if head and tail and not path.exists(head):
        try:
            makedirs(head, exist_ok=exist_ok)
        except FileExistsError:
            pass
        if tail == curdir:
            return
    try:
        mkdir(name, mode)
    except OSError:
        if not exist_ok or not path.isdir(name):
            raise
>> *)
Definition makedirs_split (name : string) : string * string :=
  let '(h, t) := PosixPath.split name in
  if String.eqb t "" then PosixPath.split h else (h, t).

Fixpoint makedirs_go (fuel : nat) (name : string) : PyM unit :=
  match fuel with
  | 0 => StExc.raise OutOfFuel
  | S n =>
      let '(head, tail) := makedirs_split name in
      w ← StExc.get;
      StExc.bind (λ stop : bool, if stop then mret tt else mkdir name)
        (if negb (String.eqb head "") && negb (String.eqb tail "")
            && negb (path_exists w head)
         then StExc.catch (makedirs_go n head) pass_file_exists;;
              mret (String.eqb tail ".")
         else mret false)
  end.

Definition makedirs (name : string) : PyM unit :=
  makedirs_go (S (String.length name)) name.

(** The reference behaviour of [os.makedirs] on a path with no [.] or [..]
    component: the entries already present are kept, and each missing path
    [cur ++ take j cs] ([0 < j]) becomes a directory. *)
Fixpoint dir_prefixes (cur cs : list string) : list (list string) :=
  match cs with
  | [] => []
  | c :: cs' => (cur ++ [c]) :: dir_prefixes (cur ++ [c]) cs'
  end.

Definition mkdir_p (m : gmap (list string) node) (cur cs : list string)
    : gmap (list string) node :=
  m ∪ list_to_map ((λ k, (k, Dir)) <$> dir_prefixes cur cs).

(** No file at any of the paths [ks], decided. *)
Definition no_file_on (m : gmap (list string) node) (ks : list (list string)) : bool :=
  forallb (λ k, match m !! k with Some (File _) => false | _ => true end) ks.

(** Removing a directory's contents, the directory itself kept. *)
Definition remove_below (q : list string) (m : gmap (list string) node)
    : gmap (list string) node :=
  filter (λ kv, ¬ q `prefix_of` kv.1 ∨ kv.1 = q) m.

(** Why [os.rmdir(p)] fails on the directory [q] that [p] names: [EINVAL]
    for a path ending in [.], [ENOTEMPTY] for [..], [EBUSY] for the root. *)
Definition rmdir_errno (p : string) (q : list string) : option errno :=
  match last (components p) with
  | Some x =>
      if String.eqb x "." then Some EINVAL
      else if String.eqb x ".." then Some ENOTEMPTY
      else if bool_decide (q = []) then Some EBUSY else None
  | None => if bool_decide (q = []) then Some EBUSY else None
  end.

(** [shutil.rmtree(p)]: the contents go first, then [os.rmdir(p)]. *)
Definition rmtree (p : string) : PyM unit :=
  w ← StExc.get;
  match resolve w p with
  | inl e => raise_os e p
  | inr q =>
      match fs w !! q with
      | None => raise_os ENOENT p
      | Some (File _) => raise_os ENOTDIR p
      | Some Dir =>
          let m := remove_below q (fs w) in
          StExc.put (set_fs w m);;
          match rmdir_errno p q with
          | Some e => raise_os e p
          | None => StExc.put (set_fs w (delete q m))
          end
      end
  end.

(** [open(p, 'w').write(data)]: creates or truncates the file. *)
Definition write_text (p data : string) : PyM unit :=
  w ← StExc.get;
  if bool_decide (components p = []) && negb (String.eqb p "") then raise_os EISDIR p
  else match resolve_parent w p with
  | inl e => raise_os e p
  | inr (par, name) =>
      let q := step_comp par name in
      match fs w !! q with
      | Some Dir => raise_os EISDIR p
      | Some (File _) =>
          if endswith p "/" then raise_os ENOTDIR p
          else StExc.put (set_fs w (<[q := File data]> (fs w)))
      | None =>
          if endswith p "/" then raise_os EISDIR p
          else StExc.put (set_fs w (<[q := File data]> (fs w)))
      end
  end.

(** [open(p).read()] *)
Definition read_text (p : string) : PyM string :=
  w ← StExc.get;
  match stat w p with
  | inl e => raise_os e p
  | inr Dir => raise_os EISDIR p
  | inr (File d) => mret d
  end.

(** [shutil.copyfile]'s handler: [open(dst, 'wb')] failing with
    [IsADirectoryError] on a path that does not exist is re-raised as
    [FileNotFoundError]. *)
Definition copyfile_open_error (dst : string) (e : exc) : PyM unit :=
  match e with
  | OSError EISDIR _ =>
      w ← StExc.get;
      if path_exists w dst then StExc.raise e else raise_os ENOENT dst
  | e => StExc.raise e
  end.

(** [shutil.copy(src, dst)] (the permission bits of [copymode] are not
    modelled): a directory destination receives [basename(src)]; then
    [copyfile] refuses the same file, reads [src] and writes [dst]. *)
Definition copy (src dst : string) : PyM string :=
  w ← StExc.get;
  let dst := if isdir w dst then PosixPath.join dst [basename src] else dst in
  if samefile w src dst then StExc.raise (SameFileError src dst)
  else
    data ← read_text src;
    StExc.catch (write_text dst data) (copyfile_open_error dst);;
    mret dst.

(** The names of the entries of the directory [q]. *)
Definition child_of (q k : list string) : option string :=
  if bool_decide (length k = S (length q) ∧ q `prefix_of` k) then last k else None.

(** The entries directly below [q], and their names. *)
Definition children (m : gmap (list string) node) (q : list string) : gmap (list string) node :=
  filter (λ kv, is_Some (child_of q kv.1)) m.

Definition child_names (m : gmap (list string) node) (q : list string) : list string :=
  omap (λ kv, child_of q kv.1) (map_to_list (children m q)).

(** The order in which [os.scandir] returns the entries of a directory is
    the file system's: a function of the directory and of its entries. *)
Class ScandirOrder := scandir_order : list string → list string → list string.

(** Any such order is a permutation of the entries. *)
Class ScandirOrderOk `{ScandirOrder} :=
  scandir_order_perm : ∀ q names, scandir_order q names ≡ₚ names.

(** [os.scandir(p)] listed: the names of the entries, or the error. *)
Definition scandir `{ScandirOrder} (w : world) (p : string) : errno + list string :=
  match resolve w p with
  | inl e => inl e
  | inr q =>
      match fs w !! q with
      | Some Dir => inr (scandir_order q (child_names (fs w) q))
      | Some (File _) => inl ENOTDIR
      | None => inl ENOENT
      end
  end.

(** ** The tree invariant *)

(** A name stored in the file system. *)
Definition valid_name (x : string) : Prop :=
  x ≠ "" ∧ x ≠ "." ∧ x ≠ ".." ∧ contains "/" x = false.

Record wf_fs (m : gmap (list string) node) : Prop := {
  wf_root : m !! [] = Some Dir;
  wf_names : ∀ p n, m !! p = Some n → Forall valid_name p;
  wf_parent : ∀ p x n, m !! (p ++ [x]) = Some n → m !! p = Some Dir
}.

Definition wf_world (w : world) : Prop := wf_fs (fs w).

(** The invariant, decided. *)
Definition valid_nameb (x : string) : bool :=
  negb (String.eqb x "") && negb (String.eqb x ".") && negb (String.eqb x "..") &&
  negb (contains "/" x).

Definition wf_check (m : gmap (list string) node) : bool :=
  bool_decide (m !! [] = Some Dir) &&
  forallb (λ kv, forallb valid_nameb kv.1 &&
                 match kv.1 with
                 | [] => true
                 | _ => bool_decide (m !! removelast kv.1 = Some Dir)
                 end) (map_to_list m).

Lemma valid_nameb_sound (x : string) : valid_nameb x = true → valid_name x.
Proof.
  unfold valid_nameb. rewrite !andb_true_iff, !negb_true_iff.
  intros [[[H1 H2] H3] H4]. repeat split; try done; intros ->; by rewrite eqb_refl in *.
Qed.

Lemma wf_check_sound (m : gmap (list string) node) : wf_check m = true → wf_fs m.
Proof.
  unfold wf_check. rewrite andb_true_iff, forallb_forall. intros [Hr Hall].
  assert (Hkv : ∀ p n, m !! p = Some n →
            forallb valid_nameb p = true ∧
            match p with [] => true | _ => bool_decide (m !! removelast p = Some Dir) end = true).
  { intros p n Hp. apply andb_true_iff, (Hall (p, n)), list_elem_of_In.
    by apply elem_of_map_to_list. }
  split.
  - by apply bool_decide_eq_true in Hr.
  - intros p n Hp. destruct (Hkv p n Hp) as [Hv _]. apply Forall_forall.
    intros x Hx. apply valid_nameb_sound. rewrite forallb_forall in Hv.
    apply Hv. by apply list_elem_of_In.
  - intros p x n Hp. destruct (Hkv _ _ Hp) as [_ Hd].
    destruct (p ++ [x]) eqn:E; [by destruct p|].
    rewrite <- E, removelast_last in Hd. by apply bool_decide_eq_true in Hd.
Qed.

Lemma wf_removelast (m : gmap (list string) node) (p : list string) :
  wf_fs m → m !! p = Some Dir → m !! removelast p = Some Dir.
Proof.
  intros Hwf Hp. destruct p as [|x p _] using rev_ind; [done|].
  rewrite removelast_last. by eapply wf_parent.
Qed.

(** Adding an entry under an existing directory, where no directory is. *)
Lemma wf_insert_child (m : gmap (list string) node) (par : list string) (name : string) (n : node) :
  wf_fs m → m !! par = Some Dir → valid_name name →
  m !! (par ++ [name]) ≠ Some Dir →
  wf_fs (<[par ++ [name] := n]> m).
Proof.
  intros Hwf Hpar Hname Hnd. split.
  - rewrite lookup_insert_ne; [apply Hwf|]. by destruct par.
  - intros p n'. rewrite lookup_insert. case_decide as E.
    + intros _. subst p. apply Forall_app. split; [by eapply wf_names|by constructor].
    + by apply wf_names.
  - intros p x n'. rewrite lookup_insert. case_decide as E.
    + intros _. apply app_inj_tail in E as [-> ->].
      rewrite lookup_insert_ne; [done|]. intros E.
      apply (f_equal length) in E. rewrite length_app in E. simpl in E. lia.
    + intros Hp. pose proof (wf_parent _ Hwf _ _ _ Hp) as Hd.
      rewrite lookup_insert_ne; [done|]. intros <-. by apply Hnd.
Qed.

Lemma remove_below_lookup (q k : list string) (m : gmap (list string) node) :
  remove_below q m !! k = if decide (¬ q `prefix_of` k ∨ k = q) then m !! k else None.
Proof.
  unfold remove_below. rewrite map_lookup_filter.
  destruct (m !! k); simpl; [|by case_decide].
  case_decide; simpl; [by rewrite option_guard_True | by rewrite option_guard_False].
Qed.

Lemma wf_remove_below (q : list string) (m : gmap (list string) node) :
  wf_fs m → wf_fs (remove_below q m).
Proof.
  intros Hwf. split.
  - rewrite remove_below_lookup. case_decide as H; [apply Hwf|].
    exfalso. apply H. destruct q; [by right|left].
    intros [k Hk]. discriminate.
  - intros p n. rewrite remove_below_lookup. case_decide; [|done]. apply Hwf.
  - intros p x n. rewrite !remove_below_lookup.
    case_decide as H1; [|done]. intros Hp. apply (wf_parent _ Hwf) in Hp.
    case_decide as H2; [done|]. exfalso. apply H2. left. intros Hpre.
    destruct H1 as [H1 | H1].
    + apply H1. by apply prefix_app_r.
    + subst q. apply prefix_length in Hpre. rewrite length_app in Hpre. simpl in Hpre. lia.
Qed.

Lemma wf_delete_removed (q : list string) (m : gmap (list string) node) :
  wf_fs m → q ≠ [] → wf_fs (delete q (remove_below q m)).
Proof.
  intros Hwf Hq. pose proof (wf_remove_below q m Hwf) as Hwf'. split.
  - rewrite lookup_delete_ne; [apply Hwf'|]. done.
  - intros p n. rewrite lookup_delete. case_decide; [done|]. apply Hwf'.
  - intros p x n. rewrite lookup_delete. case_decide as E; [done|].
    intros Hp. pose proof (wf_parent _ Hwf' _ _ _ Hp) as Hd.
    rewrite lookup_delete_ne; [done|]. intros <-.
    rewrite remove_below_lookup in Hp. case_decide as H; [|done].
    destruct H as [H|H]; [apply H; by apply prefix_app_r|].
    apply (f_equal length) in H. rewrite length_app in H. simpl in H. lia.
Qed.

(** Symbolic execution of the monad's primitives. *)
Ltac run_simpl :=
  unfold mbind, mret, StExc_bind, StExc_ret, StExc.bind, StExc.ret, StExc.get,
    StExc.put, StExc.raise, StExc.modify, StExc.catch, raise_os in *; simpl in *.

Lemma components_name (p x : string) :
  x ∈ components p → x ≠ "" ∧ contains "/" x = false.
Proof.
  unfold components. rewrite list_elem_of_filter. intros [Hne Hx].
  split; [done|]. by apply (split_pieces "/"%char p).
Qed.

Lemma valid_name_of (p x : string) :
  x ∈ components p → curdir_or_pardir x = false → valid_name x.
Proof.
  intros Hx Hc. apply components_name in Hx as [Hne Hs].
  unfold curdir_or_pardir in Hc. apply orb_false_iff in Hc as [H1 H2].
  repeat split; try done; intros ->; by rewrite eqb_refl in *.
Qed.

Lemma resolve_parent_spec (w : world) (p : string) (par : list string) (name : string) :
  resolve_parent w p = inr (par, name) →
  fs w !! par = Some Dir ∧ name ∈ components p.
Proof.
  unfold resolve_parent. destruct (String.eqb p ""); [done|].
  destruct (last (components p)) as [x|] eqn:Hl; [|done].
  destruct (walk _ _ _) as [e|par']; [done|].
  destruct (fs w !! par') as [[d|]|] eqn:Hd; try done.
  intros [= <- <-]. split; [done|]. by apply last_Some_elem_of.
Qed.

Lemma step_comp_cases (par : list string) (name : string) :
  (curdir_or_pardir name = true ∧
     (step_comp par name = par ∨ step_comp par name = removelast par)) ∨
  (curdir_or_pardir name = false ∧ step_comp par name = par ++ [name]).
Proof.
  unfold step_comp, curdir_or_pardir.
  destruct (String.eqb name "."), (String.eqb name ".."); simpl; auto.
Qed.

(** The recursive call of [makedirs] is on a shorter path. *)
Lemma makedirs_split_shorter (name head tail : string) :
  makedirs_split name = (head, tail) → tail ≠ "" →
  String.length head < String.length name.
Proof.
  unfold makedirs_split, PosixPath.split.
  destruct (String.eqb_spec (basename name) "") as [Hb|Hb]; intros [= <- <-] Ht.
  - pose proof (length_dirname_lt (dirname name) Ht).
    pose proof (length_dirname_le name). lia.
  - by apply length_dirname_lt.
Qed.

(** Fuel: any amount above the length of the path gives the same run, so
    [makedirs] (which gives [S (length name)]) never runs out. *)
Lemma makedirs_go_fuel (n1 n2 : nat) (name : string) (w : world) :
  String.length name < n1 → String.length name < n2 →
  makedirs_go n1 name w = makedirs_go n2 name w.
Proof.
  revert n2 name w. induction n1 as [|n1 IH]; intros [|n2] name w H1 H2; try lia.
  cbn [makedirs_go]. destruct (makedirs_split name) as [head tail] eqn:Hs.
  unfold mbind, StExc_bind. apply StExc.bind_ext; [done|]. intros w' s.
  apply StExc.bind_ext; [|done]. intros s'.
  destruct (String.eqb_spec tail "") as [Ht|Ht]; [by rewrite andb_false_r|].
  pose proof (makedirs_split_shorter _ _ _ Hs Ht).
  destruct (_ && _); [|done].
  apply StExc.bind_ext; [|done]. intros s''. apply StExc.catch_ext.
  intros s3. apply IH; lia.
Qed.

(** ** Running out of fuel: only the model's recursions can, never an
    operation on one path *)

(** An exception of the program, as opposed to the model running out of fuel. *)
Definition no_fuel (e : exc) : Prop := e ≠ OutOfFuel.

Lemma raises_only_raise_os {A} (e : errno) (p : string) :
  StExc.raises_only no_fuel (raise_os (A := A) e p).
Proof. by apply StExc.raises_only_raise. Qed.

#[export] Hint Resolve raises_only_raise_os : raises.

Lemma mkdir_no_fuel (p : string) : StExc.raises_only no_fuel (mkdir p).
Proof.
  apply raises_only_mbind; [auto with raises|intros w].
  destruct (resolve_parent w p) as [e|[par name]]; [auto with raises|].
  destruct (curdir_or_pardir name); [auto with raises|].
  destruct (fs w !! (par ++ [name])); auto with raises.
Qed.

Lemma pass_file_exists_no_fuel (e : exc) : no_fuel e → StExc.raises_only no_fuel (pass_file_exists e).
Proof.
  intros He. unfold pass_file_exists.
  destruct e as [[] f| | | | | | | | |];
    first [apply raises_only_mret | by apply StExc.raises_only_raise].
Qed.

(** [os.makedirs] with the fuel it is given never runs out of it. *)
Lemma makedirs_go_no_fuel (n : nat) (name : string) :
  String.length name < n → StExc.raises_only no_fuel (makedirs_go n name).
Proof.
  revert name. induction n as [|n IH]; intros name Hn; [lia|]. cbn [makedirs_go].
  destruct (makedirs_split name) as [head tail] eqn:Hs.
  apply raises_only_mbind; [auto with raises|intros w]. apply StExc.raises_only_bind.
  - destruct (String.eqb tail "") eqn:Ht; [rewrite andb_false_r; apply raises_only_mret|].
    destruct (_ && _); [|auto with raises]. apply raises_only_mbind; [|auto with raises].
    apply StExc.raises_only_catch; [|apply pass_file_exists_no_fuel].
    apply IH. pose proof (makedirs_split_shorter _ _ _ Hs (proj1 (String.eqb_neq _ _) Ht)). lia.
  - intros []; [auto with raises|apply mkdir_no_fuel].
Qed.

Lemma makedirs_no_fuel (name : string) : StExc.raises_only no_fuel (makedirs name).
Proof. apply makedirs_go_no_fuel. lia. Qed.

#[export] Hint Resolve mkdir_no_fuel makedirs_no_fuel : raises.

Lemma read_text_no_fuel (p : string) : StExc.raises_only no_fuel (read_text p).
Proof.
  apply raises_only_mbind; [auto with raises|intros w].
  destruct (stat w p) as [e|[d|]]; auto with raises.
Qed.

Lemma write_text_no_fuel (p data : string) : StExc.raises_only no_fuel (write_text p data).
Proof.
  apply raises_only_mbind; [auto with raises|intros w].
  destruct (_ && _); [auto with raises|].
  destruct (resolve_parent w p) as [e|[par name]]; [auto with raises|].
  cbv zeta. destruct (fs w !! step_comp par name) as [[d|]|]; try destruct (endswith p "/"); auto with raises.
Qed.

Lemma copy_no_fuel (src dst : string) : StExc.raises_only no_fuel (copy src dst).
Proof.
  apply raises_only_mbind; [auto with raises|intros w]. cbv zeta.
  destruct (samefile _ _ _); [by apply StExc.raises_only_raise|].
  apply raises_only_mbind; [apply read_text_no_fuel|intros data].
  apply raises_only_mbind; [|auto with raises].
  apply StExc.raises_only_catch; [apply write_text_no_fuel|]. intros e He.
  destruct e as [[] f| | | | | | | | |]; simpl; try by apply StExc.raises_only_raise.
  apply raises_only_mbind; [auto with raises|intros w'].
  destruct (path_exists _ _); [by apply StExc.raises_only_raise|auto with raises].
Qed.

#[export] Hint Resolve read_text_no_fuel write_text_no_fuel copy_no_fuel : raises.

Lemma mkdir_wf (p : string) : StExc.preserves wf_world (mkdir p).
Proof.
  apply StExc.preserves_get_bind. intros w Hw. run_simpl.
  destruct (resolve_parent w p) as [e|[par name]] eqn:E; simpl; [done|].
  destruct (curdir_or_pardir name) eqn:C; simpl; [done|].
  destruct (fs w !! (par ++ [name])) eqn:L; simpl; [done|].
  apply resolve_parent_spec in E as [Hpar Hname].
  apply wf_insert_child; [done|done|by eapply valid_name_of|by rewrite L].
Qed.

Lemma write_text_wf (p data : string) : StExc.preserves wf_world (write_text p data).
Proof.
  apply StExc.preserves_get_bind. intros w Hw. run_simpl.
  destruct (_ && _); simpl; [done|].
  destruct (resolve_parent w p) as [e|[par name]] eqn:E; simpl; [done|].
  apply resolve_parent_spec in E as [Hpar Hname].
  destruct (step_comp_cases par name) as [[C [-> | ->]] | [C ->]].
  - by rewrite Hpar.
  - by rewrite (wf_removelast _ _ Hw Hpar).
  - assert (valid_name name) by (by eapply valid_name_of).
    destruct (fs w !! (par ++ [name])) as [[d|]|] eqn:L; simpl; try done;
      destruct (endswith p "/"); simpl; try done;
      apply wf_insert_child; by rewrite ?L.
Qed.

Lemma rmtree_wf (p : string) : StExc.preserves wf_world (rmtree p).
Proof.
  apply StExc.preserves_get_bind. intros w Hw. run_simpl.
  destruct (resolve w p) as [e|q]; simpl; [done|].
  destruct (fs w !! q) as [[d|]|]; simpl; try done.
  pose proof (wf_remove_below q _ Hw) as Hr.
  destruct (rmdir_errno p q) eqn:Er; simpl; [done|].
  apply wf_delete_removed; [done|]. intros ->. unfold rmdir_errno in Er.
  destruct (last (components p)) as [x|];
    [destruct (String.eqb x "."), (String.eqb x "..")|]; done.
Qed.

Lemma read_text_preserves (P : world → Prop) (p : string) : StExc.preserves P (read_text p).
Proof.
  apply StExc.preserves_get_bind_any. intros w.
  destruct (stat w p) as [e|[d|]]; auto with pystr.
Qed.

Lemma makedirs_go_wf (n : nat) (name : string) :
  StExc.preserves wf_world (makedirs_go n name).
Proof.
  revert name. induction n as [|n IH]; intros name; cbn [makedirs_go]; [auto with pystr|].
  destruct (makedirs_split name) as [head tail].
  apply preserves_mbind; [auto with pystr|]. intros w. apply StExc.preserves_bind.
  - destruct (_ && _ && _); unfold mbind, mret, StExc_bind, StExc_ret;
      [|auto with pystr].
    apply StExc.preserves_bind; [|auto with pystr].
    apply StExc.preserves_catch; [done|]. intros [[] ?| | | | | | | | |]; simpl; auto with pystr.
  - intros []; [auto with pystr|apply mkdir_wf].
Qed.

Lemma makedirs_wf (name : string) : StExc.preserves wf_world (makedirs name).
Proof. apply makedirs_go_wf. Qed.

Lemma copy_wf (src dst : string) : StExc.preserves wf_world (copy src dst).
Proof.
  apply preserves_mbind; [auto with pystr|]. intros w. cbv zeta.
  destruct (samefile w src _); [auto with pystr|].
  apply preserves_mbind; [apply read_text_preserves|]. intros data.
  apply preserves_mbind; [|auto with pystr].
  apply StExc.preserves_catch; [apply write_text_wf|].
  intros [[] ?| | | | | | | | |]; simpl; auto with pystr.
  apply preserves_mbind; [auto with pystr|]. intros w'.
  destruct (path_exists w' _); auto with pystr.
Qed.

Lemma print_wf (line : string) : StExc.preserves wf_world (print line).
Proof. by apply StExc.preserves_modify. Qed.

(** [shutil.rmtree] on a directory that [os.rmdir] can remove: the run
    succeeds, nothing at or below the directory remains, and every other
    entry is untouched. *)
Theorem rmtree_clears_subtree (p : string) (w : world) (q : list string) :
  resolve w p = inr q → fs w !! q = Some Dir → rmdir_errno p q = None →
  (rmtree p w).1 = inr tt ∧
  ∀ k, fs (rmtree p w).2 !! k = if decide (q `prefix_of` k) then None else fs w !! k.
Proof.
  intros Hr Hq He. unfold rmtree. run_simpl. rewrite Hr, Hq, He. simpl.
  split; [done|]. intros k. rewrite lookup_delete, remove_below_lookup.
  destruct (decide (q = k)) as [<-|Hne].
  - by rewrite decide_True.
  - destruct (decide (q `prefix_of` k)) as [Hp|Hp].
    + rewrite decide_False; [done|]. intros [H1|H1]; [done|by subst].
    + by rewrite decide_True by (by left).
Qed.

(** ** [os.makedirs], functionally *)

(** No component is [.] or [..]. *)
Definition plain (cs : list string) : Prop := Forall (λ c, curdir_or_pardir c = false) cs.

Lemma elem_of_dir_prefixes (cur cs k : list string) :
  k ∈ dir_prefixes cur cs ↔ ∃ j, 0 < j ≤ length cs ∧ k = cur ++ take j cs.
Proof.
  revert cur. induction cs as [|c cs IH]; intros cur; simpl.
  - split; [by intros ?%elem_of_nil|]. intros (j & ? & _). lia.
  - rewrite elem_of_cons, IH. split.
    + intros [-> | (j & Hj & ->)]; [exists 1; by split; [lia|]|].
      exists (S j). split; [lia|]. by rewrite <- app_assoc.
    + intros ([|[|j]] & Hj & ->); [lia|by left|]. right. exists (S j).
      split; [lia|]. by rewrite <- app_assoc.
Qed.

Lemma dir_prefixes_snoc (cur cs : list string) (c : string) :
  dir_prefixes cur (cs ++ [c]) = dir_prefixes cur cs ++ [cur ++ cs ++ [c]].
Proof.
  revert cur. induction cs as [|c' cs IH]; intros cur; [done|]. simpl.
  by rewrite IH, <- app_assoc.
Qed.

Lemma mkdir_p_lookup (m : gmap (list string) node) (cur cs k : list string) :
  mkdir_p m cur cs !! k =
  match m !! k with
  | Some n => Some n
  | None => if decide (k ∈ dir_prefixes cur cs) then Some Dir else None
  end.
Proof.
  unfold mkdir_p. rewrite lookup_union.
  destruct (decide (k ∈ dir_prefixes cur cs)) as [Hk|Hk].
  - rewrite (elem_of_list_to_map_1' _ k Dir); [by destruct (m !! k)| |].
    + by intros y (? & [= -> ->] & _)%list_elem_of_fmap.
    + apply list_elem_of_fmap. by exists k.
  - rewrite not_elem_of_list_to_map_1; [by destruct (m !! k)|].
    rewrite <- list_fmap_compose. by rewrite list_fmap_id.
Qed.

(** The paths [mkdir_p] adds lie strictly below [cur], at most [cs] deep. *)
Lemma dir_prefixes_length (cur cs k : list string) :
  k ∈ dir_prefixes cur cs → length cur < length k ≤ length cur + length cs.
Proof.
  intros (j & Hj & ->)%elem_of_dir_prefixes. rewrite length_app, length_take. lia.
Qed.

Lemma mkdir_p_id (m : gmap (list string) node) (cur cs : list string) :
  (∀ k, k ∈ dir_prefixes cur cs → is_Some (m !! k)) → mkdir_p m cur cs = m.
Proof.
  intros Hk. apply map_eq. intros k. rewrite mkdir_p_lookup.
  destruct (m !! k) eqn:E; [done|]. case_decide as H; [|done].
  apply Hk in H. rewrite E in H. by destruct H.
Qed.

Lemma mkdir_p_snoc (m : gmap (list string) node) (cur cs : list string) (c : string) :
  mkdir_p m cur cs !! (cur ++ cs ++ [c]) = None →
  mkdir_p m cur (cs ++ [c]) = <[cur ++ cs ++ [c] := Dir]> (mkdir_p m cur cs).
Proof.
  intros Hn. apply map_eq. intros k. rewrite mkdir_p_lookup in Hn.
  destruct (decide (k = cur ++ cs ++ [c])) as [->|E].
  - rewrite lookup_insert_eq, mkdir_p_lookup. destruct (m !! _); [done|].
    rewrite decide_True; [done|]. rewrite dir_prefixes_snoc. apply elem_of_app. right. by left.
  - rewrite lookup_insert_ne by done. rewrite !mkdir_p_lookup, dir_prefixes_snoc.
    destruct (m !! k); [done|]. apply decide_ext. rewrite elem_of_app, list_elem_of_singleton.
    naive_solver.
Qed.

Lemma step_comp_plain (cur : list string) (c : string) :
  curdir_or_pardir c = false → step_comp cur c = cur ++ [c].
Proof. unfold curdir_or_pardir, step_comp. intros [-> ->]%orb_false_iff. done. Qed.

(** Walking plain components through directories. *)
Lemma walk_plain_ok (m : gmap (list string) node) (cur cs : list string) :
  plain cs → (∀ j, j < length cs → m !! (cur ++ take j cs) = Some Dir) →
  walk m cur cs = inr (cur ++ cs).
Proof.
  revert cur. induction cs as [|c cs IH]; intros cur Hp Hd; simpl; [by rewrite app_nil_r|].
  inversion Hp as [|? ? Hc Hp']; subst.
  pose proof (Hd 0 ltac:(simpl; lia)) as H0. rewrite app_nil_r in H0. rewrite H0.
  rewrite step_comp_plain by done. rewrite IH; [by rewrite <- app_assoc|done|].
  intros j Hj. rewrite <- app_assoc. apply (Hd (S j)). simpl. lia.
Qed.

Lemma walk_plain_inr (m : gmap (list string) node) (cur cs q : list string) :
  plain cs → walk m cur cs = inr q → q = cur ++ cs.
Proof.
  revert cur. induction cs as [|c cs IH]; intros cur Hp; simpl; [intros [= ->]; by rewrite app_nil_r|].
  inversion Hp as [|? ? Hc Hp']; subst.
  destruct (m !! cur) as [[d|]|]; [done| |done].
  rewrite step_comp_plain by done. intros ->%IH; [by rewrite <- app_assoc|done].
Qed.

(** In a tree, every proper prefix of an entry is a directory. *)
Lemma wf_prefix_dir (m : gmap (list string) node) (p q : list string) (n : node) :
  wf_fs m → m !! (p ++ q) = Some n → ∀ j, j < length q → m !! (p ++ take j q) = Some Dir.
Proof.
  intros Hwf. revert n. induction q as [|x q IH] using rev_ind; intros n Hq j Hj; [simpl in Hj; lia|].
  rewrite app_assoc in Hq. apply (wf_parent _ Hwf) in Hq.
  rewrite length_app in Hj. simpl in Hj.
  destruct (decide (j < length q)).
  - rewrite take_app_le by lia. by apply (IH Dir).
  - replace j with (length q) by lia. by rewrite take_app_length.
Qed.

(** Every prefix of an entry is an entry, and its names are plain. *)
Lemma wf_prefix_some (m : gmap (list string) node) (p r : list string) :
  wf_fs m → is_Some (m !! (p ++ r)) → is_Some (m !! p).
Proof.
  intros Hm [n Hn]. destruct r as [|x r]; [rewrite app_nil_r in Hn; by eexists|].
  pose proof (wf_prefix_dir m p (x :: r) n Hm Hn 0 ltac:(simpl; lia)) as H0.
  simpl in H0. rewrite app_nil_r in H0. by eexists.
Qed.

Lemma wf_names_plain (m : gmap (list string) node) (p r : list string) :
  wf_fs m → is_Some (m !! (p ++ r)) → Forall plain_name r.
Proof.
  intros Hm [n Hn]. apply (wf_names _ Hm) in Hn. apply Forall_app in Hn as [_ Hn].
  eapply Forall_impl; [exact Hn|]. by intros x (? & _ & _ & ?).
Qed.

Lemma walk_plain_entry (w : world) (st cs : list string) (n : node) :
  wf_world w → plain cs → fs w !! (st ++ cs) = Some n → walk (fs w) st cs = inr (st ++ cs).
Proof. intros Hw Hp Hn. apply walk_plain_ok; [done|]. by eapply wf_prefix_dir. Qed.

(** [os.path.exists] on a plain path that does not name a file. *)
Lemma exists_plain (w : world) (p : string) :
  wf_world w → p ≠ "" → plain (components p) →
  (∀ d, fs w !! (start w p ++ components p) ≠ Some (File d)) →
  path_exists w p = bool_decide (is_Some (fs w !! (start w p ++ components p))).
Proof.
  intros Hw Hne Hp Hf. unfold path_exists, stat, resolve.
  destruct (String.eqb_spec p "") as [|_]; [done|].
  destruct (fs w !! (start w p ++ components p)) as [n|] eqn:L.
  - rewrite (walk_plain_entry w _ _ n), L by done.
    destruct n as [d|]; [by destruct (Hf d)|]. by rewrite bool_decide_eq_true_2.
  - destruct (walk _ _ _) as [e|q] eqn:W; [by rewrite bool_decide_eq_false_2 by (by intros [])|].
    apply walk_plain_inr in W as ->; [|done]. rewrite L. by rewrite bool_decide_eq_false_2 by (by intros []).
Qed.

Lemma walk_plain_parent (w : world) (st cs : list string) (c : string) :
  wf_world w → plain (cs ++ [c]) → fs w !! (st ++ cs) = Some Dir →
  walk (fs w) st (cs ++ [c]) = inr (st ++ cs ++ [c]).
Proof.
  intros Hw Hp Hpar. apply walk_plain_ok; [done|]. intros j Hj.
  rewrite length_app in Hj. simpl in Hj. destruct (decide (j < length cs)).
  - rewrite take_app_le by lia. by apply (wf_prefix_dir _ _ _ Dir Hw Hpar).
  - replace j with (length cs) by lia. by rewrite take_app_length.
Qed.

(** Where a plain path whose parent is a directory resolves, and what
    [os.stat] finds there. *)
Section PlainPath.
Context (w : world) (p : string) (cs : list string) (c : string).
Hypotheses (Hw : wf_world w) (Hne : p ≠ "") (Hcs : components p = cs ++ [c])
  (Hp : plain (cs ++ [c])) (Hpar : fs w !! (start w p ++ cs) = Some Dir).

Lemma resolve_plain : resolve w p = inr (start w p ++ cs ++ [c]).
Proof.
  unfold resolve. destruct (String.eqb_spec p "") as [|_]; [done|].
  rewrite Hcs. by apply walk_plain_parent.
Qed.

Lemma stat_plain :
  endswith p "/" = false →
  stat w p = match fs w !! (start w p ++ cs ++ [c]) with None => inl ENOENT | Some n => inr n end.
Proof.
  intros He. unfold stat. rewrite resolve_plain.
  destruct (fs w !! (start w p ++ cs ++ [c])) as [[d|]|]; [by rewrite He|done|done].
Qed.

Lemma resolve_parent_plain : resolve_parent w p = inr (start w p ++ cs, c).
Proof.
  unfold resolve_parent. destruct (String.eqb_spec p "") as [|_]; [done|].
  rewrite Hcs, last_snoc, removelast_last.
  apply Forall_app in Hp as [Hp' _].
  by rewrite (walk_plain_entry w _ _ Dir), Hpar by done.
Qed.

Lemma plain_last : curdir_or_pardir c = false.
Proof. by apply Forall_app in Hp as [_ [? _]%Forall_cons]. Qed.

(** [os.mkdir] on a plain path whose parent is a directory and which is absent. *)
Lemma mkdir_plain :
  fs w !! (start w p ++ cs ++ [c]) = None →
  mkdir p w = (inr tt, set_fs w (<[start w p ++ cs ++ [c] := Dir]> (fs w))).
Proof.
  intros Hnone. unfold mkdir. run_simpl. rewrite resolve_parent_plain, plain_last. simpl.
  by rewrite <- app_assoc, Hnone.
Qed.

(** [open(p, 'w').write(data)] where no directory is. *)
Lemma write_text_plain (data : string) :
  endswith p "/" = false → fs w !! (start w p ++ cs ++ [c]) ≠ Some Dir →
  write_text p data w = (inr tt, set_fs w (<[start w p ++ cs ++ [c] := File data]> (fs w))).
Proof.
  intros He Hnd. unfold write_text. run_simpl. rewrite Hcs.
  rewrite bool_decide_eq_false_2 by (by destruct cs). simpl.
  rewrite resolve_parent_plain, step_comp_plain by apply plain_last. rewrite <- app_assoc.
  destruct (fs w !! (start w p ++ cs ++ [c])) as [[d|]|]; simpl; rewrite ?He; done.
Qed.

End PlainPath.

Lemma read_text_file (w : world) (p d : string) :
  stat w p = inr (File d) → read_text p w = (inr d, w).
Proof. intros Hs. unfold read_text. run_simpl. by rewrite Hs. Qed.

Lemma read_text_error (w : world) (p : string) (e : errno) :
  stat w p = inl e → read_text p w = (inl (OSError e p), w).
Proof. intros Hs. unfold read_text. run_simpl. by rewrite Hs. Qed.

Lemma read_text_dir (w : world) (p : string) :
  stat w p = inr Dir → read_text p w = (inl (OSError EISDIR p), w).
Proof. intros Hs. unfold read_text. run_simpl. by rewrite Hs. Qed.

Lemma basename_nonempty_path (p : string) : basename p ≠ "" → p ≠ "".
Proof. by intros Hb ->. Qed.

(** [shutil.copy(src, dst)] of a file to a plain path whose parent is a
    directory, where no directory is and which is not [src]: the destination
    now holds the source's data. *)
Lemma copy_plain (w : world) (src dst data : string) (qs cs : list string) (c : string) :
  wf_world w → basename dst ≠ "" → components dst = cs ++ [c] → plain (cs ++ [c]) →
  fs w !! (start w dst ++ cs) = Some Dir → fs w !! (start w dst ++ cs ++ [c]) ≠ Some Dir →
  stat w src = inr (File data) → resolve w src = inr qs → qs ≠ start w dst ++ cs ++ [c] →
  copy src dst w = (inr dst, set_fs w (<[start w dst ++ cs ++ [c] := File data]> (fs w))).
Proof.
  intros Hw Hb Hcs Hp Hpar Hnd Hs Hr Hq.
  pose proof (basename_nonempty_path _ Hb) as Hne.
  pose proof (basename_endswith_sep _ Hb) as He.
  pose proof (stat_plain w dst cs c Hw Hne Hcs Hp Hpar He) as Hsd.
  unfold copy. run_simpl. unfold isdir. rewrite Hsd.
  destruct (fs w !! (start w dst ++ cs ++ [c])) as [[d|]|] eqn:L; [|done|]; simpl;
    unfold samefile; rewrite Hs, Hr, Hsd, ?L, ?(resolve_plain w dst cs c Hw Hne Hcs Hp Hpar);
    simpl; rewrite ?bool_decide_eq_false_2 by done;
    rewrite (read_text_file _ _ data) by done; simpl;
    unfold StExc.catch; rewrite (write_text_plain w dst cs c) by (rewrite ?L; done); done.
Qed.

Lemma set_fs_set_fs (w : world) (m1 m2 : gmap (list string) node) :
  set_fs (set_fs w m1) m2 = set_fs w m2.
Proof. done. Qed.

Lemma start_set_fs (w : world) (m : gmap (list string) node) (p : string) :
  start (set_fs w m) p = start w p.
Proof. done. Qed.

Lemma start_dirname (w : world) (p : string) : dirname p ≠ "" → start w (dirname p) = start w p.
Proof. intros Hd. unfold start. change "/" with sep. by rewrite dirname_startswith. Qed.

Lemma makedirs_split_base (name : string) :
  basename name ≠ "" → makedirs_split name = (dirname name, basename name).
Proof.
  intros Hb. unfold makedirs_split, PosixPath.split.
  by destruct (String.eqb_spec (basename name) "").
Qed.

(** Creating the last directory of a path whose other prefixes exist. *)
Lemma mkdir_p_last (m : gmap (list string) node) (st cs : list string) (c : string) :
  (∀ k, k ∈ dir_prefixes st cs → is_Some (m !! k)) → m !! (st ++ cs ++ [c]) = None →
  mkdir_p m st (cs ++ [c]) = <[st ++ cs ++ [c] := Dir]> m.
Proof. intros Hk Hn. rewrite mkdir_p_snoc; rewrite mkdir_p_id; done. Qed.

Lemma dir_prefixes_full (st cs : list string) :
  cs ≠ [] → st ++ cs ∈ dir_prefixes st cs.
Proof.
  intros Hcs. apply elem_of_dir_prefixes. exists (length cs).
  rewrite firstn_all. split; [destruct cs; [done|simpl; lia]|done].
Qed.

Lemma mkdir_p_beyond (m : gmap (list string) node) (st cs : list string) (c : string) :
  m !! (st ++ cs ++ [c]) = None → mkdir_p m st cs !! (st ++ cs ++ [c]) = None.
Proof.
  intros Hn. rewrite mkdir_p_lookup, Hn, decide_False; [done|].
  intros H%dir_prefixes_length. rewrite !length_app in H. simpl in H. lia.
Qed.

Lemma mkdir_p_full (m : gmap (list string) node) (st cs : list string) :
  cs ≠ [] → m !! (st ++ cs) = None → mkdir_p m st cs !! (st ++ cs) = Some Dir.
Proof. intros Hcs Hn. rewrite mkdir_p_lookup, Hn, decide_True; [done|]. by apply dir_prefixes_full. Qed.

(** After [mkdir_p], the full path is a directory (no file was on it). *)
Lemma mkdir_p_parent_dir (m : gmap (list string) node) (st cs : list string) :
  cs ≠ [] → (∀ k d, k ∈ dir_prefixes st cs → m !! k ≠ Some (File d)) →
  mkdir_p m st cs !! (st ++ cs) = Some Dir.
Proof.
  intros Hcs Hf. rewrite mkdir_p_lookup.
  destruct (m !! (st ++ cs)) as [[d|]|] eqn:L; [|done|].
  - exfalso. by apply (Hf (st ++ cs) d); [apply dir_prefixes_full|].
  - by rewrite decide_True by (by apply dir_prefixes_full).
Qed.

(** ... and an entry one level below is untouched. *)
Lemma mkdir_p_child (m : gmap (list string) node) (st cs : list string) (c : string) :
  mkdir_p m st cs !! (st ++ cs ++ [c]) = m !! (st ++ cs ++ [c]).
Proof.
  rewrite mkdir_p_lookup. destruct (m !! _); [done|].
  rewrite decide_False; [done|]. intros Hk%dir_prefixes_length.
  rewrite !length_app in Hk. simpl in Hk. lia.
Qed.

Lemma dir_prefixes_last (st cs : list string) (c : string) :
  st ++ cs ++ [c] ∈ dir_prefixes st (cs ++ [c]).
Proof. rewrite dir_prefixes_snoc. apply elem_of_app. right. by left. Qed.


Lemma wf_dir_prefixes (m : gmap (list string) node) (st cs : list string) (n : node) :
  wf_fs m → m !! (st ++ cs) = Some n → ∀ k, k ∈ dir_prefixes st cs → is_Some (m !! k).
Proof.
  intros Hw Hn k (j & Hj & ->)%elem_of_dir_prefixes.
  destruct (decide (j < length cs)).
  - by rewrite (wf_prefix_dir _ _ _ n Hw Hn).
  - rewrite take_ge by lia. by rewrite Hn.
Qed.

(** The last [os.mkdir] of [os.makedirs], when every other prefix exists. *)
Lemma mkdir_plain_last (w : world) (name : string) (cs : list string) (c : string) :
  wf_world w → name ≠ "" → components name = cs ++ [c] → plain (cs ++ [c]) →
  fs w !! (start w name ++ cs) = Some Dir → fs w !! (start w name ++ cs ++ [c]) = None →
  mkdir name w = (inr tt, set_fs w (mkdir_p (fs w) (start w name) (cs ++ [c]))).
Proof.
  intros Hw Hne Hcs Hp Hpar Hn. rewrite (mkdir_plain w name cs c) by done.
  rewrite mkdir_p_last; [done| |done]. by eapply wf_dir_prefixes.
Qed.

Lemma dir_prefixes_snoc_l (st cs k : list string) (c : string) :
  k ∈ dir_prefixes st cs → k ∈ dir_prefixes st (cs ++ [c]).
Proof. intros Hk. rewrite dir_prefixes_snoc. apply elem_of_app. by left. Qed.

(** No file on the way to [st ++ cs ++ [c]] leaves none at [st ++ cs]. *)
Lemma no_file_parent (m : gmap (list string) node) (st cs : list string) (c : string) :
  m !! st = Some Dir →
  (∀ k d, k ∈ dir_prefixes st (cs ++ [c]) → m !! k ≠ Some (File d)) →
  ∀ d, m !! (st ++ cs) ≠ Some (File d).
Proof.
  intros Hst Hf d. destruct (decide (cs = [])) as [->|E].
  - by rewrite app_nil_r, Hst.
  - by apply Hf, dir_prefixes_snoc_l, dir_prefixes_full.
Qed.

(** The last [os.mkdir] of [os.makedirs], after the missing parents are made. *)
Lemma mkdir_after_parents (w : world) (name : string) (cs : list string) (c : string) :
  wf_world (set_fs w (mkdir_p (fs w) (start w name) cs)) → name ≠ "" → cs ≠ [] →
  components name = cs ++ [c] → plain (cs ++ [c]) →
  fs w !! (start w name ++ cs) = None → fs w !! (start w name ++ cs ++ [c]) = None →
  mkdir name (set_fs w (mkdir_p (fs w) (start w name) cs)) =
  (inr tt, set_fs w (mkdir_p (fs w) (start w name) (cs ++ [c]))).
Proof.
  intros Hw Hne Hcs Hc Hp Hpar Hn.
  rewrite (mkdir_plain _ name cs c); rewrite ?start_set_fs; simpl; try done.
  - rewrite set_fs_set_fs, mkdir_p_snoc; [done|]. by apply mkdir_p_beyond.
  - by apply mkdir_p_full.
  - by apply mkdir_p_beyond.
Qed.

Lemma no_file_on_sound (m : gmap (list string) node) (ks : list (list string)) :
  no_file_on m ks = true → ∀ k d, k ∈ ks → m !! k ≠ Some (File d).
Proof.
  unfold no_file_on. rewrite forallb_forall. intros Hall k d Hk Hd.
  specialize (Hall k (proj1 (list_elem_of_In _ _) Hk)). by rewrite Hd in Hall.
Qed.

(** [os.stat] reads only the tree and the working directory. *)
Lemma stat_ext (w w' : world) (p : string) :
  fs w' = fs w → cwd w' = cwd w → stat w' p = stat w p.
Proof. intros Hf Hc. unfold stat, resolve, start. by rewrite Hf, Hc. Qed.

Lemma read_text_ext (w w' : world) (p : string) :
  fs w' = fs w → cwd w' = cwd w → read_text p w' = ((read_text p w).1, w').
Proof.
  intros Hf Hc. unfold read_text. run_simpl. rewrite (stat_ext w w') by done.
  by destruct (stat w p) as [e|[d|]].
Qed.

Lemma set_fs_id (w : world) : set_fs w (fs w) = w.
Proof. by destruct w. Qed.

(** Adding entries keeps every successful resolution and [os.stat]. *)
Lemma walk_mono (m m' : gmap (list string) node) (cur cs q : list string) :
  m ⊆ m' → walk m cur cs = inr q → walk m' cur cs = inr q.
Proof.
  intros Hm. revert cur. induction cs as [|c cs IH]; intros cur; simpl; [done|].
  destruct (m !! cur) as [[d|]|] eqn:L; try done.
  rewrite (lookup_weaken m m' cur Dir) by done. apply IH.
Qed.

Lemma stat_mono (w : world) (m' : gmap (list string) node) (p : string) (n : node) :
  fs w ⊆ m' → stat w p = inr n → stat (set_fs w m') p = inr n.
Proof.
  intros Hm. unfold stat, resolve. destruct (String.eqb p ""); [done|].
  destruct (walk _ _ _) as [e|q] eqn:W; [done|].
  rewrite (walk_mono _ m' _ _ q) by done. simpl.
  destruct (fs w !! q) as [n'|] eqn:L; [|done]. by rewrite (lookup_weaken (fs w) m' q n').
Qed.

Lemma resolve_mono (w : world) (m' : gmap (list string) node) (p : string) (q : list string) :
  fs w ⊆ m' → resolve w p = inr q → resolve (set_fs w m') p = inr q.
Proof.
  intros Hm. unfold resolve. destruct (String.eqb p ""); [done|]. by apply walk_mono.
Qed.

Lemma mkdir_p_subseteq (m : gmap (list string) node) (st cs : list string) : m ⊆ mkdir_p m st cs.
Proof. apply map_union_subseteq_l. Qed.

(** ** Listing a directory *)

Lemma child_of_spec (q k : list string) (x : string) : child_of q k = Some x ↔ k = q ++ [x].
Proof.
  unfold child_of. split.
  - case_bool_decide as H; [|done]. destruct H as [Hl [r ->]].
    rewrite length_app in Hl. destruct r as [|y [|z r]]; simpl in Hl; try lia.
    by rewrite last_snoc; intros [= ->].
  - intros ->. rewrite bool_decide_eq_true_2; [apply last_snoc|].
    split; [rewrite length_app; simpl; lia|by exists [x]].
Qed.

Lemma elem_of_child_names (m : gmap (list string) node) (q : list string) (x : string) :
  x ∈ child_names m q ↔ is_Some (m !! (q ++ [x])).
Proof.
  unfold child_names, children. rewrite list_elem_of_omap. split.
  - intros ([k n] & Hk%elem_of_map_to_list & Hx). simpl in Hx.
    apply child_of_spec in Hx as ->. apply map_lookup_filter_Some in Hk as [-> _]. by eexists.
  - intros [n Hn]. exists (q ++ [x], n). rewrite elem_of_map_to_list, map_lookup_filter_Some.
    simpl. rewrite (proj2 (child_of_spec _ _ x)) by done. by eauto.
Qed.

Lemma children_agree (m m' : gmap (list string) node) (q : list string) :
  (∀ x, m' !! (q ++ [x]) = m !! (q ++ [x])) → children m' q = children m q.
Proof.
  intros Hq. apply map_eq. intros k. unfold children. rewrite !map_lookup_filter.
  destruct (child_of q k) as [x|] eqn:E.
  - apply child_of_spec in E as ->. by rewrite Hq.
  - destruct (m' !! k), (m !! k); simpl; rewrite ?E; try done; by rewrite ?option_guard_False by (by intros []).
Qed.

(** The tree around [q]: the directories on the way to it, and everything
    below it.  A run that keeps it keeps what [os.scandir] shows there. *)
Definition agree_around (q : list string) (w w' : world) : Prop :=
  cwd w' = cwd w ∧ ∀ k, (k `prefix_of` q ∨ q `prefix_of` k) → fs w' !! k = fs w !! k.

Lemma agree_around_refl (q : list string) (w : world) : agree_around q w w.
Proof. by split. Qed.

Lemma prefix_snoc_cases (k l : list string) (x : string) :
  k `prefix_of` l ++ [x] → k `prefix_of` l ∨ k = l ++ [x].
Proof.
  intros [r Hr]. destruct r as [|y r _] using rev_ind.
  - right. by rewrite app_nil_r in Hr.
  - left. rewrite app_assoc in Hr. apply app_inj_tail in Hr as [-> _]. by exists r.
Qed.

Lemma agree_around_child (q : list string) (x : string) (w w' : world) :
  agree_around q w w' → agree_around (q ++ [x]) w w'.
Proof.
  intros [Hc Hk]. split; [done|]. intros k [Hp|Hp]; apply Hk.
  - destruct (prefix_snoc_cases _ _ _ Hp) as [ | ->]; [by left|right]. by exists [x].
  - right. by eapply prefix_app_l.
Qed.

Lemma walk_app (m : gmap (list string) node) (cur cs1 cs2 : list string) :
  walk m cur (cs1 ++ cs2) =
  match walk m cur cs1 with inl e => inl e | inr q => walk m q cs2 end.
Proof.
  revert cur. induction cs1 as [|c cs1 IH]; intros cur; [done|]. simpl.
  destruct (m !! cur) as [[d|]|]; [done|apply IH|done].
Qed.

(** A plain walk looks only at the prefixes of where it ends. *)
Lemma walk_agree_plain (m m' : gmap (list string) node) (cur cs : list string) :
  plain cs → (∀ j, j < length cs → m' !! (cur ++ take j cs) = m !! (cur ++ take j cs)) →
  walk m' cur cs = walk m cur cs.
Proof.
  revert cur. induction cs as [|c cs IH]; intros cur Hp Hm; [done|]. simpl.
  inversion Hp as [|? ? Hc Hp']; subst.
  pose proof (Hm 0 ltac:(simpl; lia)) as H0. rewrite app_nil_r in H0. rewrite H0.
  destruct (m !! cur) as [[d|]|]; [done| |done].
  rewrite step_comp_plain by done. apply IH; [done|]. intros j Hj.
  rewrite <- app_assoc. apply (Hm (S j)). simpl. lia.
Qed.

(** A plain path resolves, and [os.stat] sees it, the same way in a tree
    that agrees on the prefixes of where it resolves. *)
(** A plain path resolves the same where the trees agree on the
    directories above its target; the target itself may differ. *)
Lemma resolve_agree_proper (w w' : world) (p : string) (q : list string) :
  plain (components p) → resolve w p = inr q → cwd w' = cwd w →
  (∀ k, k `prefix_of` q → k ≠ q → fs w' !! k = fs w !! k) → resolve w' p = inr q.
Proof.
  intros Hp Hr Hc Hk. unfold resolve in *. destruct (String.eqb p ""); [done|].
  assert (Hst : start w' p = start w p) by (unfold start; by rewrite Hc). rewrite Hst, <- Hr.
  pose proof (walk_plain_inr _ _ _ _ Hp Hr) as Hq.
  apply walk_agree_plain; [done|]. intros j Hj. apply Hk; rewrite Hq; [apply prefix_app, prefix_take|].
  intros E%app_inv_head. apply (f_equal length) in E. rewrite length_take in E. lia.
Qed.

Lemma resolve_agree_plain (w w' : world) (p : string) (q : list string) :
  plain (components p) → resolve w p = inr q → cwd w' = cwd w →
  (∀ k, k `prefix_of` q → fs w' !! k = fs w !! k) → resolve w' p = inr q.
Proof. intros Hp Hr Hc Hk. apply (resolve_agree_proper w); auto. Qed.

Lemma stat_agree_plain (w w' : world) (p : string) (q : list string) :
  plain (components p) → resolve w p = inr q → cwd w' = cwd w →
  (∀ k, k `prefix_of` q → fs w' !! k = fs w !! k) → stat w' p = stat w p.
Proof.
  intros Hp Hr Hc Hk. unfold stat. rewrite (resolve_agree_plain w w' p q), Hr by done.
  by rewrite Hk.
Qed.

(** The same, whether or not the path resolves: a plain path whose key and
    every prefix of it look the same in both trees is stat'ed the same. *)
Lemma stat_agree_key (w w' : world) (p : string) :
  plain (components p) → cwd w' = cwd w →
  (∀ k, k `prefix_of` start w p ++ components p → fs w' !! k = fs w !! k) →
  stat w' p = stat w p.
Proof.
  intros Hp Hc Hk.
  assert (Hr : resolve w' p = resolve w p).
  { unfold resolve. destruct (String.eqb p ""); [done|].
    replace (start w' p) with (start w p) by (unfold start; by rewrite Hc).
    apply walk_agree_plain; [done|]. intros j _. apply Hk, prefix_app, prefix_take. }
  unfold stat. rewrite Hr. destruct (resolve w p) as [e|q] eqn:Hq; [done|].
  unfold resolve in Hq. destruct (String.eqb p ""); [done|].
  apply walk_plain_inr in Hq as ->; [|done]. by rewrite Hk.
Qed.

(** [os.scandir] on a plain path shows the same listing in a run that kept
    the tree around the directory it names. *)
Lemma scandir_agree `{ScandirOrder} (w w' : world) (p : string) (q : list string) :
  plain (components p) → resolve w p = inr q → agree_around q w w' → scandir w' p = scandir w p.
Proof.
  intros Hp Hr [Hc Hk].
  unfold scandir. rewrite (resolve_agree_plain w w' p q), Hr, (Hk q) by (auto; by left).
  destruct (fs w !! q) as [[d|]|]; try done. unfold child_names.
  rewrite (children_agree (fs w) (fs w')); [done|]. intros x. apply Hk. right. by exists [x].
Qed.

Lemma valid_plain_name (x : string) : valid_name x → plain_name x.
Proof. by intros (? & _ & _ & ?). Qed.

Lemma valid_not_special (x : string) : valid_name x → curdir_or_pardir x = false.
Proof.
  intros (_ & H1 & H2 & _). unfold curdir_or_pardir.
  destruct (String.eqb_spec x "."), (String.eqb_spec x ".."); done.
Qed.

(** What [os.scandir] lists: the names of entries of the directory. *)
Lemma scandir_children `{ScandirOrderOk} (w : world) (p : string) (ns : list string) :
  wf_world w → scandir w p = inr ns →
  ∃ q, resolve w p = inr q ∧ fs w !! q = Some Dir ∧
       ∀ x, x ∈ ns → valid_name x ∧ is_Some (fs w !! (q ++ [x])).
Proof.
  intros Hw. unfold scandir. destruct (resolve w p) as [e|q] eqn:Hr; [done|].
  destruct (fs w !! q) as [[d|]|] eqn:Hq; try done. intros [= <-].
  exists q. split; [done|]. split; [done|]. intros x Hx.
  rewrite (scandir_order_perm q _), elem_of_child_names in Hx.
  destruct Hx as [n Hn]. split; [|by eexists].
  pose proof (wf_names _ Hw _ _ Hn) as Hv. apply Forall_app in Hv as [_ Hv]. by inversion Hv.
Qed.

(** [os.path.join(p, x)] names the entry [x] of the directory [p] names. *)
Lemma resolve_join1 (w : world) (p x : string) (q : list string) :
  p ≠ "" → resolve w p = inr q → fs w !! q = Some Dir → valid_name x →
  resolve w (PosixPath.join p [x]) = inr (q ++ [x]).
Proof.
  intros Hne Hr Hq Hx. pose proof (components_join1 p x (valid_plain_name _ Hx)) as Hc.
  unfold resolve in *. destruct (String.eqb_spec p "") as [|_]; [done|].
  destruct (String.eqb_spec (PosixPath.join p [x]) "") as [E|_].
  { rewrite E in Hc. by destruct (components p). }
  assert (Hs : start w (PosixPath.join p [x]) = start w p)
    by (unfold start; change "/" with sep; by rewrite startswith_join1 by auto using valid_plain_name).
  rewrite Hs, Hc, walk_app, Hr. simpl. rewrite Hq, step_comp_plain by (by apply valid_not_special).
  done.
Qed.

(** [os.makedirs] on a plain path that does not exist yet, starting from an
    existing directory, with no file in the way: the run succeeds and adds
    exactly the missing directories along the path ([mkdir_p]). *)
Theorem makedirs_creates (w : world) (name : string) :
  wf_world w → basename name ≠ "" → plain (components name) →
  fs w !! start w name = Some Dir →
  (∀ k d, k ∈ dir_prefixes (start w name) (components name) → fs w !! k ≠ Some (File d)) →
  fs w !! (start w name ++ components name) = None →
  makedirs name w = (inr tt, set_fs w (mkdir_p (fs w) (start w name) (components name))).
Proof.
  remember (String.length name) as len eqn:Hlen. revert name w Hlen.
  induction len as [len IH] using lt_wf_ind. intros name w -> Hw Hb Hp Hst Hf Hn.
  destruct (components_basename name Hb) as [Hcs _].
  rewrite Hcs in Hp, Hf, Hn |- *.
  unfold makedirs. cbn [makedirs_go]. rewrite makedirs_split_base by done.
  unfold mbind, StExc_bind, mret, StExc_ret. rewrite StExc.bind_get.
  destruct (String.eqb_spec (dirname name) "") as [Hd|Hd].
  - (* no directory part: [os.mkdir(name)] at once *)
    simpl. rewrite StExc.bind_ret_l.
    rewrite Hd in Hcs, Hp, Hf, Hn |- *. change (components "") with (@nil string) in *.
    apply mkdir_plain_last; rewrite ?app_nil_r; try done. by intros ->.
  - (* [head] is tested first, and created when missing *)
    destruct (String.eqb_spec (basename name) "") as [|_]; [done|].
    assert (Hne : name ≠ "") by (by intros ->).
    assert (Hpc : plain (components (dirname name)) ∧ curdir_or_pardir (basename name) = false)
      by (apply Forall_app in Hp as [? [? _]%Forall_cons]; done).
    destruct Hpc as [Hpcs Hc].
    pose proof (no_file_parent _ _ _ _ Hst Hf) as Hnf.
    rewrite (exists_plain w (dirname name)) by (rewrite ?start_dirname; done).
    rewrite start_dirname by done.
    destruct (fs w !! (start w name ++ components (dirname name))) as [n|] eqn:Lh.
    + (* [head] exists: [os.mkdir(name)] *)
      rewrite bool_decide_eq_true_2 by done. simpl. rewrite StExc.bind_ret_l.
      destruct n as [d|]; [by destruct (Hnf d)|].
      by apply mkdir_plain_last.
    + (* [head] is missing: [makedirs(head)], then [os.mkdir(name)] *)
      rewrite bool_decide_eq_false_2 by (by intros []). simpl.
      assert (Hcne : components (dirname name) ≠ []) by
        (intros E; by rewrite E, app_nil_r, Hst in Lh).
      assert (Hbh : basename (dirname name) ≠ "") by
        (by destruct (dirname_shape name) as [?|[?|?]]).
      pose proof (length_dirname_lt name Hb) as Hlt.
      unfold StExc.bind, StExc.catch.
      rewrite (makedirs_go_fuel _ (S (String.length (dirname name)))) by lia.
      assert (IHh := IH _ Hlt (dirname name) w eq_refl Hw Hbh Hpcs).
      rewrite !start_dirname in IHh by done.
      specialize (IHh Hst (λ k d Hk, Hf k d (dir_prefixes_snoc_l _ _ _ _ Hk)) Lh).
      unfold makedirs in IHh.
      pose proof (makedirs_go_wf (S (String.length (dirname name))) (dirname name) w Hw) as Hw'.
      rewrite IHh in Hw' |- *. cbv beta iota.
      unfold curdir_or_pardir in Hc. apply orb_false_iff in Hc as [-> _].
      unfold StExc.ret. cbv beta iota. by apply mkdir_after_parents.
Qed.

(** ** Where an operation writes: the key of a plain path *)

Lemma plain_prefix (cs1 cs2 : list string) : cs1 `prefix_of` cs2 → plain cs2 → plain cs1.
Proof. intros [r ->] Hp. by apply Forall_app in Hp as [? _]. Qed.

(** [os.mkdir] and [open(p, 'w')] create the entry at the key of [p]. *)
Lemma resolve_parent_key (w : world) (p : string) (par : list string) (name : string) :
  plain (components p) → resolve_parent w p = inr (par, name) →
  par ++ [name] = start w p ++ components p ∧ curdir_or_pardir name = false.
Proof.
  intros Hp. unfold resolve_parent. destruct (String.eqb p ""); [done|].
  destruct (last (components p)) as [x|] eqn:Hl; [|done].
  apply last_Some in Hl as [cs Hcs]. rewrite Hcs, removelast_last. rewrite Hcs in Hp.
  apply Forall_app in Hp as [Hp1 Hp2]. inversion Hp2; subst.
  destruct (walk _ _ cs) as [e|par'] eqn:Hw; [done|].
  apply walk_plain_inr in Hw; [|done]. subst par'.
  destruct (fs w !! _) as [[d|]|]; [done| |done]. intros [= <- <-].
  split; [by rewrite app_assoc|done].
Qed.

(** The recursive call of [os.makedirs] is on a path with the same start
    and a prefix of the components. *)
Lemma makedirs_split_key (w : world) (name head tail : string) :
  makedirs_split name = (head, tail) → head ≠ "" →
  start w head = start w name ∧ components head `prefix_of` components name.
Proof.
  unfold makedirs_split, PosixPath.split.
  destruct (String.eqb_spec (basename name) "") as [Hb|Hb]; intros [= <- <-] Hh.
  - assert (Hd : dirname name ≠ "") by (intros E; apply Hh; rewrite E; reflexivity).
    split; [by rewrite !start_dirname|].
    transitivity (components (dirname name)); apply components_dirname_prefix.
  - split; [by apply start_dirname|apply components_dirname_prefix].
Qed.

#[export] Hint Resolve mkdir_wf write_text_wf rmtree_wf read_text_preserves makedirs_wf
  copy_wf print_wf : pystr.

End FileSys.
