(* ===== verification/Glob.v ===== *)
(** * [glob.iglob(pathname, recursive=True)] consumed by a [for] loop

    CPython 3.12's [glob] module, the part that a pattern [dir + '**'] runs:
    [_iglob] splits the pattern, [_glob2] yields the empty name (when the
    directory exists) and then every name of [_rlistdir], which lists a
    directory with [_listdir] (an [OSError] gives no names), skips hidden
    names ([_ishidden]) and recurses into each name after yielding it.
    [iglob] is a generator: the loop body runs at each [yield], and a
    directory is listed only when the walk reaches it.  The model keeps this
    interleaving by passing the loop body to the walk ([rlistdir_for] runs
    [body] where [_rlistdir] yields).  The recursion of [_rlistdir] is bounded
    by fuel, one unit per directory level.

    [rlistdir_names] and [iglob_names] compute the same names eagerly, on the
    tree as it is when the loop starts.  The lazy loop equals a loop over
    that list whenever the body keeps the tree around the walked directory
    ([iglob_for_eager]).  Fuel above the number of entries of the tree
    always completes the listing ([iglob_names_some]), and the listing is
    the walked directory and each entry below it whose relative path has
    no hidden component, [below_visible] ([rlistdir_names_spec],
    [iglob_names_spec]). *)

From S2P Require Import Prelude PyStr PosixPath FileSys.

Module Glob.
Import PyStr PosixPath FileSys.

Section Glob.
Context `{ScandirOrder}.

(** [glob._join(dirname, basename)]:
    [if not dirname or not basename: return dirname or basename
     return os.path.join(dirname, basename)] *)
Definition glob_join (dirname basename : string) : string :=
  if String.eqb dirname "" || String.eqb basename "" then
    (if String.eqb dirname "" then basename else dirname)
  else PosixPath.join dirname [basename].

(** [glob._listdir(dirname, dir_fd=None, dironly=False)]: the names
    [os.scandir] returns ([os.curdir] for an empty [dirname]); any [OSError]
    ends the listing with no names. *)
Definition listdir (dirname : string) : PyM (list string) :=
  w ← StExc.get;
  match scandir w (if String.eqb dirname "" then "." else dirname) with
  | inl _ => mret []
  | inr names => mret names
  end.

(** [for y in _rlistdir(dirname): body(y)]:
<<
    names = _listdir(dirname, dir_fd, dironly)
    for x in names:
        if include_hidden or not _ishidden(x):
            yield x
            path = _join(dirname, x) if dirname else x
            for y in _rlistdir(path, dir_fd, dironly, include_hidden=include_hidden):
                yield _join(x, y)
>> *)
Fixpoint rlistdir_for (fuel : nat) (dirname : string) (body : string → PyM unit)
    : PyM unit :=
  match fuel with
  | 0 => StExc.raise OutOfFuel
  | S n =>
      names ← listdir dirname;
      StExc.mfor names (λ x,
        if ishidden x then mret tt
        else
          body x;;
          let path := if String.eqb dirname "" then x else glob_join dirname x in
          rlistdir_for n path (λ y, body (glob_join x y)))
  end.

(** [for name in _glob2(dirname, '**'): body(name)]:
<<
    if not dirname or _isdir(dirname, dir_fd):
        yield pattern[:0]
    yield from _rlistdir(dirname, dir_fd, dironly, include_hidden=include_hidden)
>> *)
Definition glob2_for (fuel : nat) (dirname : string) (body : string → PyM unit)
    : PyM unit :=
  w ← StExc.get;
  (if String.eqb dirname "" || isdir w dirname then body "" else mret tt);;
  rlistdir_for fuel dirname body.

(** [for filename in glob.iglob(pathname, recursive=True): body(filename)]
    for a pattern whose last component is [**] and whose directory part has
    no magic: [dirs = [dirname]] and every name [n] of [_glob2] is yielded as
    [os.path.join(dirname, n)].  Other patterns are outside the model. *)
Definition iglob_for (fuel : nat) (pathname : string) (body : string → PyM unit)
    : PyM unit :=
  let '(dirname, basename) := PosixPath.split pathname in
  if negb (String.eqb basename "**") || String.eqb dirname "" then
    StExc.raise (NotModelled "glob pattern other than dir/**")
  else if negb (String.eqb dirname pathname) && has_magic dirname then
    StExc.raise (NotModelled "glob magic in the directory part")
  else glob2_for fuel dirname (λ name, body (PosixPath.join dirname [name])).

(** The names the walk yields on a tree that does not change while it
    runs, in the order the generator yields them; [None] when the fuel runs
    out first.  [walk_names sub xs] is the loop over the listing [xs], with
    [sub x] the names yielded below [x]. *)
Fixpoint walk_names (sub : string → option (list string)) (xs : list string)
    : option (list string) :=
  match xs with
  | [] => Some []
  | x :: xs' =>
      if ishidden x then walk_names sub xs'
      else
        below ← sub x;
        rest ← walk_names sub xs';
        Some (x :: map (glob_join x) below ++ rest)
  end.

Fixpoint rlistdir_names (fuel : nat) (w : world) (dirname : string) : option (list string) :=
  match fuel with
  | 0 => None
  | S n =>
      walk_names (λ x, rlistdir_names n w (if String.eqb dirname "" then x else glob_join dirname x))
        (match scandir w (if String.eqb dirname "" then "." else dirname) with
         | inl _ => []
         | inr ns => ns
         end)
  end.

(** The names [glob.iglob(pathname, recursive=True)] yields on a fixed tree,
    for a pattern [dirname/**]: the directory itself (as [dirname/]) when
    it is one, then every name of the walk, joined to [dirname]. *)
Definition iglob_names (fuel : nat) (w : world) (pathname : string) : option (list string) :=
  let dirname := PosixPath.dirname pathname in
  names ← rlistdir_names fuel w dirname;
  Some (map (λ n, PosixPath.join dirname [n]) ((if isdir w dirname then [""] else []) ++ names)).

(** ** The walk depends on the loop body only at the names it yields *)

Lemma rlistdir_for_ext (fuel : nat) (dirname : string) (b1 b2 : string → PyM unit) (w : world) :
  (∀ n w, b1 n w = b2 n w) →
  rlistdir_for fuel dirname b1 w = rlistdir_for fuel dirname b2 w.
Proof.
  revert dirname b1 b2 w. induction fuel as [|n IH]; intros dirname b1 b2 w Hb; [done|].
  cbn [rlistdir_for]. unfold mbind, StExc_bind. apply StExc.bind_ext; [done|].
  intros names w'. apply StExc.mfor_ext. intros x w''.
  destruct (ishidden x); [done|]. apply StExc.bind_ext; [apply Hb|].
  intros _ w3. apply IH. intros y w4. apply Hb.
Qed.

Lemma glob2_for_ext (fuel : nat) (dirname : string) (b1 b2 : string → PyM unit) (w : world) :
  (∀ n w, b1 n w = b2 n w) →
  glob2_for fuel dirname b1 w = glob2_for fuel dirname b2 w.
Proof.
  intros Hb. unfold glob2_for, mbind, StExc_bind. apply StExc.bind_ext; [done|].
  intros w' s. apply StExc.bind_ext.
  - intros s'. destruct (_ || _); [apply Hb|done].
  - intros _ s''. by apply rlistdir_for_ext.
Qed.

(** Every name [iglob] yields is [os.path.join(dirname, n)] for the
    non-empty directory part [dirname] of the pattern. *)
Lemma iglob_for_ext (fuel : nat) (pathname : string) (b1 b2 : string → PyM unit) (w : world) :
  (∀ n w, dirname pathname ≠ "" →
     b1 (PosixPath.join (dirname pathname) [n]) w = b2 (PosixPath.join (dirname pathname) [n]) w) →
  iglob_for fuel pathname b1 w = iglob_for fuel pathname b2 w.
Proof.
  intros Hb. unfold iglob_for, PosixPath.split.
  destruct (String.eqb_spec (dirname pathname) "") as [He|He];
    [by rewrite orb_true_r|].
  destruct (negb _ || _); [done|]. destruct (negb _ && _); [done|].
  apply glob2_for_ext. intros n w'. by apply Hb.
Qed.

(** ** The walk keeps every invariant its body keeps *)

Lemma listdir_preserves (P : world → Prop) (dirname : string) :
  StExc.preserves P (listdir dirname).
Proof.
  apply preserves_mbind; [auto with pystr|]. intros w.
  destruct (scandir _ _); auto with pystr.
Qed.

Lemma rlistdir_for_preserves (P : world → Prop) (fuel : nat) (dirname : string)
    (body : string → PyM unit) :
  (∀ n, StExc.preserves P (body n)) → StExc.preserves P (rlistdir_for fuel dirname body).
Proof.
  revert dirname body. induction fuel as [|k IH]; intros dirname body Hb;
    cbn [rlistdir_for]; [auto with pystr|].
  apply preserves_mbind; [apply listdir_preserves|]. intros names.
  apply StExc.preserves_mfor. intros x. destruct (ishidden x); [auto with pystr|].
  apply preserves_mbind; [done|]. intros _. apply IH. auto.
Qed.

Lemma iglob_for_preserves (P : world → Prop) (fuel : nat) (pathname : string)
    (body : string → PyM unit) :
  (∀ n, StExc.preserves P (body n)) → StExc.preserves P (iglob_for fuel pathname body).
Proof.
  intros Hb. unfold iglob_for. destruct (PosixPath.split pathname) as [d b].
  destruct (_ || _); [auto with pystr|]. destruct (_ && _); [auto with pystr|].
  unfold glob2_for. apply preserves_mbind; [auto with pystr|]. intros w.
  apply preserves_mbind; [destruct (_ || _); auto with pystr|]. intros _.
  by apply rlistdir_for_preserves.
Qed.

(** ** The generator is the list of its names, when the body leaves the walked tree alone *)

Section Eager.
Context `{!ScandirOrderOk} (P : world → Prop) (body : string → PyM unit).

Lemma walk_names_elem (sub : string → option (list string)) (xs names ys : list string)
    (x y : string) :
  walk_names sub xs = Some names → x ∈ xs → ishidden x = false → sub x = Some ys →
  y ∈ ys → glob_join x y ∈ names.
Proof.
  revert names. induction xs as [|x' xs IH]; intros names Hn Hx Hh Hs Hy; [by apply elem_of_nil in Hx|].
  simpl in Hn. apply elem_of_cons in Hx as [->|Hx].
  - rewrite Hh, Hs in Hn. simpl in Hn. destruct (walk_names sub xs); [|done].
    injection Hn as <-. right. apply elem_of_app. left. by apply list_elem_of_fmap_2.
  - destruct (ishidden x'); [by eapply IH|].
    destruct (sub x'); [|done]. simpl in Hn. destruct (walk_names sub xs) as [rest|] eqn:Hr; [|done].
    injection Hn as <-. right. apply elem_of_app. right. by eapply IH.
Qed.

(** The loop of [_rlistdir] over one listing, given that each recursive
    walk is its list of names. *)
Lemma walk_names_mfor (sub : string → option (list string))
    (run : string → (string → PyM unit) → PyM unit) (xs names : list string) :
  (∀ n, n ∈ names → StExc.preserves P (body n)) →
  (∀ x ys, x ∈ xs → ishidden x = false → sub x = Some ys → ∀ w', P w' →
     run x (λ y, body (glob_join x y)) w' = StExc.mfor ys (λ y, body (glob_join x y)) w') →
  walk_names sub xs = Some names →
  ∀ w', P w' →
  StExc.mfor xs (λ x, if ishidden x then mret tt else body x;; run x (λ y, body (glob_join x y))) w' =
  StExc.mfor names body w'.
Proof.
  revert names. induction xs as [|x xs IH]; intros names Hbody Hrun Hn w' Hw'; simpl in Hn.
  { by injection Hn as <-. }
  cbn [StExc.mfor]. unfold mbind, StExc_bind, mret, StExc_ret.
  destruct (ishidden x) eqn:Hh.
  { rewrite StExc.bind_ret_l. apply IH; [done| |done|done]. intros y ys Hy. apply Hrun. by right. }
  destruct (sub x) as [ys|] eqn:Hs; [|done]. simpl in Hn.
  destruct (walk_names sub xs) as [rest|] eqn:Hr; [|done]. simpl in Hn. injection Hn as <-.
  cbn [StExc.mfor]. rewrite !StExc.bind_assoc.
  pose proof (Hbody x (list_elem_of_here _ _) w' Hw') as Hw1. unfold StExc.bind at 1 2 4.
  destruct (body x w') as [[e|[]] w1]; [done|]. simpl in Hw1.
  rewrite StExc.mfor_app. unfold StExc.bind.
  rewrite (Hrun x ys (list_elem_of_here _ _) Hh Hs w1 Hw1), StExc.mfor_map.
  assert (Hys : ∀ y, y ∈ ys → StExc.preserves P (body (glob_join x y))).
  { intros y Hy. apply Hbody. right. apply elem_of_app. left. by apply list_elem_of_fmap_2. }
  pose proof (StExc.preserves_mfor_in P ys _ Hys w1 Hw1) as Hw2.
  destruct (StExc.mfor ys _ w1) as [[e|[]] w2]; [done|].
  apply IH; [| |done|done].
  - intros n Hn. apply Hbody. right. apply elem_of_app. by right.
  - intros y ys' Hy. apply Hrun. by right.
Qed.

End Eager.

Lemma glob_join_name (d x : string) : d ≠ "" → x ≠ "" → glob_join d x = PosixPath.join d [x].
Proof.
  intros Hd Hx. unfold glob_join.
  by destruct (String.eqb_spec d "") as [|_], (String.eqb_spec x "") as [|_].
Qed.

(** ** What the walk lists *)

(** The names a walk yields from its listing [xs]: each name that is not
    hidden, followed by the names below it, joined to it. *)
Lemma walk_names_iff (sub : string → option (list string)) (xs names : list string) :
  walk_names sub xs = Some names →
  ∀ y, y ∈ names ↔ ∃ x, x ∈ xs ∧ ishidden x = false ∧
         (y = x ∨ ∃ ys z, sub x = Some ys ∧ z ∈ ys ∧ y = glob_join x z).
Proof.
  revert names. induction xs as [|x xs IH]; intros names Hn y; simpl in Hn.
  { injection Hn as <-. split; [by intros ?%elem_of_nil|]. by intros (x & ?%elem_of_nil & _). }
  destruct (ishidden x) eqn:Hh.
  { rewrite (IH names Hn y). split.
    - intros (x' & Hx' & H'). exists x'. split; [by right|done].
    - intros (x' & [->|Hx']%elem_of_cons & Hh' & H'); [congruence|]. by exists x'. }
  destruct (sub x) as [ys|] eqn:Hs; [|done]. simpl in Hn.
  destruct (walk_names sub xs) as [rest|] eqn:Hr; [|done]. injection Hn as <-.
  change (map (glob_join x) ys) with (glob_join x <$> ys).
  rewrite elem_of_cons, elem_of_app, list_elem_of_fmap, (IH rest eq_refl y). split.
  - intros [->|[(z & -> & Hz)|(x' & Hx' & H')]].
    + exists x. split; [by left|]. split; [done|]. by left.
    + exists x. split; [by left|]. split; [done|]. right. by exists ys, z.
    + exists x'. split; [by right|done].
  - intros (x' & [->|Hx']%elem_of_cons & Hh' & [->|(ys' & z & Hs' & Hz & ->)]).
    + by left.
    + rewrite Hs in Hs'. injection Hs' as <-. right. left. by exists z.
    + right. right. exists x'. split; [done|]. split; [done|]. by left.
    + right. right. exists x'. split; [done|]. split; [done|]. right. by exists ys', z.
Qed.

Lemma walk_names_sub_some (sub : string → option (list string)) (xs names : list string)
    (x : string) :
  walk_names sub xs = Some names → x ∈ xs → ishidden x = false → is_Some (sub x).
Proof.
  revert names. induction xs as [|x' xs IH]; intros names Hn Hx Hh; [by apply elem_of_nil in Hx|].
  simpl in Hn. apply elem_of_cons in Hx as [<-|Hx].
  - rewrite Hh in Hn. destruct (sub x); [by eexists|done].
  - destruct (ishidden x'); [by eapply IH|]. destruct (sub x'); [|done]. simpl in Hn.
    destruct (walk_names sub xs); [|done]. by eapply IH.
Qed.

(** The specification of the walk below the directory [q]: an entry whose
    path relative to [q] has no hidden component, named by that path. *)
Definition below_visible (w : world) (q : list string) (y : string) : Prop :=
  ∃ rel, rel ≠ [] ∧ Forall (λ x, ishidden x = false) rel ∧ is_Some (fs w !! (q ++ rel)) ∧
         y = join_with "/"%char rel.

Lemma below_visible_dir (w : world) (q : list string) (y : string) :
  wf_world w → below_visible w q y → fs w !! q = Some Dir.
Proof.
  intros Hw (rel & Hne & _ & [m Hm] & _). destruct rel as [|x r]; [done|].
  pose proof (wf_prefix_dir _ q (x :: r) m Hw Hm 0 ltac:(simpl; lia)) as H0.
  simpl in H0. by rewrite app_nil_r in H0.
Qed.

(** ** The fuel: one level per entry below the walked directory is enough *)

(** The entries strictly below [q]. *)
Definition below_keys (m : gmap (list string) node) (q : list string) : gset (list string) :=
  filter (λ k, q `prefix_of` k ∧ k ≠ q) (dom m).

Lemma below_keys_child (m : gmap (list string) node) (q : list string) (x : string) :
  is_Some (m !! (q ++ [x])) → below_keys m (q ++ [x]) ⊂ below_keys m q.
Proof.
  intros Hx. unfold below_keys. split.
  - intros k. rewrite !elem_of_filter. intros [[Hp Hne] Hk]. split; [|done].
    split; [by eapply prefix_app_l|]. intros ->.
    apply prefix_length in Hp. rewrite length_app in Hp. simpl in Hp. lia.
  - intros Hsub. assert (Hin : q ++ [x] ∈ filter (λ k, q `prefix_of` k ∧ k ≠ q) (dom m)).
    { rewrite elem_of_filter, elem_of_dom. split; [|done]. split; [by exists [x]|].
      intros E. apply (f_equal length) in E. rewrite length_app in E. simpl in E. lia. }
    apply Hsub in Hin. rewrite elem_of_filter in Hin. by destruct Hin as [[_ []] _].
Qed.

Lemma below_keys_size (m : gmap (list string) node) (q : list string) :
  size (below_keys m q) ≤ size m.
Proof. rewrite <- size_dom. apply subseteq_size. unfold below_keys. set_solver. Qed.

Lemma walk_names_some (sub : string → option (list string)) (xs : list string) :
  (∀ x, x ∈ xs → is_Some (sub x)) → is_Some (walk_names sub xs).
Proof.
  induction xs as [|x xs IH]; intros Hs; simpl; [by eexists|].
  destruct (ishidden x); [apply IH; intros y Hy; apply Hs; by right|].
  destruct (Hs x (list_elem_of_here _ _)) as [ys ->]. simpl.
  destruct IH as [rest ->]; [intros y Hy; apply Hs; by right|]. by eexists.
Qed.

Lemma rlistdir_names_some `{!ScandirOrderOk} (w : world) (n : nat) :
  wf_world w →
  ∀ d, d ≠ "" → 0 < n → (∀ q, resolve w d = inr q → size (below_keys (fs w) q) < n) →
  is_Some (rlistdir_names n w d).
Proof.
  intros Hw. induction n as [|n IH]; intros d Hd Hn Hq; [lia|]. cbn [rlistdir_names].
  destruct (String.eqb_spec d "") as [|_]; [done|].
  destruct (scandir w d) as [e|ns] eqn:Hs; [by eexists|].
  destruct (scandir_children w d ns Hw Hs) as (q & Hr & Hdir & Hns).
  apply walk_names_some. intros x Hx. destruct (Hns x Hx) as [Hv Hex].
  pose proof (Hq q Hr) as Hlt. pose proof (below_keys_child _ _ _ Hex) as Hsub%subset_size.
  pose proof (resolve_join1 w d x q Hd Hr Hdir Hv) as Hrj.
  rewrite glob_join_name by (done || by destruct Hv).
  apply IH; [by intros E; rewrite E in Hrj|lia|]. intros q' Hq'. rewrite Hrj in Hq'.
  injection Hq' as <-. lia.
Qed.

(** [_rlistdir] lists exactly the entries below the directory whose path
    relative to it has no hidden component: [**] skips a name starting
    with ['.'] and everything below it. *)
Lemma rlistdir_names_spec `{!ScandirOrderOk} (w : world) (n : nat) :
  wf_world w → ∀ d q names, d ≠ "" → resolve w d = inr q → rlistdir_names n w d = Some names →
  ∀ y, y ∈ names ↔ below_visible w q y.
Proof.
  intros Hw. induction n as [|n IH]; intros d q names Hd Hr Hn y; [done|].
  cbn [rlistdir_names] in Hn. rewrite (proj2 (String.eqb_neq d "") Hd) in Hn.
  unfold scandir in Hn. rewrite Hr in Hn.
  destruct (fs w !! q) as [[c|]|] eqn:Hq.
  1,3: injection Hn as <-; split; [by intros ?%elem_of_nil|intros Hb];
    apply (below_visible_dir w _ _ Hw) in Hb; congruence.
  rewrite (walk_names_iff _ _ _ Hn y).
  assert (Hxs : ∀ x, x ∈ scandir_order q (child_names (fs w) q) ↔ is_Some (fs w !! (q ++ [x])))
    by (intros x; by rewrite (scandir_order_perm q), elem_of_child_names).
  assert (Hsub : ∀ x, is_Some (fs w !! (q ++ [x])) → glob_join d x ≠ "" ∧
                   resolve w (glob_join d x) = inr (q ++ [x])).
  { intros x Hx. assert (Hv : valid_name x).
    { destruct Hx as [m Hm]. apply (wf_names _ Hw), Forall_app in Hm as [_ Hm]. by inversion Hm. }
    rewrite glob_join_name by (done || by destruct Hv). pose proof (resolve_join1 w d x q Hd Hr Hq Hv) as Hj.
    split; [|done]. intros E. by rewrite E in Hj. }
  split.
  - intros (x & Hx%Hxs & Hh & [->|(ys & z & Hs & Hz & ->)]).
    + exists [x]. split; [done|]. split; [by constructor|]. by split.
    + destruct (Hsub x Hx) as [Hne Hrj].
      destruct (proj1 (IH _ _ _ Hne Hrj Hs z) Hz) as (rel & Hrel & Hh' & Hex & ->).
      rewrite <- app_assoc in Hex. pose proof (wf_names_plain _ _ _ Hw Hex) as Hp.
      inversion Hp as [|? ? Hpx Hpr]; subst. destruct rel as [|r rs]; [done|].
      exists (x :: r :: rs). split; [done|]. split; [by constructor|]. split; [done|].
      inversion Hpr as [|? ? Hpr1 _]; subst.
      rewrite glob_join_name by first [by destruct Hpx | by apply join_with_nonempty].
      by apply join_join_with.
  - intros (rel & Hne & Hh & Hex & ->). destruct rel as [|x rel]; [done|].
    inversion Hh as [|? ? Hhx Hhr]; subst.
    assert (Hx : is_Some (fs w !! (q ++ [x]))) by (apply (wf_prefix_some _ _ rel Hw); by rewrite <- app_assoc).
    exists x. split; [by apply Hxs|]. split; [done|]. destruct rel as [|r rs]; [by left|]. right.
    destruct (walk_names_sub_some _ _ _ x Hn (proj2 (Hxs x) Hx) Hhx) as [ys Hs].
    destruct (Hsub x Hx) as [Hne' Hrj]. exists ys, (join_with "/"%char (r :: rs)).
    pose proof (wf_names_plain _ _ _ Hw Hex) as Hp. inversion Hp as [|? ? Hpx Hpr]; subst.
    inversion Hpr as [|? ? Hpr1 _]; subst.
    split; [done|]. split.
    + apply (IH _ _ _ Hne' Hrj Hs). exists (r :: rs). split; [done|]. split; [done|].
      split; [by rewrite <- app_assoc|done].
    + rewrite glob_join_name by first [by destruct Hpx | by apply join_with_nonempty].
      symmetry. by apply join_join_with.
Qed.

(** [glob.iglob(d + '/**', recursive=True)] lists [d/] itself when [d] is
    a directory, and every visible entry below it, joined to [d]. *)
Lemma iglob_names_spec `{!ScandirOrderOk} (fuel : nat) (w : world) (pathname : string)
    (q names : list string) :
  wf_world w → dirname pathname ≠ "" → resolve w (dirname pathname) = inr q →
  iglob_names fuel w pathname = Some names →
  ∀ y, y ∈ names ↔ (isdir w (dirname pathname) = true ∧ y = PosixPath.join (dirname pathname) [""]) ∨
                   ∃ z, below_visible w q z ∧ y = PosixPath.join (dirname pathname) [z].
Proof.
  intros Hw Hd Hr Hn y. unfold iglob_names in Hn.
  destruct (rlistdir_names fuel w (dirname pathname)) as [ns|] eqn:Hns; [|done].
  injection Hn as <-. pose proof (rlistdir_names_spec w fuel Hw _ q ns Hd Hr Hns) as Hspec.
  rewrite list_elem_of_fmap. split.
  - intros (z & -> & Hz). apply elem_of_app in Hz as [Hz|Hz].
    + destruct (isdir w (dirname pathname)); [|by apply elem_of_nil in Hz].
      apply list_elem_of_singleton in Hz as ->. by left.
    + right. exists z. split; [by apply Hspec|done].
  - intros [[Hi ->]|(z & Hz & ->)].
    + exists "". split; [done|]. rewrite Hi. apply elem_of_app. left. by left.
    + exists z. split; [done|]. apply elem_of_app. right. by apply Hspec.
Qed.


(** ** The listing depends only on the tree around the walked directory,
    and more fuel does not change it *)

Lemma walk_names_ext (sub1 sub2 : string → option (list string)) (xs : list string) :
  (∀ x, x ∈ xs → sub1 x = sub2 x) → walk_names sub1 xs = walk_names sub2 xs.
Proof.
  induction xs as [|x xs IH]; intros Hs; [done|]. simpl.
  rewrite Hs by by left. rewrite IH by (intros y Hy; apply Hs; by right). done.
Qed.

Lemma walk_names_mono (sub1 sub2 : string → option (list string)) (xs ns : list string) :
  (∀ x ys, sub1 x = Some ys → sub2 x = Some ys) →
  walk_names sub1 xs = Some ns → walk_names sub2 xs = Some ns.
Proof.
  intros Hs. revert ns. induction xs as [|x xs IH]; intros ns; [done|]. simpl.
  destruct (ishidden x); [apply IH|].
  destruct (sub1 x) as [ys|] eqn:E; [|done]. rewrite (Hs x ys E). simpl.
  destruct (walk_names sub1 xs) as [rest|]; [|done]. by rewrite (IH rest).
Qed.

Lemma rlistdir_names_succ (w : world) (n : nat) :
  ∀ d ns, rlistdir_names n w d = Some ns → rlistdir_names (S n) w d = Some ns.
Proof.
  induction n as [|n IH]; intros d ns; [done|]. cbn [rlistdir_names].
  apply walk_names_mono. intros x ys. apply IH.
Qed.

Lemma rlistdir_names_le (w : world) (n1 n2 : nat) (d : string) (ns : list string) :
  n1 ≤ n2 → rlistdir_names n1 w d = Some ns → rlistdir_names n2 w d = Some ns.
Proof. induction 1; [done|]. intros Hn. by apply rlistdir_names_succ, IHle, Hn. Qed.

Lemma iglob_names_le (w : world) (n1 n2 : nat) (p : string) (ns : list string) :
  n1 ≤ n2 → iglob_names n1 w p = Some ns → iglob_names n2 w p = Some ns.
Proof.
  intros Hle. unfold iglob_names.
  destruct (rlistdir_names n1 w _) as [r|] eqn:E; [|done].
  by rewrite (rlistdir_names_le w n1 n2 _ r).
Qed.

Lemma rlistdir_names_agree `{!ScandirOrderOk} (w w' : world) (n : nat) :
  wf_world w →
  ∀ d q, d ≠ "" → plain (components d) → resolve w d = inr q → agree_around q w w' →
  rlistdir_names n w' d = rlistdir_names n w d.
Proof.
  intros Hw. induction n as [|n IH]; intros d q Hd Hp Hr Ha; [done|]. cbn [rlistdir_names].
  destruct (String.eqb_spec d "") as [|_]; [done|].
  rewrite (scandir_agree w w' d q) by done.
  destruct (scandir w d) as [e|ns] eqn:Hs; [done|].
  destruct (scandir_children w d ns Hw Hs) as (q' & Hr' & Hq & Hns).
  rewrite Hr in Hr'. injection Hr' as <-.
  apply walk_names_ext. intros x Hx. destruct (Hns x Hx) as [Hv _].
  rewrite glob_join_name by (done || by destruct Hv).
  pose proof (resolve_join1 w d x q Hd Hr Hq Hv) as Hrj.
  apply (IH _ (q ++ [x])); [by intros E; rewrite E in Hrj| |done|by apply agree_around_child].
  rewrite components_join1 by (by apply valid_plain_name).
  apply Forall_app. split; [done|]. constructor; [by apply valid_not_special|done].
Qed.

Lemma iglob_names_agree `{!ScandirOrderOk} (w w' : world) (n : nat) (p : string) (q : list string) :
  wf_world w → dirname p ≠ "" → plain (components (dirname p)) →
  resolve w (dirname p) = inr q → agree_around q w w' →
  iglob_names n w' p = iglob_names n w p.
Proof.
  intros Hw Hd Hp Hr Ha. unfold iglob_names.
  rewrite (rlistdir_names_agree w w' n Hw _ q) by done.
  assert (Hi : isdir w' (dirname p) = isdir w (dirname p)).
  { unfold isdir. destruct Ha as [Hc Hk].
    rewrite (stat_agree_plain w w' _ q) by (try done; intros k Hkq; apply Hk; by left). done. }
  by rewrite Hi.
Qed.

Lemma listdir_agree (w w' : world) (d : string) (q : list string) :
  d ≠ "" → plain (components d) → resolve w d = inr q → agree_around q w w' →
  listdir d w' = (inr (match scandir w d with inl _ => [] | inr ns => ns end), w').
Proof.
  intros Hd Hp Hr Ha. unfold listdir, mbind, StExc_bind. rewrite StExc.bind_get.
  destruct (String.eqb_spec d "") as [|_]; [done|].
  rewrite (scandir_agree w w' d q) by done. by destruct (scandir w d).
Qed.

(** [for y in _rlistdir(dirname): body(y)] runs [body] on the names of
    [rlistdir_names], in order, when every run of [body] keeps the tree
    around the walked directory ([P] implies [agree_around]). *)
Lemma rlistdir_for_eager `{!ScandirOrderOk} (P : world → Prop) (w : world) (fuel : nat) :
  wf_world w →
  ∀ dirname q names, dirname ≠ "" → plain (components dirname) → resolve w dirname = inr q →
  (∀ w', P w' → agree_around q w w') →
  rlistdir_names fuel w dirname = Some names →
  ∀ body, (∀ n, n ∈ names → StExc.preserves P (body n)) →
  ∀ w', P w' → rlistdir_for fuel dirname body w' = StExc.mfor names body w'.
Proof.
  intros Hw. induction fuel as [|n IH]; intros d q names Hd Hp Hr HP Hn body Hb w' Hw'; [done|].
  cbn [rlistdir_names] in Hn. cbn [rlistdir_for].
  unfold mbind at 1, StExc_bind at 1.
  rewrite (StExc.bind_inr _ _ _ _ _ (listdir_agree w w' d q Hd Hp Hr (HP w' Hw'))).
  destruct (String.eqb_spec d "") as [|_]; [done|].
  destruct (scandir w d) as [e|ns] eqn:Hs; [by injection Hn as <-|].
  destruct (scandir_children w d ns Hw Hs) as (q' & Hr' & Hq & Hns).
  rewrite Hr in Hr'. injection Hr' as <-.
  apply (walk_names_mfor P body (λ x, rlistdir_names n w (glob_join d x))
           (λ x b, rlistdir_for n (glob_join d x) b) ns names); [done| |done|done].
  intros x ys Hx Hh Hys w'' Hw''. destruct (Hns x Hx) as [Hv _].
  assert (Hb' : ∀ y, y ∈ ys → StExc.preserves P (body (glob_join x y)))
    by (intros y Hy; apply Hb; by eapply walk_names_elem).
  rewrite glob_join_name in Hys |- * by (done || by destruct Hv).
  pose proof (resolve_join1 w d x q Hd Hr Hq Hv) as Hrj.
  apply (IH _ (q ++ [x]) ys); try done.
  - intros E. by rewrite E in Hrj.
  - rewrite components_join1 by (by apply valid_plain_name).
    apply Forall_app. split; [done|]. constructor; [by apply valid_not_special|done].
  - intros w3 H3. apply agree_around_child. by apply HP.
Qed.

Lemma rlistdir_unresolved (w : world) (fuel : nat) (d : string) (e : errno) (names : list string)
    (body : string → PyM unit) :
  d ≠ "" → resolve w d = inl e → rlistdir_names fuel w d = Some names →
  names = [] ∧ rlistdir_for fuel d body w = (inr tt, w).
Proof.
  intros Hd Hr Hn. destruct fuel as [|n]; [done|]. cbn [rlistdir_names rlistdir_for] in *.
  destruct (String.eqb_spec d "") as [|_]; [done|].
  assert (Hs : scandir w d = inl e) by (unfold scandir; by rewrite Hr).
  rewrite Hs in Hn. injection Hn as <-. split; [done|].
  assert (Hl : listdir d w = (inr [], w)).
  { unfold listdir, mbind, StExc_bind. rewrite StExc.bind_get.
    destruct (String.eqb_spec d "") as [|_]; [done|]. by rewrite Hs. }
  unfold mbind at 1, StExc_bind at 1. by rewrite (StExc.bind_inr _ _ _ _ _ Hl).
Qed.

(** The eager form of a glob loop: [for filename in glob.iglob(dirname + '**', recursive=True):
    body(filename)] runs [body] on the names of [iglob_names], in order,
    when every run of [body] keeps the tree around the walked directory. *)
Lemma iglob_for_eager `{!ScandirOrderOk} (P : world → Prop) (fuel : nat) (pathname : string)
    (body : string → PyM unit) (w : world) (names : list string) :
  wf_world w → basename pathname = "**" → dirname pathname ≠ "" →
  has_magic (dirname pathname) = false → plain (components (dirname pathname)) →
  (∀ q w', resolve w (dirname pathname) = inr q → P w' → agree_around q w w') →
  iglob_names fuel w pathname = Some names →
  (∀ n, n ∈ names → StExc.preserves P (body n)) → P w →
  iglob_for fuel pathname body w = StExc.mfor names body w.
Proof.
  intros Hw Hb Hd Hm Hp HP Hn Hbody Hw0. unfold iglob_names in Hn.
  set (d := dirname pathname) in *.
  destruct (rlistdir_names fuel w d) as [ns|] eqn:Hns; [|done]. injection Hn as <-.
  assert (Hbody' : ∀ n, n ∈ ((if isdir w d then [""] else []) ++ ns) →
            StExc.preserves P (body (PosixPath.join d [n])))
    by (intros n Hn; apply Hbody, (list_elem_of_fmap_2 (λ n, PosixPath.join d [n])), Hn).
  unfold iglob_for, PosixPath.split. fold d. rewrite Hb, eqb_refl. unfold glob2_for.
  destruct (String.eqb_spec d "") as [|_]; [done|]. rewrite Hm, andb_false_r. cbn [negb orb].
  unfold mbind, StExc_bind, mret, StExc_ret. rewrite StExc.bind_get, StExc.mfor_map.
  destruct (resolve w d) as [e|q] eqn:Hr.
  - assert (Hi : isdir w d = false) by (unfold isdir, stat; by rewrite Hr).
    rewrite Hi. cbn [app]. rewrite StExc.bind_ret_l.
    by destruct (rlistdir_unresolved w fuel d e ns (λ n, body (PosixPath.join d [n])) Hd Hr Hns)
      as [-> ->].
  - rewrite StExc.mfor_app.
    assert (He : ∀ w', P w' → rlistdir_for fuel d (λ n, body (PosixPath.join d [n])) w' =
                               StExc.mfor ns (λ n, body (PosixPath.join d [n])) w')
      by (intros w' Hw'; apply (rlistdir_for_eager P w fuel Hw d q ns Hd Hp Hr
            (λ w'' H'', HP q w'' eq_refl H'') Hns _
            (λ n Hn, Hbody' n (proj2 (elem_of_app _ _ _) (or_intror Hn))) w' Hw')).
    destruct (isdir w d); cbn [app StExc.mfor].
    + unfold StExc.bind. pose proof (Hbody' "" (list_elem_of_here _ _) w Hw0) as Hw1.
      destruct (body _ w) as [[e|[]] w1]; [done|]. by rewrite He.
    + rewrite !StExc.bind_ret_l. by apply He.
Qed.

Lemma iglob_names_some `{!ScandirOrderOk} (fuel : nat) (w : world) (pathname : string) :
  wf_world w → dirname pathname ≠ "" → size (fs w) < fuel → is_Some (iglob_names fuel w pathname).
Proof.
  intros Hw Hd Hf. unfold iglob_names.
  destruct (rlistdir_names_some w fuel Hw (dirname pathname) Hd ltac:(lia)) as [ns ->].
  - intros q _. pose proof (below_keys_size (fs w) q). lia.
  - by eexists.
Qed.

(** Two fuels that both complete the listing give the same listing. *)
Lemma iglob_names_fuel_eq (w : world) (n1 n2 : nat) (p : string) :
  is_Some (iglob_names n1 w p) → is_Some (iglob_names n2 w p) →
  iglob_names n1 w p = iglob_names n2 w p.
Proof.
  intros [ns1 H1] [ns2 H2]. destruct (Nat.le_ge_cases n1 n2) as [Hle|Hle].
  - by rewrite (iglob_names_le w n1 n2 p ns1 Hle H1) in H2 |- *.
  - by rewrite (iglob_names_le w n2 n1 p ns2 Hle H2) in H1 |- *.
Qed.

End Glob.
End Glob.
