(* ===== verification/Matcher.v ===== *)
(** * The template matcher [re.compile(r'^.*\.tmpl\.[a-zA-Z0-9_]+$')]

    [template_matcher.search(filename)] decides which files of the template
    root are rendered.  The pattern is anchored at the start ([^], no
    [MULTILINE]), so [search] tries position 0 only; [.] matches any
    character but a newline; [$] matches at the end of the string or before
    a newline that ends it.  [template_search] is the decision procedure the
    script's call computes; [template_lang] is the language of the regex,
    written as the shape of the strings it accepts; they are proved equal. *)

From S2P Require Import Prelude PyStr.

Module Matcher.
Import PyStr.

Definition newline : ascii := "010"%char.

(** [[a-zA-Z0-9_]] *)
Definition word_char (c : ascii) : bool :=
  let n := nat_of_ascii c in
  ((97 <=? n) && (n <=? 122)) || ((65 <=? n) && (n <=? 90)) ||
  ((48 <=? n) && (n <=? 57)) || (n =? 95).

Fixpoint all_word (s : string) : bool :=
  match s with
  | "" => true
  | String.String c s' => word_char c && all_word s'
  end.

(** [[a-zA-Z0-9_]+$]: one or more word characters, then the end of the
    string, possibly after one final newline. *)
Definition word_tail (t : string) : bool :=
  (negb (String.eqb t "") && all_word t) ||
  (endswith t (String.String newline "") &&
   let w := stake (String.length t - 1) t in negb (String.eqb w "") && all_word w).

(** [.*\.tmpl\.] followed by [word_tail]: [.*] consumes characters other
    than a newline. *)
Fixpoint tmpl_from (s : string) : bool :=
  (String.prefix ".tmpl." s && word_tail (sdrop 6 s)) ||
  match s with
  | "" => false
  | String.String c s' => negb (bool_decide (c = newline)) && tmpl_from s'
  end.

(** [template_matcher.search(filename) is not None] *)
Definition template_search (filename : string) : bool := tmpl_from filename.

Fixpoint no_newline (s : string) : bool :=
  match s with
  | "" => true
  | String.String c s' => negb (bool_decide (c = newline)) && no_newline s'
  end.

(** The strings the regex matches. *)
Inductive template_lang : string → Prop :=
| template_lang_intro (p w e : string) :
    no_newline p = true → w ≠ "" → all_word w = true →
    e = "" ∨ e = String.String newline "" →
    template_lang (p +:+ ".tmpl." +:+ w +:+ e).

Lemma word_tail_spec (t : string) :
  word_tail t = true ↔
  ∃ w e, t = w +:+ e ∧ w ≠ "" ∧ all_word w = true ∧
         (e = "" ∨ e = String.String newline "").
Proof.
  unfold word_tail. rewrite orb_true_iff, !andb_true_iff, negb_true_iff.
  split.
  - intros [[Hne Hw] | [He [Hne Hw]]].
    + exists t, "". rewrite append_nil_r. split; [done|].
      split; [by intros ->|]. auto.
    + apply endswith_spec in He as [r ->]. rewrite length_append in Hne, Hw.
      simpl in Hne, Hw. replace (String.length r + 1 - 1) with (String.length r) in Hne, Hw by lia.
      rewrite stake_append in Hne, Hw. exists r, (String.String newline "").
      split; [done|]. split; [by intros ->|]. auto.
  - intros [w [e [-> [Hne [Hw [-> | ->]]]]]].
    + left. rewrite append_nil_r. split; [|done]. by destruct w.
    + right. split; [apply endswith_spec; by exists w|].
      rewrite length_append. simpl.
      replace (String.length w + 1 - 1) with (String.length w) by lia.
      rewrite stake_append. split; [|done]. by destruct w.
Qed.

Lemma template_lang_iff (s : string) :
  template_lang s ↔
  ∃ p w e, s = p +:+ ".tmpl." +:+ w +:+ e ∧ no_newline p = true ∧ w ≠ "" ∧
           all_word w = true ∧ (e = "" ∨ e = String.String newline "").
Proof.
  split; [intros []; eauto 10|]. intros (p & w & e & -> & ? & ? & ? & ?). by constructor.
Qed.

(** C4: the decision procedure of the template matcher accepts exactly the
    strings of the regex's language. *)
Theorem template_search_correct (s : string) :
  template_search s = true ↔ template_lang s.
Proof.
  unfold template_search. rewrite template_lang_iff. induction s as [|c s IH].
  - split; [done|]. intros (p & w & e & Hs & _). destruct p; discriminate.
  - cbn [tmpl_from]. rewrite orb_true_iff, andb_true_iff, andb_true_iff, IH.
    split.
    + intros [[Hp Ht] | [Hc (p & w & e & Hs & Hp & Hrest)]].
      * apply prefix_spec in Hp as [r Hr]. rewrite Hr in Ht.
        change 6 with (String.length ".tmpl.") in Ht. rewrite sdrop_append in Ht.
        apply word_tail_spec in Ht as [w [e [-> Hw]]]. exists "", w, e.
        rewrite Hr. auto.
      * exists (String.String c p), w, e. rewrite append_cons, Hs. simpl.
        rewrite Hc, Hp. auto.
    + intros ([|d p] & w & e & Hs & Hp & Hw & Haw & He).
      * left. rewrite append_nil_l in Hs. rewrite Hs.
        split; [apply prefix_append|].
        change 6 with (String.length ".tmpl."). rewrite sdrop_append.
        apply word_tail_spec. eauto 6.
      * right. rewrite append_cons in Hs. injection Hs as -> Hs.
        simpl in Hp. apply andb_true_iff in Hp as [Hc Hp]. split; [done|].
        exists p, w, e. auto.
Qed.

(** The comment of line 83 says that files whose name matches [*.tmpl.*]
    are rendered.  The regex asks for a single run of word characters after
    [.tmpl.], up to the end: a minified or hyphenated extension is copied
    unrendered. *)
Example template_search_compound_extension :
  template_search "data/webui/template/x.tmpl.html" = true ∧
  template_search "data/webui/template/x.tmpl.min.js" = false ∧
  template_search "data/webui/template/x.tmpl.foo-bar" = false.
Proof. vm_compute. auto. Qed.

End Matcher.
