(* ===== verification/Host.v ===== *)
(** * The libraries [build_webui.py] calls: interfaces and instances

    The script calls four libraries whose code is not part of it: PyYAML
    ([load(open(path), Loader=Loader)]), Jinja2 ([Environment],
    [FileSystemLoader], [get_template], [render]), [configparser], and the
    OS's directory order (in [FileSys.ScandirOrder]).  Their contracts with
    the script are type classes: [Yaml] parses a document's text, [Jinja]
    renders a template's source with a configuration, [ConfigParser] parses
    an INI text and looks up [config[section][key]].  [LibErrors] states
    that each library raises only its own exceptions, never the model's
    [OutOfFuel]; the instances below satisfy it.  What Jinja does with
    the file system is translated here from Jinja2 3.1
    ([split_template_path], [FileSystemLoader.get_source]), since it reads
    the modelled files.  [Instances] gives concrete instances (a line-based
    YAML subset, a [{{ name }}] renderer with Jinja's default [Undefined]
    that renders as the empty string, a section-and-key INI subset) used by
    the witnesses. *)

From S2P Require Import Prelude PyStr PosixPath FileSys.

Module Host.
Import PyStr PosixPath FileSys.

(** [load(text, Loader=Loader)] *)
Class Yaml := {
  yaml_doc : Type;
  yaml_load : string → exc + yaml_doc
}.

(** [Environment.get_template(name)] compiles the source and
    [Template.render(config)] renders it; either may raise. *)
Class Jinja `{Yaml} := {
  jinja_render : string → yaml_doc → exc + string
}.

(** [ConfigParser.read] parses a file's text (a syntax error raises);
    [config[section][key]] raises [KeyError] when either is missing. *)
Class ConfigParser := {
  ini_doc : Type;
  ini_empty : ini_doc;
  ini_parse : string → exc + ini_doc;
  ini_lookup : ini_doc → string → string → exc + string
}.

(** The libraries raise their own exceptions ([YAMLError], a template or
    configparser error, [KeyError]), never the model's [OutOfFuel]. *)
Class LibErrors `{Yaml} `{!Jinja} `{ConfigParser} : Prop := {
  yaml_load_no_fuel : ∀ t e, yaml_load t = inl e → no_fuel e;
  jinja_render_no_fuel : ∀ src c e, jinja_render src c = inl e → no_fuel e;
  ini_parse_no_fuel : ∀ t e, ini_parse t = inl e → no_fuel e;
  ini_lookup_no_fuel : ∀ d sec k e, ini_lookup d sec k = inl e → no_fuel e
}.

(** A library result inside the script's monad. *)
Definition lift {A} (r : exc + A) : PyM A := λ w, (r, w).

(** [ConfigParser.read(filename)]: a file that cannot be opened is skipped
    silently, leaving the configuration empty. *)
Definition configparser_read `{ConfigParser} (filename : string) : PyM ini_doc :=
  w ← StExc.get;
  match stat w filename with
  | inr (File text) => lift (ini_parse text)
  | _ => mret ini_empty
  end.

(** [jinja2.loaders.split_template_path(template)]:
<<
    pieces = []
    for piece in template.split("/"):
        if (os.path.sep in piece or (os.path.altsep and os.path.altsep in piece)
                or piece == os.path.pardir):
            raise TemplateNotFound(template)
        elif piece and piece != ".":
            pieces.append(piece)
    return pieces
>> *)
Definition split_template_path (template : string) : exc + list string :=
  foldl (λ acc piece,
    match acc with
    | inl e => inl e
    | inr pieces =>
        if contains "/" piece || String.eqb piece ".." then inl (TemplateNotFound template)
        else if negb (String.eqb piece "") && negb (String.eqb piece ".")
        then inr (pieces ++ [piece]) else inr pieces
    end) (inr []) (PyStr.split "/"%char template).

(** [FileSystemLoader(searchpath).get_source(environment, template)]:
    the first search path under which the template is a file is read. *)
Definition get_source (searchpath : list string) (template : string) : PyM string :=
  pieces ← lift (split_template_path template);
  w ← StExc.get;
  match find (λ sp, isfile w (PosixPath.join sp pieces)) searchpath with
  | Some sp => read_text (PosixPath.join sp pieces)
  | None => StExc.raise (TemplateNotFound template)
  end.

Lemma lift_preserves {A} (P : world → Prop) (r : exc + A) : StExc.preserves P (lift r).
Proof. by intros w. Qed.

Lemma configparser_read_preserves `{ConfigParser} (P : world → Prop) (filename : string) :
  StExc.preserves P (configparser_read filename).
Proof.
  apply preserves_mbind; [auto with pystr|]. intros w.
  destruct (stat w filename) as [e|[d|]]; auto using lift_preserves with pystr.
Qed.

Lemma get_source_preserves (P : world → Prop) (searchpath : list string) (template : string) :
  StExc.preserves P (get_source searchpath template).
Proof.
  apply preserves_mbind; [apply lift_preserves|]. intros pieces.
  apply preserves_mbind; [auto with pystr|]. intros w.
  destruct (find _ _); auto with pystr.
Qed.

Lemma lift_no_fuel {A} (r : exc + A) :
  (∀ e, r = inl e → no_fuel e) → StExc.raises_only no_fuel (lift r).
Proof. intros Hr w e w' [= He _]. by apply Hr. Qed.

Lemma configparser_read_no_fuel `{ConfigParser} (filename : string) :
  (∀ t e, ini_parse t = inl e → no_fuel e) → StExc.raises_only no_fuel (configparser_read filename).
Proof.
  intros Hp. apply raises_only_mbind; [auto with raises|]. intros w.
  destruct (stat w filename) as [e|[d|]]; [auto with raises| |auto with raises].
  apply lift_no_fuel. apply Hp.
Qed.

(** A [foldl] whose step raises only [no_fuel] exceptions, or passes one on. *)
Lemma foldl_no_fuel {A B} (g : exc + A → B → exc + A) (xs : list B) (acc : exc + A) :
  (∀ acc x, (∀ e, acc = inl e → no_fuel e) → ∀ e, g acc x = inl e → no_fuel e) →
  (∀ e, acc = inl e → no_fuel e) → ∀ e, foldl g acc xs = inl e → no_fuel e.
Proof.
  intros Hg. revert acc. induction xs as [|x xs IH]; intros acc Hacc; [done|].
  apply IH. by apply Hg.
Qed.

Lemma get_source_no_fuel (searchpath : list string) (template : string) :
  StExc.raises_only no_fuel (get_source searchpath template).
Proof.
  apply raises_only_mbind; [apply lift_no_fuel, foldl_no_fuel; [|done]|intros pieces].
  { intros [e|p] x Hacc e' He'; [by apply Hacc|].
    destruct (_ || _); [by injection He' as <-|]. by destruct (_ && _). }
  apply raises_only_mbind; [auto with raises|]. intros w.
  destruct (find _ _); [apply read_text_no_fuel|by apply StExc.raises_only_raise].
Qed.

(** The loader reads the tree: its result depends on the tree and the
    working directory only, and it changes nothing. *)
Lemma get_source_ext (searchpath : list string) (template : string) (w w' : world) :
  fs w' = fs w → cwd w' = cwd w →
  get_source searchpath template w' = ((get_source searchpath template w).1, w').
Proof.
  intros Hf Hc. unfold get_source, lift. run_simpl.
  destruct (split_template_path template) as [e|pieces]; simpl; [done|].
  assert (Hi : ∀ p, isfile w' p = isfile w p) by (intros p; unfold isfile; by rewrite (stat_ext w w')).
  assert (Hfind : find (λ sp, isfile w' (PosixPath.join sp pieces)) searchpath =
                  find (λ sp, isfile w (PosixPath.join sp pieces)) searchpath)
    by (induction searchpath as [|sp sps IH]; simpl; [done|]; by rewrite Hi, IH).
  rewrite Hfind. clear Hfind.
  destruct (find (λ sp, isfile w (PosixPath.join sp pieces)) searchpath); simpl;
    [by apply read_text_ext|done].
Qed.

#[export] Hint Resolve lift_preserves configparser_read_preserves get_source_preserves : pystr.

End Host.

(** * Concrete instances of the library interfaces

    Small but real implementations, used to run the script on concrete
    trees: YAML documents of [key: value] lines, templates whose only
    construct is [{{ name }}] (an unknown name renders as the empty string,
    as Jinja's default [Undefined] does; an unclosed [{{] is a syntax
    error), INI files of [[section]] headers and [key = value] lines, and
    directories listed in the order of the model's map. *)
Module Instances.
Import PyStr FileSys Host.

(** [str.strip(' ')] *)
Fixpoint lstrip_space (s : string) : string :=
  match s with
  | String.String " "%char s' => lstrip_space s'
  | _ => s
  end.

Definition strip_space (s : string) : string := rstrip " "%char (lstrip_space s).

Definition assoc (k : string) (l : list (string * string)) : option string :=
  snd <$> find (λ kv, String.eqb kv.1 k) l.

Definition yaml_line (l : string) : exc + list (string * string) :=
  if String.eqb (strip_space l) "" then inr [] else
  match PyStr.split ":"%char l with
  | k :: v :: rest => inr [(strip_space k, strip_space (join_with ":"%char (v :: rest)))]
  | _ => inl (YAMLError l)
  end.

#[export] Instance yaml_lines : Yaml := {
  yaml_doc := list (string * string);
  yaml_load text :=
    foldl (λ acc l, match acc, yaml_line l with
                    | inr d, inr kv => inr (d ++ kv)
                    | inl e, _ => inl e
                    | _, inl e => inl e
                    end) (inr []) (PyStr.split "010"%char text)
}.

Fixpoint render_scan (cfg : list (string * string)) (var : option string) (s : string)
    : exc + string :=
  match var, s with
  | None, "" => inr ""
  | Some _, "" => inl (TemplateError "unexpected end of template")
  | None, String.String "{"%char (String.String "{"%char s') => render_scan cfg (Some "") s'
  | None, String.String c s' =>
      match render_scan cfg None s' with inl e => inl e | inr r => inr (String.String c r) end
  | Some v, String.String "}"%char (String.String "}"%char s') =>
      match render_scan cfg None s' with
      | inl e => inl e
      | inr r => inr (default "" (assoc (strip_space v) cfg) +:+ r)
      end
  | Some v, String.String c s' => render_scan cfg (Some (v +:+ String.String c "")) s'
  end.

#[export] Instance jinja_subst : Jinja := {
  jinja_render src cfg := render_scan cfg None src
}.

Definition ini_line (acc : exc + list (string * list (string * string))) (l : string)
    : exc + list (string * list (string * string)) :=
  match acc with
  | inl e => inl e
  | inr secs =>
      let l' := strip_space l in
      match l' with
      | "" => inr secs
      | String.String "["%char rest =>
          if endswith rest "]" then inr (secs ++ [(stake (String.length rest - 1) rest, [])])
          else inl (ConfigParserError l)
      | _ =>
          match PyStr.split "="%char l', reverse secs with
          | k :: v :: vs, (name, kvs) :: older =>
              inr (reverse older ++ [(name, kvs ++ [(strip_space k, strip_space (join_with "="%char (v :: vs)))])])
          | _, _ => inl (ConfigParserError l)
          end
      end
  end.

#[export] Instance ini_sections : ConfigParser := {
  ini_doc := list (string * list (string * string));
  ini_empty := [];
  ini_parse text := foldl ini_line (inr []) (PyStr.split "010"%char text);
  ini_lookup doc sec key :=
    match snd <$> find (λ s, String.eqb s.1 sec) doc with
    | None => inl (KeyError sec)
    | Some kvs => match assoc key kvs with None => inl (KeyError key) | Some v => inr v end
    end
}.

#[export] Instance scandir_map_order : ScandirOrder := λ _ names, names.

#[export] Instance scandir_map_order_ok : ScandirOrderOk.
Proof. by intros q names. Qed.

Lemma render_scan_no_fuel (cfg : list (string * string)) (var : option string) (s : string)
    (e : exc) :
  render_scan cfg var s = inl e → no_fuel e.
Proof.
  remember (String.length s) as n eqn:Hn. revert var s Hn.
  induction n as [n IH] using lt_wf_ind; intros var [|c s] Hn; destruct var as [v|]; simpl;
    try by intros [= <-].
  all: simpl in Hn; repeat (case_match; simplify_eq; try done).
  all: intros He; first
    [ injection He as <-; match goal with H : render_scan _ _ _ = inl _ |- _ =>
        eapply IH; [|reflexivity|exact H]; simpl in *; lia end
    | eapply IH; [|reflexivity|exact He]; simpl in *; lia
    | by injection He as <- ].
Qed.

#[export] Instance lib_errors_instances : LibErrors.
Proof.
  split.
  - intros t. apply foldl_no_fuel; [|done]. intros [e|d] l Hacc e' He'; [by apply Hacc|].
    simpl in He'. destruct (yaml_line l) as [e0|kv] eqn:Hy; [injection He' as <-|done].
    unfold yaml_line in Hy. destruct (String.eqb _ ""); [done|].
    destruct (PyStr.split _ l) as [|k [|v rest]]; simplify_eq; done.
  - intros src c. apply render_scan_no_fuel.
  - intros t. apply foldl_no_fuel; [|done]. intros acc l Hacc e' He'. unfold ini_line in He'.
    repeat (case_match; simplify_eq; try done); by apply Hacc.
  - intros d sec k e. simpl. repeat case_match; by intros [= <-].
Qed.

End Instances.
