(* ===== verification/BuildWebui.v ===== *)
(** * [src/build_webui.py]: the script

    One definition per function of the script and one for its top level:
    [dst_path] and [prep_dst] (lines 7-16), [process_template] (19-26),
    [copy_file] (28-30), [resolve_context] for the two invocation modes
    (32-57), and [main] for the rest (59-99), with the three loops over
    [glob.iglob] as [common_loop], [template_loop] (whose body, lines
    87-91, is [template_body]) and [device_loop].  The
    libraries are the interfaces of [Host]; the walk of [glob] is [Glob]. *)

From S2P Require Import Prelude PyStr PosixPath FileSys Glob Matcher Host.

Module BuildWebui.
Import PyStr PosixPath FileSys Glob Matcher Host.

(** How the script is started: by PlatformIO, whose [Import("env")] gives
    the environment's [PIOENV] and [PROGRAM_ARGS], or standalone, where
    [Import] is undefined and the process environment is read. *)
Inductive invocation :=
| Standalone (environ : gmap string string)
| PlatformIO (pioenv : string) (program_args : list string).

(** The build context: [target], [build_platform], [build_data_dir]. *)
Record context := mkContext {
  target : string;
  build_platform : string;
  build_data_dir : option string
}.

(** [f"{x}"] of a value that may be [None]. *)
Definition py_str_opt (o : option string) : string :=
  match o with Some s => s | None => "None" end.

(** [not x] of an [os.environ.get] result. *)
Definition py_falsy (o : option string) : bool :=
  match o with Some s => String.eqb s "" | None => true end.

Section Script.
Context `{ScandirOrder} `{Yaml} `{!Jinja} `{ConfigParser}.

(** The destination computed by lines 8-12 of [prep_dst]. *)
Definition dst_path (fname build_platform prefix : string) (data_dir : option string) : string :=
  let rel_path := replace fname prefix "" in
  match data_dir with
  | None => PosixPath.join "data" [build_platform; rel_path]
  | Some d => PosixPath.join d [rel_path]
  end.

(** [prep_dst(fname, build_platform, prefix, data_dir)] *)
Definition prep_dst (fname build_platform prefix : string) (data_dir : option string)
    : PyM string :=
  let destination := dst_path fname build_platform prefix data_dir in
  let dest_dir := dirname destination in
  w ← StExc.get;
  (if path_exists w dest_dir then mret tt else makedirs dest_dir);;
  mret destination.

(** The template environment of line 59: the search path of its
    [FileSystemLoader]. *)
Definition template_env : list string := ["data/webui/template"].

Definition backslash : string := String.String "092"%char "".

(** [process_template(fname, build_platform, template_env, config, prefix,
    build_data_dir)] *)
Definition process_template (fname build_platform : string) (tenv : list string)
    (config : yaml_doc) (prefix : string) (build_data_dir : option string) : PyM unit :=
  print ("processing template file " +:+ fname);;
  source ← get_source tenv (replace (replace fname prefix "") backslash "/");
  r ← lift (jinja_render source config);
  destination ← prep_dst fname build_platform prefix build_data_dir;
  write_text (replace destination ".tmpl." ".") r.

(** [copy_file(fname, build_platform, prefix, build_data_dir)] *)
Definition copy_file (fname build_platform prefix : string) (build_data_dir : option string)
    : PyM unit :=
  destination ← prep_dst fname build_platform prefix build_data_dir;
  _ ← copy fname destination;
  mret tt.

(** Lines 32-57: the build context from either invocation mode. *)
Definition resolve_context (inv : invocation) : PyM context :=
  match inv with
  | Standalone environ =>
      print "Running build_webui.py outside the PlatformIO environment!";;
      print "Using environment variables:";;
      let target := environ !! "FUJINET_TARGET" in
      let build_platform := environ !! "FUJINET_BUILD_PLATFORM" in
      let build_data_dir := environ !! "BUILD_DATA_DIR" in
      print ("FUJINET_TARGET=" +:+ py_str_opt target);;
      print ("FUJINET_BUILD_PLATFORM=" +:+ py_str_opt build_platform);;
      if py_falsy target || py_falsy build_platform
      then StExc.raise (Exception "Missing environment variables")
      else mret (mkContext (py_str_opt target) (py_str_opt build_platform) build_data_dir)
  | PlatformIO pioenv program_args =>
      let target := if bool_decide ("dev" ∈ program_args) then "dev" else pioenv in
      pio_config ← configparser_read "platformio.ini";
      build_platform ← lift (ini_lookup pio_config "fujinet" "build_platform");
      mret (mkContext target build_platform None)
  end.

(** The fuel of a recursive glob: one more than the number of entries of
    the file system when the loop starts. *)
Definition glob_fuel (w : world) : nat := S (size (fs w)).

(** [for filename in glob.iglob(f'{prefix}**', recursive=True): body] *)
Definition glob_loop (prefix : string) (body : string → PyM unit) : PyM unit :=
  w ← StExc.get;
  iglob_for (glob_fuel w) (prefix +:+ "**") body.

(** Lines 78-81. *)
Definition common_loop (ctx : context) : PyM unit :=
  let common_prefix := PosixPath.join "data" ["webui"; "common"; ""] in
  glob_loop common_prefix (λ filename,
    w ← StExc.get;
    if isfile w filename
    then copy_file filename (build_platform ctx) common_prefix (build_data_dir ctx)
    else mret tt).

(** Lines 87-91: the body of the template loop, for one [filename]. *)
Definition template_body (ctx : context) (config : yaml_doc) (filename : string) : PyM unit :=
  let webui_template_prefix := PosixPath.join "data" ["webui"; "template"; ""] in
  w ← StExc.get;
  if isfile w filename then
    if template_search filename
    then process_template filename (build_platform ctx) template_env config
           webui_template_prefix (build_data_dir ctx)
    else copy_file filename (build_platform ctx) webui_template_prefix (build_data_dir ctx)
  else mret tt.

(** Lines 84-91. *)
Definition template_loop (ctx : context) (config : yaml_doc) : PyM unit :=
  let webui_template_prefix := PosixPath.join "data" ["webui"; "template"; ""] in
  glob_loop webui_template_prefix (template_body ctx config).

(** Lines 96-99. *)
Definition device_loop (ctx : context) : PyM unit :=
  let dev_specific_prefix :=
    PosixPath.join "data" ["webui"; "device_specific"; build_platform ctx; ""] in
  glob_loop dev_specific_prefix (λ filename,
    w ← StExc.get;
    if isfile w filename && negb (String.eqb filename ".keep")
    then copy_file filename (build_platform ctx) dev_specific_prefix (build_data_dir ctx)
    else mret tt).

(** The output directory of lines 70-73. *)
Definition output_root (ctx : context) : string :=
  match build_data_dir ctx with
  | None => PosixPath.join "data" [build_platform ctx]
  | Some d => d
  end.

(** The whole script. *)
Definition main (inv : invocation) : PyM unit :=
  ctx ← resolve_context inv;
  text ← read_text (PosixPath.join "data" ["webui"; "config"; target ctx +:+ ".yaml"]);
  config ← lift (yaml_load text);
  print (match build_data_dir ctx with
         | None => "Building webUI into data/" +:+ build_platform ctx
         | Some d => "Building webUI into " +:+ d
         end);;
  if negb (startswith (build_platform ctx) "BUILD_")
  then StExc.raise (Exception "build_platform does not match BUILD_*, aborting")
  else
    w ← StExc.get;
    (if isdir w (output_root ctx) then rmtree (output_root ctx) else mret tt);;
    common_loop ctx;;
    template_loop ctx config;;
    device_loop ctx.

(** ** The invariant: every run keeps the file system a well-formed tree *)

Lemma prep_dst_wf (fname bp prefix : string) (dd : option string) :
  StExc.preserves wf_world (prep_dst fname bp prefix dd).
Proof.
  apply preserves_mbind; [auto with pystr|]. intros w.
  apply preserves_mbind; [destruct (path_exists _ _); auto with pystr|]. auto with pystr.
Qed.

Lemma copy_file_wf (fname bp prefix : string) (dd : option string) :
  StExc.preserves wf_world (copy_file fname bp prefix dd).
Proof.
  apply preserves_mbind; [apply prep_dst_wf|]. intros d.
  apply preserves_mbind; auto with pystr.
Qed.

Lemma process_template_wf (fname bp : string) (tenv : list string) (config : yaml_doc)
    (prefix : string) (dd : option string) :
  StExc.preserves wf_world (process_template fname bp tenv config prefix dd).
Proof.
  apply preserves_mbind; [auto with pystr|intros _].
  apply preserves_mbind; [auto with pystr|intros src].
  apply preserves_mbind; [auto with pystr|intros r].
  apply preserves_mbind; [apply prep_dst_wf|intros d].
  apply write_text_wf.
Qed.

Lemma resolve_context_preserves (P : world → Prop) (inv : invocation) :
  (∀ line, StExc.preserves P (print line)) → StExc.preserves P (resolve_context inv).
Proof.
  intros Hp. destruct inv; simpl.
  - repeat (apply preserves_mbind; [auto with pystr|intros ?]).
    destruct (_ || _); auto with pystr.
  - repeat (apply preserves_mbind; [auto with pystr|intros ?]). auto with pystr.
Qed.

Lemma resolve_context_wf (inv : invocation) : StExc.preserves wf_world (resolve_context inv).
Proof. apply resolve_context_preserves. auto with pystr. Qed.

Lemma resolve_context_fs (inv : invocation) (w : world) :
  fs (resolve_context inv w).2 = fs w.
Proof.
  apply (resolve_context_preserves (λ w', fs w' = fs w)); [|done].
  intros line. by apply StExc.preserves_modify.
Qed.

Lemma resolve_context_cwd (inv : invocation) (w : world) :
  cwd (resolve_context inv w).2 = cwd w.
Proof.
  apply (resolve_context_preserves (λ w', cwd w' = cwd w)); [|done].
  intros line. by apply StExc.preserves_modify.
Qed.

Lemma glob_loop_wf (prefix : string) (body : string → PyM unit) :
  (∀ f, StExc.preserves wf_world (body f)) → StExc.preserves wf_world (glob_loop prefix body).
Proof.
  intros Hb. apply preserves_mbind; [auto with pystr|]. intros w.
  by apply iglob_for_preserves.
Qed.

Lemma loops_wf (ctx : context) (config : yaml_doc) :
  StExc.preserves wf_world (common_loop ctx) ∧
  StExc.preserves wf_world (template_loop ctx config) ∧
  StExc.preserves wf_world (device_loop ctx).
Proof.
  unfold common_loop, template_loop, template_body, device_loop.
  split; [|split]; apply glob_loop_wf; intros f;
    (apply preserves_mbind; [auto with pystr|intros w]).
  - destruct (isfile w f); [apply copy_file_wf|auto with pystr].
  - destruct (isfile w f); [|auto with pystr].
    destruct (template_search f); [apply process_template_wf|apply copy_file_wf].
  - destruct (_ && _); [apply copy_file_wf|auto with pystr].
Qed.

(** Whatever the invocation, the run (and every exception that ends it)
    leaves the file system a well-formed tree. *)
Theorem main_preserves_wf (inv : invocation) (w : world) :
  wf_world w → wf_world (main inv w).2.
Proof.
  revert w. unfold main.
  apply preserves_mbind; [apply resolve_context_wf|]. intros ctx.
  apply preserves_mbind; [auto with pystr|intros text].
  apply preserves_mbind; [auto with pystr|intros config].
  apply preserves_mbind; [auto with pystr|intros _].
  destruct (negb _); [auto with pystr|].
  destruct (loops_wf ctx config) as (Hc & Ht & Hd).
  apply preserves_mbind; [auto with pystr|]. intros w.
  apply preserves_mbind; [destruct (isdir _ _); auto with pystr|]. intros _.
  by repeat (apply preserves_mbind; [done|intros _]).
Qed.

(** ** The device-specific loop: the [.keep] test is dead code *)

(** C5: [filename != '.keep'] compares the whole path that [iglob] yields,
    which is never the bare [.keep]: the loop behaves exactly as without
    the test.  (A [.keep] placeholder is left out only because [glob] skips
    hidden names.) *)
Theorem device_loop_keep_test_dead (ctx : context) (w : world) :
  device_loop ctx w =
  glob_loop (PosixPath.join "data" ["webui"; "device_specific"; build_platform ctx; ""])
    (λ filename,
       w' ← StExc.get;
       if isfile w' filename
       then copy_file filename (build_platform ctx)
              (PosixPath.join "data" ["webui"; "device_specific"; build_platform ctx; ""])
              (build_data_dir ctx)
       else mret tt) w.
Proof.
  unfold device_loop, glob_loop, mbind, StExc_bind. apply StExc.bind_ext; [done|].
  intros w0 s. apply iglob_for_ext. intros n s' Hd.
  apply StExc.bind_ext; [done|]. intros w1 s''.
  assert (Hk : String.eqb (PosixPath.join (dirname _) [n]) ".keep" = false)
    by (apply String.eqb_neq, join_ne_keep, Hd).
  by rewrite Hk, andb_true_r.
Qed.

(** ** The build context *)

(** C7: standalone, a missing or empty [FUJINET_TARGET] or
    [FUJINET_BUILD_PLATFORM] raises before the file system is touched. *)
Theorem resolve_context_missing_env (environ : gmap string string) (w : world) :
  py_falsy (environ !! "FUJINET_TARGET") || py_falsy (environ !! "FUJINET_BUILD_PLATFORM") = true →
  (resolve_context (Standalone environ) w).1 = inl (Exception "Missing environment variables") ∧
  fs (resolve_context (Standalone environ) w).2 = fs w.
Proof.
  intros Hm. split; [|apply resolve_context_fs]. simpl. by rewrite Hm.
Qed.

(** C12: standalone, with both variables set and non-empty, the context is
    taken from the environment ([BUILD_DATA_DIR] as it is, unset meaning
    [None]), the four lines are printed in order and nothing else changes. *)
Theorem resolve_context_standalone (environ : gmap string string) (t bp : string) (w : world) :
  environ !! "FUJINET_TARGET" = Some t → environ !! "FUJINET_BUILD_PLATFORM" = Some bp →
  t ≠ "" → bp ≠ "" →
  resolve_context (Standalone environ) w =
    (inr (mkContext t bp (environ !! "BUILD_DATA_DIR")),
     mkWorld (fs w) (cwd w)
       (stdout w ++ ["Running build_webui.py outside the PlatformIO environment!";
                     "Using environment variables:";
                     "FUJINET_TARGET=" +:+ t; "FUJINET_BUILD_PLATFORM=" +:+ bp])).
Proof.
  intros Ht Hb Ht' Hb'. unfold resolve_context. run_simpl. rewrite Ht, Hb. simpl.
  rewrite (proj2 (String.eqb_neq t "") Ht'), (proj2 (String.eqb_neq bp "") Hb'). simpl.
  by rewrite <- !app_assoc.
Qed.

(** C17: the context a run resolves is well formed for its mode.
    Standalone, the target and the platform are non-empty and the output
    directory is [BUILD_DATA_DIR] as given; under PlatformIO there is no
    output directory and the target is [dev] exactly when [dev] is among
    the program arguments (the environment's name otherwise). *)
Theorem resolve_context_ok (inv : invocation) (w : world) (ctx : context) :
  (resolve_context inv w).1 = inr ctx →
  match inv with
  | Standalone environ =>
      target ctx ≠ "" ∧ build_platform ctx ≠ "" ∧ build_data_dir ctx = environ !! "BUILD_DATA_DIR"
  | PlatformIO pioenv program_args =>
      build_data_dir ctx = None ∧
      target ctx = if bool_decide ("dev" ∈ program_args) then "dev" else pioenv
  end.
Proof.
  intros Hc. destruct inv as [environ|pioenv args];
    unfold resolve_context, configparser_read, lift in Hc; run_simpl.
  - destruct (environ !! "FUJINET_TARGET") as [t|]; [|discriminate Hc]. simpl in Hc.
    destruct (String.eqb_spec t ""); [discriminate Hc|]. simpl in Hc.
    destruct (environ !! "FUJINET_BUILD_PLATFORM") as [b|]; [|discriminate Hc]. simpl in Hc.
    destruct (String.eqb_spec b ""); [discriminate Hc|]. injection Hc as <-. by repeat split.
  - destruct (stat w "platformio.ini") as [e|[d|]]; simpl in Hc; try destruct (ini_parse d); simpl in Hc;
      try discriminate Hc;
      match type of Hc with context [ini_lookup ?doc _ _] => destruct (ini_lookup doc _ _) end;
      simpl in Hc; try discriminate Hc; injection Hc as <-; by split.
Qed.

(** C13: the configuration is read before the platform is checked: when
    [data/webui/config/<target>.yaml] cannot be read, the run raises that
    [OSError], whatever the platform, and the file system is unchanged. *)
Theorem main_config_error (inv : invocation) (w : world) (ctx : context) (e : errno) :
  (resolve_context inv w).1 = inr ctx →
  stat w (PosixPath.join "data" ["webui"; "config"; target ctx +:+ ".yaml"]) = inl e →
  (main inv w).1 = inl (OSError e (PosixPath.join "data" ["webui"; "config"; target ctx +:+ ".yaml"])) ∧
  fs (main inv w).2 = fs w.
Proof.
  intros Hctx Hst. pose proof (resolve_context_fs inv w) as Hf1.
  pose proof (resolve_context_cwd inv w) as Hc1. unfold main, mbind, StExc_bind.
  destruct (resolve_context inv w) as [r1 w1] eqn:E1. simpl in Hctx, Hf1, Hc1. subst r1.
  rewrite (StExc.bind_inr _ _ w ctx w1 E1).
  rewrite (StExc.bind_inl _ _ w1 _ w1 (read_text_error w1 _ e ltac:(by rewrite (stat_ext w w1)))).
  done.
Qed.

(** ** The platform check *)

(** C1: when the build platform does not start with [BUILD_], the run ends
    with an exception and the file system is the one it started with: no
    directory is removed and no file written. *)
Theorem main_rejects_bad_platform (inv : invocation) (w : world) (ctx : context) :
  (resolve_context inv w).1 = inr ctx →
  startswith (build_platform ctx) "BUILD_" = false →
  fs (main inv w).2 = fs w ∧ ∃ e, (main inv w).1 = inl e.
Proof.
  intros Hc0 Hb. pose proof (resolve_context_fs inv w) as Hf.
  destruct (resolve_context inv w) as [r w1] eqn:Hc. simpl in Hc0, Hf. subst r. unfold main, mbind, StExc_bind.
  rewrite (StExc.bind_inr _ _ _ _ _ Hc), Hb. simpl.
  match goal with |- context [StExc.bind ?k (read_text ?p) w1] =>
    pose proof (read_text_preserves (λ w', fs w' = fs w) p w1 Hf) as Hf2;
    destruct (read_text p w1) as [[e|text] w2] eqn:Hr; simpl in Hf2;
    [rewrite (StExc.bind_inl _ _ _ _ _ Hr) | rewrite (StExc.bind_inr _ _ _ _ _ Hr)]
  end; [eauto|].
  unfold StExc.bind at 1 3. simpl. destruct (yaml_load text); simpl; eauto.
Qed.

(** ** The destination of a file *)

(** C3: for a file [prefix + rel] in which the root prefix does not occur
    again, [prep_dst] maps it to [rel] under the output directory, as the
    spec describes. *)
Theorem dst_path_strips_prefix (rel bp prefix : string) (dd : option string) :
  prefix ≠ "" → contains prefix rel = false →
  dst_path (prefix +:+ rel) bp prefix dd =
  match dd with
  | None => PosixPath.join "data" [bp; rel]
  | Some d => PosixPath.join d [rel]
  end.
Proof.
  intros Hp Hr. unfold dst_path.
  by rewrite replace_app_prefix, append_nil_l, replace_absent by done.
Qed.

(** C18: within one root, two different files whose relative paths are
    relative and do not repeat the root are copied to different
    destinations.  This covers the copies of each loop; the template loop's
    rename of [.tmpl.] is applied after this mapping, and there two
    sources can meet ([Determinism.main_last_write_wins]). *)
Theorem dst_path_injective (rel1 rel2 bp prefix : string) (dd : option string) :
  prefix ≠ "" → contains prefix rel1 = false → contains prefix rel2 = false →
  startswith rel1 "/" = false → startswith rel2 "/" = false → rel1 ≠ rel2 →
  dst_path (prefix +:+ rel1) bp prefix dd ≠ dst_path (prefix +:+ rel2) bp prefix dd.
Proof.
  intros Hp Hc1 Hc2 Hs1 Hs2 Hne. unfold dst_path.
  rewrite !replace_app_prefix, !append_nil_l, !replace_absent by done.
  destruct dd; intros E; apply Hne; by apply join_step_inj in E.
Qed.

(** C6: [str.replace] removes the root prefix wherever it occurs, not only
    at the front, so a file whose relative path starts with the root again
    is copied to the same destination as the file without the repetition:
    [prefix + prefix + rel] and [prefix + rel] collide. *)
Theorem dst_path_repeated_root (rel bp prefix : string) (dd : option string) :
  prefix ≠ "" → contains prefix rel = false →
  dst_path (prefix +:+ prefix +:+ rel) bp prefix dd = dst_path (prefix +:+ rel) bp prefix dd.
Proof.
  intros Hp Hr. unfold dst_path. by rewrite !replace_app_prefix, !append_nil_l by done.
Qed.

(** ** What [prep_dst] and [copy_file] do to the tree *)

(** [prep_dst] on a destination whose directory part is a plain path below
    an existing directory, with no file on the way. *)
Lemma prep_dst_run (fname bp prefix : string) (dd : option string) (w : world) :
  let dest := dst_path fname bp prefix dd in
  let st := start w (dirname dest) in
  let cs := components (dirname dest) in
  wf_world w → basename (dirname dest) ≠ "" → plain cs → fs w !! st = Some Dir →
  (∀ k d, k ∈ dir_prefixes st cs → fs w !! k ≠ Some (File d)) →
  prep_dst fname bp prefix dd w = (inr dest, set_fs w (mkdir_p (fs w) st cs)).
Proof.
  intros dest st cs Hw Hb Hp Hst Hf.
  unfold prep_dst, mbind, StExc_bind, mret, StExc_ret. fold dest. rewrite StExc.bind_get.
  destruct (components_basename _ Hb) as [Hcs _].
  assert (Hne : dirname dest ≠ "") by (by intros E; rewrite E in Hb).
  pose proof (components_nonempty _ Hb) as Hcne.
  rewrite (exists_plain w) by (try done; intros d; apply Hf, dir_prefixes_full, Hcne).
  fold st cs. destruct (fs w !! (st ++ cs)) as [n|] eqn:L.
  - rewrite bool_decide_eq_true_2 by done. simpl.
    by rewrite mkdir_p_id, set_fs_id by (by eapply wf_dir_prefixes).
  - rewrite bool_decide_eq_false_2 by (by intros []). simpl.
    by rewrite (StExc.bind_inr _ _ _ tt _ (makedirs_creates w _ Hw Hb Hp Hst Hf L)).
Qed.

Lemma prep_dst_no_fuel (fname bp prefix : string) (dd : option string) :
  StExc.raises_only no_fuel (prep_dst fname bp prefix dd).
Proof.
  apply raises_only_mbind; [auto with raises|intros w].
  apply raises_only_mbind; [destruct (path_exists _ _)|]; auto with raises.
Qed.

(** [copy_file] terminates: the recursion of [os.makedirs] in
    [prep_dst] always completes within its fuel, so every exception the
    plain copier raises is one of Python's, never the model's [OutOfFuel]. *)
Theorem copy_file_no_fuel (fname bp prefix : string) (dd : option string) :
  StExc.raises_only no_fuel (copy_file fname bp prefix dd).
Proof.
  apply raises_only_mbind; [apply prep_dst_no_fuel|intros dest].
  apply raises_only_mbind; auto with raises.
Qed.

(** C8: [prep_dst] returns the destination and leaves every entry of the
    tree as it was, except the missing directories along the destination's
    directory part, which it creates (and nothing else). *)
Theorem prep_dst_creates_missing_dirs (fname bp prefix : string) (dd : option string) (w : world) :
  let dest := dst_path fname bp prefix dd in
  let st := start w (dirname dest) in
  let cs := components (dirname dest) in
  wf_world w → basename (dirname dest) ≠ "" → plain cs → fs w !! st = Some Dir →
  (∀ k d, k ∈ dir_prefixes st cs → fs w !! k ≠ Some (File d)) →
  (prep_dst fname bp prefix dd w).1 = inr dest ∧
  ∀ k, fs (prep_dst fname bp prefix dd w).2 !! k =
       match fs w !! k with
       | Some n => Some n
       | None => if decide (k ∈ dir_prefixes st cs) then Some Dir else None
       end.
Proof.
  intros dest st cs Hw Hb Hp Hst Hf. rewrite prep_dst_run by done.
  split; [done|]. intros k. apply mkdir_p_lookup.
Qed.

(** The run of [copy_file] of a file to a destination that is a plain
    path, not a directory and not the source. *)
Lemma copy_file_run (fname bp prefix data : string) (dd : option string) (w : world)
    (qs : list string) :
  let dest := dst_path fname bp prefix dd in
  let st := start w dest in
  let cs := components (dirname dest) in
  wf_world w → basename dest ≠ "" → basename (dirname dest) ≠ "" → plain (components dest) →
  fs w !! st = Some Dir → (∀ k d, k ∈ dir_prefixes st cs → fs w !! k ≠ Some (File d)) →
  fs w !! (st ++ components dest) ≠ Some Dir →
  stat w fname = inr (File data) → resolve w fname = inr qs → qs ≠ st ++ components dest →
  copy_file fname bp prefix dd w =
  (inr tt, set_fs w (<[st ++ components dest := File data]> (mkdir_p (fs w) st cs))).
Proof.
  intros dest st cs Hw Hb Hbd Hp Hst Hf Hnd Hs Hr Hq.
  destruct (components_basename _ Hb) as [Hcs _].
  assert (Hne : dirname dest ≠ "") by (by intros E; rewrite E in Hbd).
  assert (Hst' : start w (dirname dest) = st) by (by apply start_dirname).
  assert (Hpcs : plain cs) by (unfold plain in Hp; rewrite Hcs in Hp; by apply Forall_app in Hp as [? _]).
  pose proof (prep_dst_run fname bp prefix dd w) as Hrun. cbv zeta in Hrun.
  fold dest in Hrun. rewrite Hst' in Hrun. fold cs in Hrun.
  specialize (Hrun Hw Hbd Hpcs Hst Hf).
  pose proof (prep_dst_wf fname bp prefix dd w Hw) as Hw'. rewrite Hrun in Hw'.
  unfold copy_file, mbind, StExc_bind. rewrite (StExc.bind_inr _ _ _ dest _ Hrun).
  rewrite Hcs in Hp, Hnd, Hq |- *.
  pose proof (mkdir_p_parent_dir (fs w) st cs (components_nonempty _ Hbd) Hf) as Hpar.
  assert (Hnd' : mkdir_p (fs w) st cs !! (st ++ cs ++ [basename dest]) ≠ Some Dir)
    by (by rewrite mkdir_p_child).
  by rewrite (StExc.bind_inr _ _ _ dest _ (copy_plain (set_fs w (mkdir_p (fs w) st cs)) _ _ data qs
    cs (basename dest) Hw' Hb Hcs Hp Hpar Hnd'
    (stat_mono _ _ _ _ (mkdir_p_subseteq _ _ _) Hs) (resolve_mono _ _ _ _ (mkdir_p_subseteq _ _ _) Hr) Hq)).
Qed.

(** C9: [copy_file] of a file to a destination that is a plain path, not a
    directory and not the source: the missing parents of the destination
    are created, the destination holds the source's data, and every other
    entry, the working directory and the output are as they were. *)
Theorem copy_file_copies (fname bp prefix data : string) (dd : option string) (w : world)
    (qs : list string) :
  let dest := dst_path fname bp prefix dd in
  let st := start w dest in
  let cs := components (dirname dest) in
  wf_world w → basename dest ≠ "" → basename (dirname dest) ≠ "" → plain (components dest) →
  fs w !! st = Some Dir → (∀ k d, k ∈ dir_prefixes st cs → fs w !! k ≠ Some (File d)) →
  fs w !! (st ++ components dest) ≠ Some Dir →
  stat w fname = inr (File data) → resolve w fname = inr qs → qs ≠ st ++ components dest →
  (copy_file fname bp prefix dd w).1 = inr tt ∧
  cwd (copy_file fname bp prefix dd w).2 = cwd w ∧
  stdout (copy_file fname bp prefix dd w).2 = stdout w ∧
  ∀ k, fs (copy_file fname bp prefix dd w).2 !! k =
       if decide (k = st ++ components dest) then Some (File data)
       else match fs w !! k with
            | Some n => Some n
            | None => if decide (k ∈ dir_prefixes st cs) then Some Dir else None
            end.
Proof.
  intros dest st cs Hw Hb Hbd Hp Hst Hf Hnd Hs Hr Hq.
  rewrite (copy_file_run fname bp prefix data dd w qs) by done. do 3 (split; [done|]).
  intros k. simpl. case_decide as Hk; [subst k; apply lookup_insert_eq|].
  rewrite lookup_insert_ne by (intros E; apply Hk; rewrite <- E; reflexivity). apply mkdir_p_lookup.
Qed.

(** The run of [process_template] of a template that the loader finds and
    Jinja renders, when [.replace('.tmpl.', '.')] leaves the directory part
    of the destination alone. *)
Lemma process_template_run (fname bp src r : string) (tenv : list string)
    (config : yaml_doc) (prefix : string) (dd : option string) (w : world) :
  let dest := dst_path fname bp prefix dd in
  let out := replace dest ".tmpl." "." in
  let st := start w dest in
  let cs := components (dirname dest) in
  wf_world w → basename out ≠ "" → dirname out = dirname dest → basename (dirname dest) ≠ "" →
  plain (components out) → fs w !! st = Some Dir →
  (∀ k d, k ∈ dir_prefixes st cs → fs w !! k ≠ Some (File d)) →
  fs w !! (st ++ components out) ≠ Some Dir →
  (get_source tenv (replace (replace fname prefix "") backslash "/") w).1 = inr src →
  jinja_render src config = inr r →
  process_template fname bp tenv config prefix dd w =
  (inr tt, mkWorld (<[st ++ components out := File r]> (mkdir_p (fs w) st cs)) (cwd w)
                   (stdout w ++ ["processing template file " +:+ fname])).
Proof.
  intros dest out st cs Hw Hb Hd Hbd Hp Hst Hf Hnd Hsrc Hr.
  set (w1 := mkWorld (fs w) (cwd w) (stdout w ++ ["processing template file " +:+ fname])).
  destruct (components_basename _ Hb) as [Hcs _]. rewrite Hd in Hcs. fold cs in Hcs.
  assert (Hne : dirname dest ≠ "") by (by intros E; rewrite E in Hbd).
  assert (Hst' : start w (dirname dest) = st) by (by apply start_dirname).
  assert (Hso : start w out = st) by (rewrite <- (start_dirname w out), Hd; [done|by rewrite Hd]).
  assert (Hpcs : plain cs) by (unfold plain in Hp; rewrite Hcs in Hp; by apply Forall_app in Hp as [? _]).
  pose proof (prep_dst_run fname bp prefix dd w1) as Hrun. cbv zeta in Hrun. fold dest in Hrun.
  change (start w1) with (start w) in Hrun. change (fs w1) with (fs w) in Hrun.
  rewrite Hst' in Hrun. fold cs in Hrun. specialize (Hrun Hw Hbd Hpcs Hst Hf).
  pose proof (prep_dst_wf fname bp prefix dd w1 Hw) as Hw'. rewrite Hrun in Hw'.
  unfold process_template, mbind, StExc_bind.
  rewrite (StExc.bind_inr _ _ w tt w1) by reflexivity.
  rewrite (StExc.bind_inr _ _ w1 src w1) by (rewrite (get_source_ext _ _ w w1) by done; by rewrite Hsrc).
  rewrite (StExc.bind_inr _ _ w1 r w1) by (unfold lift; by rewrite Hr).
  rewrite (StExc.bind_inr _ _ w1 dest _ Hrun). fold out.
  rewrite (write_text_plain (set_fs w1 (mkdir_p (fs w) st cs)) out cs (basename out));
    rewrite ?start_set_fs; change (start w1 out) with (start w out); rewrite ?Hso; try done.
  - by rewrite <- Hcs.
  - by intros E; rewrite E in Hb.
  - by rewrite <- Hcs.
  - apply mkdir_p_parent_dir; [apply (components_nonempty _ Hbd)|done].
  - by apply basename_endswith_sep.
  - simpl. rewrite mkdir_p_child. by rewrite <- Hcs.
Qed.

(** C10: [process_template] of a template that the loader finds and Jinja
    renders, when [.replace('.tmpl.', '.')] leaves the directory part of the
    destination alone: the line is printed, the missing parents are
    created, the rendered text is written to the renamed destination, and
    every other entry and the working directory are as they were. *)
Theorem process_template_writes (fname bp src r : string) (tenv : list string)
    (config : yaml_doc) (prefix : string) (dd : option string) (w : world) :
  let dest := dst_path fname bp prefix dd in
  let out := replace dest ".tmpl." "." in
  let st := start w dest in
  let cs := components (dirname dest) in
  wf_world w → basename out ≠ "" → dirname out = dirname dest → basename (dirname dest) ≠ "" →
  plain (components out) → fs w !! st = Some Dir →
  (∀ k d, k ∈ dir_prefixes st cs → fs w !! k ≠ Some (File d)) →
  fs w !! (st ++ components out) ≠ Some Dir →
  (get_source tenv (replace (replace fname prefix "") backslash "/") w).1 = inr src →
  jinja_render src config = inr r →
  (process_template fname bp tenv config prefix dd w).1 = inr tt ∧
  cwd (process_template fname bp tenv config prefix dd w).2 = cwd w ∧
  stdout (process_template fname bp tenv config prefix dd w).2 =
    stdout w ++ ["processing template file " +:+ fname] ∧
  ∀ k, fs (process_template fname bp tenv config prefix dd w).2 !! k =
       if decide (k = st ++ components out) then Some (File r)
       else match fs w !! k with
            | Some n => Some n
            | None => if decide (k ∈ dir_prefixes st cs) then Some Dir else None
            end.
Proof.
  intros dest out st cs Hw Hb Hd Hbd Hp Hst Hf Hnd Hsrc Hr.
  rewrite (process_template_run fname bp src r tenv config prefix dd w) by done.
  do 3 (split; [done|]). intros k. simpl. case_decide as Hk; [subst k; apply lookup_insert_eq|].
  rewrite lookup_insert_ne by (intros E; apply Hk; rewrite <- E; reflexivity). apply mkdir_p_lookup.
Qed.

(** ** The loops over [glob.iglob] *)

(** The recursion depth of the recursive glob is bounded by the
    entries below the walked directory: any fuel above their number
    completes the listing, and gives the listing that the fuel of the
    script's loops, [glob_fuel], gives. *)
Theorem glob_fuel_bound `{!ScandirOrderOk} (prefix : string) (w : world) (q : list string)
    (n : nat) :
  let d := dirname (prefix +:+ "**") in
  wf_world w → d ≠ "" → resolve w d = inr q → size (below_keys (fs w) q) < n →
  is_Some (iglob_names n w (prefix +:+ "**")) ∧
  iglob_names n w (prefix +:+ "**") = iglob_names (glob_fuel w) w (prefix +:+ "**").
Proof.
  intros d Hw Hd Hr Hn.
  assert (Hs : is_Some (iglob_names n w (prefix +:+ "**"))).
  { unfold iglob_names. destruct (rlistdir_names_some w n Hw (dirname (prefix +:+ "**")) Hd ltac:(lia)) as [ns ->].
    - intros q' Hq'. injection (eq_trans (eq_sym Hq') Hr) as ->. done.
    - by eexists. }
  split; [done|]. apply iglob_names_fuel_eq; [done|].
  apply iglob_names_some; [done|done|]. unfold glob_fuel. lia.
Qed.

(** C11: a loop [for filename in glob.iglob(f'{prefix}**', recursive=True)]
    over a plain directory never runs out of fuel, and it runs its body on
    the names of the listing of the tree taken when the loop starts
    ([iglob_names]), in order, when every run of the body keeps the tree
    around the walked directory: the generator's laziness is invisible.
    The listing is the directory itself (as [prefix]) and every entry below
    it whose path has no component starting with ['.'], and nothing else. *)
Theorem glob_loop_eager `{!ScandirOrderOk} (P : world → Prop) (prefix : string)
    (body : string → PyM unit) (w : world) (q : list string) :
  let d := dirname (prefix +:+ "**") in
  wf_world w → basename (prefix +:+ "**") = "**" → d ≠ "" → has_magic d = false →
  plain (components d) → resolve w d = inr q →
  (∀ w', P w' → agree_around q w w') →
  (∀ names n, iglob_names (glob_fuel w) w (prefix +:+ "**") = Some names → n ∈ names →
     StExc.preserves P (body n)) →
  P w →
  ∃ names, iglob_names (glob_fuel w) w (prefix +:+ "**") = Some names ∧
           glob_loop prefix body w = StExc.mfor names body w ∧
           ∀ y, y ∈ names ↔ (isdir w d = true ∧ y = PosixPath.join d [""]) ∨
                            ∃ z, below_visible w q z ∧ y = PosixPath.join d [z].
Proof.
  intros d Hw Hb Hd Hm Hp Hr HP Hbody Hw0.
  destruct (iglob_names_some (glob_fuel w) w (prefix +:+ "**") Hw Hd) as [names Hn];
    [unfold glob_fuel; lia|].
  exists names. split; [done|]. split; [|apply (iglob_names_spec _ w _ q names Hw Hd Hr Hn)].
  unfold glob_loop, mbind, StExc_bind. rewrite StExc.bind_get.
  apply (iglob_for_eager P); try done.
  - intros q' w' Hq' Hw'. injection (eq_trans (eq_sym Hq') Hr) as ->. by apply HP.
  - intros n. by apply Hbody.
Qed.

End Script.
(** ** Witnesses and runs on concrete trees *)
Module Runs.
Import Instances.

(** Trees: the directories of the source layout, then files. *)
Definition dirs (ps : list (list string)) : list (list string * node) :=
  map (λ p, (p, Dir)) ps.

Definition layout : list (list string * node) :=
  dirs [[]; ["data"]; ["data"; "webui"]; ["data"; "webui"; "config"];
        ["data"; "webui"; "common"]; ["data"; "webui"; "template"];
        ["data"; "webui"; "device_specific"];
        ["data"; "webui"; "device_specific"; "BUILD_TEST"]].

Definition env_test : gmap string string :=
  <["FUJINET_TARGET" := "test"]> (<["FUJINET_BUILD_PLATFORM" := "BUILD_TEST"]> ∅).

(** The spec's example, with an override, a stale output and hidden files. *)
Definition spec_tree : gmap (list string) node :=
  list_to_map (layout ++ dirs [["data"; "BUILD_TEST"]] ++
    [(["data"; "webui"; "config"; "test.yaml"], File "title: X");
     (["data"; "webui"; "template"; "banner.tmpl.html"], File "<h1>{{title}}</h1>");
     (["data"; "webui"; "common"; "index.html"], File "common");
     (["data"; "webui"; "common"; ".htaccess"], File "deny");
     (["data"; "webui"; "device_specific"; "BUILD_TEST"; "index.html"], File "device");
     (["data"; "webui"; "device_specific"; "BUILD_TEST"; ".keep"], File "");
     (["data"; "BUILD_TEST"; "stale.txt"], File "old")]).

Definition spec_world : world := mkWorld spec_tree [] [].

Definition below (q : list string) (m : gmap (list string) node) : gmap (list string) node :=
  filter (λ kv, q `prefix_of` kv.1) m.

Lemma dst_path_strips_prefix_witness :
  dst_path ("data/webui/common/" +:+ "css/style.css") "BUILD_X" "data/webui/common/" None
  = "data/BUILD_X/css/style.css".
Proof.
  rewrite (dst_path_strips_prefix "css/style.css" "BUILD_X" "data/webui/common/" None);
    [reflexivity | discriminate | reflexivity].
Defined.

Definition inv_bad_platform : invocation :=
  Standalone (<["FUJINET_BUILD_PLATFORM" := "TEST"]> env_test).

Lemma main_rejects_bad_platform_witness :
  fs (main inv_bad_platform spec_world).2 = fs spec_world ∧
  ∃ e, (main inv_bad_platform spec_world).1 = inl e.
Proof.
  apply (main_rejects_bad_platform inv_bad_platform spec_world (mkContext "test" "TEST" None));
    vm_compute; reflexivity.
Defined.

Lemma rmtree_clears_subtree_witness :
  (rmtree "data/BUILD_TEST" spec_world).1 = inr tt.
Proof.
  refine (proj1 (rmtree_clears_subtree _ _ ["data"; "BUILD_TEST"] _ _ _));
    vm_compute; reflexivity.
Defined.

Lemma resolve_context_missing_env_witness :
  (resolve_context (Standalone (delete "FUJINET_TARGET" env_test)) spec_world).1
  = inl (Exception "Missing environment variables") ∧
  fs (resolve_context (Standalone (delete "FUJINET_TARGET" env_test)) spec_world).2 = fs spec_world.
Proof. apply resolve_context_missing_env. vm_compute. reflexivity. Defined.

Lemma prep_dst_creates_missing_dirs_witness :
  (prep_dst "data/webui/common/css/a/style.css" "BUILD_TEST" "data/webui/common/" None
     spec_world).1 = inr "data/BUILD_TEST/css/a/style.css".
Proof.
  refine (proj1 (prep_dst_creates_missing_dirs _ _ _ _ spec_world _ _ _ _ _)).
  - apply wf_check_sound. vm_compute. reflexivity.
  - vm_compute. discriminate.
  - vm_compute. repeat constructor.
  - vm_compute. reflexivity.
  - apply no_file_on_sound. vm_compute. reflexivity.
Defined.

(** A common file in a subdirectory that the output does not have yet. *)
Definition nested_world : world :=
  mkWorld (<[["data"; "webui"; "common"; "css"; "style.css"] := File "body{}"]>
           (<[["data"; "webui"; "common"; "css"] := Dir]> spec_tree)) [] [].

Lemma copy_file_copies_witness :
  let run := copy_file "data/webui/common/css/style.css" "BUILD_TEST" "data/webui/common/" None
               nested_world in
  run.1 = inr tt ∧ cwd run.2 = cwd nested_world ∧ stdout run.2 = stdout nested_world ∧
  ∀ k, fs run.2 !! k =
       if decide (k = ["data"; "BUILD_TEST"; "css"; "style.css"]) then Some (File "body{}")
       else match fs nested_world !! k with
            | Some n => Some n
            | None => if decide (k ∈ dir_prefixes [] ["data"; "BUILD_TEST"; "css"]) then Some Dir
                      else None
            end.
Proof.
  apply (copy_file_copies "data/webui/common/css/style.css" "BUILD_TEST" "data/webui/common/"
    "body{}" None nested_world ["data"; "webui"; "common"; "css"; "style.css"]).
  - apply wf_check_sound. vm_compute. reflexivity.
  - vm_compute. discriminate.
  - vm_compute. discriminate.
  - vm_compute. repeat constructor.
  - vm_compute. reflexivity.
  - apply no_file_on_sound. vm_compute. reflexivity.
  - vm_compute. discriminate.
  - vm_compute. reflexivity.
  - vm_compute. reflexivity.
  - vm_compute. discriminate.
Defined.

(** The configuration of the [test] target, as loaded. *)
Definition config_test : @yaml_doc yaml_lines := [("title", "X")].

Lemma process_template_writes_witness :
  let run := process_template "data/webui/template/banner.tmpl.html" "BUILD_TEST" template_env
               config_test "data/webui/template/" None spec_world in
  run.1 = inr tt ∧ cwd run.2 = [] ∧
  stdout run.2 = [] ++ ["processing template file " +:+ "data/webui/template/banner.tmpl.html"] ∧
  ∀ k, fs run.2 !! k =
       if decide (k = ["data"; "BUILD_TEST"; "banner.html"]) then Some (File "<h1>X</h1>")
       else match spec_tree !! k with
            | Some n => Some n
            | None => if decide (k ∈ dir_prefixes [] ["data"; "BUILD_TEST"]) then Some Dir else None
            end.
Proof.
  apply (process_template_writes "data/webui/template/banner.tmpl.html" "BUILD_TEST"
    "<h1>{{title}}</h1>" "<h1>X</h1>" template_env config_test "data/webui/template/" None
    spec_world).
  - apply wf_check_sound. vm_compute. reflexivity.
  - vm_compute. discriminate.
  - vm_compute. reflexivity.
  - vm_compute. discriminate.
  - vm_compute. repeat constructor.
  - vm_compute. reflexivity.
  - apply no_file_on_sound. vm_compute. reflexivity.
  - vm_compute. discriminate.
  - vm_compute. reflexivity.
  - vm_compute. reflexivity.
Defined.

Lemma glob_loop_eager_witness :
  ∃ names, iglob_names (glob_fuel spec_world) spec_world ("data/webui/common/" +:+ "**") = Some names ∧
           glob_loop "data/webui/common/" (λ _, mret tt) spec_world =
           StExc.mfor names (λ _, mret tt) spec_world ∧
           ∀ y, y ∈ names ↔
             (isdir spec_world (dirname ("data/webui/common/" +:+ "**")) = true ∧
              y = PosixPath.join (dirname ("data/webui/common/" +:+ "**")) [""]) ∨
             ∃ z, below_visible spec_world ["data"; "webui"; "common"] z ∧
                  y = PosixPath.join (dirname ("data/webui/common/" +:+ "**")) [z].
Proof.
  apply (glob_loop_eager (λ w', w' = spec_world)).
  - apply wf_check_sound. vm_compute. reflexivity.
  - vm_compute. reflexivity.
  - vm_compute. discriminate.
  - vm_compute. reflexivity.
  - vm_compute. repeat constructor.
  - vm_compute. reflexivity.
  - intros w' ->. apply agree_around_refl.
  - intros names n _ _ w' Hw'. exact Hw'.
  - reflexivity.
Defined.

(** The spec's example run: [banner.tmpl.html] holding [{{title}}] is
    rendered with [title: X] to [banner.html]; the device-specific
    [index.html] overrides the common one; the stale file of the previous
    run is gone; the hidden [.htaccess] and [.keep] are not copied. *)
Example spec_example_run :
  (main (Standalone env_test) spec_world).1 = inr tt ∧
  below ["data"; "BUILD_TEST"] (fs (main (Standalone env_test) spec_world).2) =
  list_to_map [(["data"; "BUILD_TEST"], Dir);
               (["data"; "BUILD_TEST"; "index.html"], File "device");
               (["data"; "BUILD_TEST"; "banner.html"], File "<h1>X</h1>")].
Proof. split; [vm_compute; reflexivity|]. apply (bool_decide_eq_true_1 (_ = _)). vm_compute. reflexivity. Qed.

(** An empty [BUILD_DATA_DIR] is not [None]: files are staged into the
    working directory and the first top-level file makes [os.makedirs('')]
    raise [FileNotFoundError]. *)
Example empty_build_data_dir_fails :
  (main (Standalone (<["BUILD_DATA_DIR" := ""]> env_test)) spec_world).1
  = inl (OSError ENOENT "").
Proof. vm_compute. reflexivity. Qed.

(** [.replace('.tmpl.', '.')] rewrites the whole destination path after
    [prep_dst] created its directories: a template inside a directory whose
    name holds [.tmpl.] is written to a directory that does not exist. *)
Example template_in_tmpl_directory_fails :
  let tree := list_to_map (layout ++ dirs [["data"; "webui"; "template"; "sub.tmpl.d"]] ++
    [(["data"; "webui"; "config"; "test.yaml"], File "title: X");
     (["data"; "webui"; "template"; "sub.tmpl.d"; "x.tmpl.html"], File "{{title}}")]) in
  (main (Standalone env_test) (mkWorld tree [] [])).1
  = inl (OSError ENOENT "data/BUILD_TEST/sub.d/x.html").
Proof. vm_compute. reflexivity. Qed.

(** The same rewrite applies to an output directory named with
    [.tmpl.]: rendered templates go to a sibling directory that was never
    created. *)
Example output_dir_with_tmpl_fails :
  let tree := list_to_map (layout ++
    [(["data"; "webui"; "config"; "test.yaml"], File "title: X");
     (["data"; "webui"; "template"; "banner.tmpl.html"], File "{{title}}")]) in
  (main (Standalone (<["BUILD_DATA_DIR" := "out.tmpl.d"]> env_test)) (mkWorld tree [] [])).1
  = inl (OSError ENOENT "out.d/banner.html").
Proof. vm_compute. reflexivity. Qed.

Lemma resolve_context_standalone_witness :
  resolve_context (Standalone env_test) spec_world =
    (inr (mkContext "test" "BUILD_TEST" None),
     mkWorld (fs spec_world) (cwd spec_world)
       (stdout spec_world ++ ["Running build_webui.py outside the PlatformIO environment!";
                              "Using environment variables:";
                              "FUJINET_TARGET=" +:+ "test"; "FUJINET_BUILD_PLATFORM=" +:+ "BUILD_TEST"])).
Proof. apply resolve_context_standalone; [reflexivity|reflexivity|discriminate|discriminate]. Defined.

(** A bad platform and a target without configuration: the missing file is
    reported, not the platform. *)
Definition inv_no_config : invocation :=
  Standalone (<["FUJINET_TARGET" := "nope"]> (<["FUJINET_BUILD_PLATFORM" := "TEST"]> env_test)).

Lemma main_config_error_witness :
  (main inv_no_config spec_world).1 =
    inl (OSError ENOENT (PosixPath.join "data" ["webui"; "config"; "nope" +:+ ".yaml"])) ∧
  fs (main inv_no_config spec_world).2 = fs spec_world.
Proof.
  apply (main_config_error inv_no_config spec_world (mkContext "nope" "TEST" None) ENOENT);
    vm_compute; reflexivity.
Defined.

Lemma resolve_context_ok_witness :
  "test" ≠ "" ∧ "BUILD_TEST" ≠ "" ∧
  build_data_dir (mkContext "test" "BUILD_TEST" None) = env_test !! "BUILD_DATA_DIR".
Proof.
  apply (resolve_context_ok (Standalone env_test) spec_world (mkContext "test" "BUILD_TEST" None)).
  vm_compute. reflexivity.
Defined.

Lemma dst_path_injective_witness :
  dst_path ("data/webui/common/" +:+ "css/a.css") "BUILD_X" "data/webui/common/" None ≠
  dst_path ("data/webui/common/" +:+ "css/b.css") "BUILD_X" "data/webui/common/" None.
Proof.
  apply (dst_path_injective "css/a.css" "css/b.css" "BUILD_X" "data/webui/common/" None);
    [discriminate|reflexivity|reflexivity|reflexivity|reflexivity|discriminate].
Defined.

Lemma dst_path_repeated_root_witness :
  dst_path ("data/webui/common/" +:+ "data/webui/common/" +:+ "x.css") "BUILD_X"
    "data/webui/common/" None =
  dst_path ("data/webui/common/" +:+ "x.css") "BUILD_X" "data/webui/common/" None.
Proof.
  apply (dst_path_repeated_root "x.css" "BUILD_X" "data/webui/common/" None);
    [discriminate|reflexivity].
Defined.

End Runs.
End BuildWebui.
