(* ===== verification/Staging.v ===== *)
(** * What the script stages: the output tree as a function of the input

    [main] clears the output directory and then runs three loops whose
    bodies copy or render one file each.  This file states the result
    without the loops: every source file gives an entry (the key its
    destination resolves to and the text written there), in the order the
    loops visit them, and the final tree is [staged_fs]: the entries'
    files (a later entry for the same key wins, as the later write does),
    over the cleared input tree, over the directories on the way to each
    entry.  The per-file checks on paths ([root_ok], [source_ok],
    [dest_ok], [common_ok], [template_ok], [device_ok]) are here as well.
    [Refinement] lists every entry of a run ([spec_entries]) and proves that
    [main] computes exactly this tree, under the conditions [staging_ok]
    checks on the input. *)

From S2P Require Import Prelude PyStr PosixPath FileSys Glob Matcher Host BuildWebui.

Module Staging.
Import PyStr PosixPath FileSys Glob Matcher Host BuildWebui.

(** A staged file: the key its destination resolves to, and its text. *)
Definition entry : Type := list string * string.

(** The files of a list of entries; the last entry for a key wins. *)
Definition files_of (es : list entry) : gmap (list string) node :=
  list_to_map (reverse ((λ e, (e.1, File e.2)) <$> es)).

(** The proper prefixes of a key: the directories on the way to it. *)
Definition proper_prefixes (k : list string) : list (list string) :=
  (λ j, take j k) <$> seq 0 (length k).

Definition dirs_of (es : list entry) : gmap (list string) node :=
  list_to_map ((λ k, (k, Dir)) <$> (es ≫= λ e, proper_prefixes e.1)).

(** The tree after staging [es] over [m0]: the files, then what [m0]
    already holds, then the directories the writes needed. *)
Definition staged_fs (m0 : gmap (list string) node) (es : list entry) : gmap (list string) node :=
  files_of es ∪ (m0 ∪ dirs_of es).

(** The input tree with the output directory [qo] and everything below it
    removed: what [shutil.rmtree] leaves. *)
Definition cleared (m : gmap (list string) node) (qo : list string) : gmap (list string) node :=
  filter (λ kv, ¬ qo `prefix_of` kv.1) m.

Section Spec.
Context `{ScandirOrder} `{Yaml} `{!Jinja} `{ConfigParser}.

(** The three roots of lines 78, 84 and 96. *)
Definition common_prefix : string := PosixPath.join "data" ["webui"; "common"; ""].
Definition template_prefix : string := PosixPath.join "data" ["webui"; "template"; ""].
Definition device_prefix (ctx : context) : string :=
  PosixPath.join "data" ["webui"; "device_specific"; build_platform ctx; ""].

(** The names a loop over [glob.iglob(prefix + '**', recursive=True)]
    visits, listed on the tree [w]. *)
Definition listing (w : world) (prefix : string) : list string :=
  default [] (iglob_names (glob_fuel w) w (prefix +:+ "**")).

(** Where a path resolves when its parents are directories. *)
Definition key (w : world) (p : string) : list string := start w p ++ components p.

Definition file_text (w : world) (p : string) : option string :=
  match stat w p with inr (File d) => Some d | _ => None end.

(** [copy_file(fname, ...)]: the destination's key and the source's text. *)
Definition copy_entry (w : world) (ctx : context) (prefix fname : string) : option entry :=
  d ← file_text w fname;
  Some (key w (dst_path fname (build_platform ctx) prefix (build_data_dir ctx)), d).

(** [process_template(fname, ...)]: the renamed destination's key and the
    rendered text, or the exception of the loader or of Jinja. *)
Definition render_entry (w : world) (ctx : context) (config : yaml_doc) (prefix fname : string)
    : exc + entry :=
  match (get_source template_env (replace (replace fname prefix "") backslash "/") w).1 with
  | inl e => inl e
  | inr src =>
      match jinja_render src config with
      | inl e => inl e
      | inr r =>
          inr (key w (replace (dst_path fname (build_platform ctx) prefix (build_data_dir ctx))
                        ".tmpl." "."), r)
      end
  end.

Definition common_entries (w : world) (ctx : context) (names : list string) : list entry :=
  omap (copy_entry w ctx common_prefix) names.

Definition template_entry (w : world) (ctx : context) (config : yaml_doc) (fname : string)
    : exc + list entry :=
  match file_text w fname with
  | None => inr []
  | Some _ =>
      if template_search fname then
        match render_entry w ctx config template_prefix fname with
        | inl e => inl e
        | inr e => inr [e]
        end
      else inr (option_list (copy_entry w ctx template_prefix fname))
  end.

Fixpoint template_entries (w : world) (ctx : context) (config : yaml_doc) (names : list string)
    : exc + list entry :=
  match names with
  | [] => inr []
  | n :: ns =>
      match template_entry w ctx config n with
      | inl e => inl e
      | inr here =>
          match template_entries w ctx config ns with
          | inl e => inl e
          | inr rest => inr (here ++ rest)
          end
      end
  end.

Definition device_entry (w : world) (ctx : context) (fname : string) : option entry :=
  if String.eqb fname ".keep" then None else copy_entry w ctx (device_prefix ctx) fname.

Definition device_entries (w : world) (ctx : context) (names : list string) : list entry :=
  omap (device_entry w ctx) names.

(** ** The conditions under which the run stages exactly these files *)

Definition plainb (cs : list string) : bool := forallb (λ c, negb (curdir_or_pardir c)) cs.

Definition outside (qo k : list string) : bool := negb (bool_decide (qo `prefix_of` k)).

Definition strictly_below (qo k : list string) : bool := bool_decide (qo `prefix_of` k ∧ k ≠ qo).

(** The output directory exists or can be made by [makedirs] from its parent. *)
Definition out_ok (w : world) (out : string) (qo : list string) : bool :=
  bool_decide (qo ≠ []) && bool_decide (fs w !! removelast qo = Some Dir) &&
  match fs w !! qo with
  | None => true
  | Some Dir => bool_decide (rmdir_errno out qo = None)
  | Some (File _) => false
  end.

(** A walked root is a plain directory path that resolves away from the output. *)
Definition root_ok (w : world) (qo : list string) (prefix : string) : bool :=
  let p := prefix +:+ "**" in
  let d := dirname p in
  String.eqb (basename p) "**" && negb (String.eqb d "") && negb (has_magic d) &&
  plainb (components d) &&
  match resolve w d with
  | inr qr => negb (bool_decide (qr `prefix_of` qo)) && outside qo qr
  | inl _ => false
  end.

(** A listed name is a plain path that resolves outside the output. *)
Definition source_ok (w : world) (qo : list string) (n : string) : bool :=
  plainb (components n) && match resolve w n with inr qs => outside qo qs | inl _ => false end.

(** A write to [out], whose parents [prep_dst] makes from [dest]. *)
Definition dest_ok (w : world) (qo : list string) (dest out : string) : bool :=
  negb (String.eqb (basename out) "") && String.eqb (dirname out) (dirname dest) &&
  negb (String.eqb (basename (dirname dest)) "") && plainb (components out) &&
  bool_decide (fs w !! start w dest = Some Dir) && outside qo (start w dest) &&
  strictly_below qo (key w out).

(** The file Jinja's loader looks up for a template name is a plain path
    whose key lies outside the output, so that staging never changes what
    the loader finds (or does not find). *)
Definition loader_ok (w : world) (qo : list string) (t : string) : bool :=
  match split_template_path t with
  | inl _ => true
  | inr pieces =>
      let tp := PosixPath.join "data/webui/template" pieces in
      plainb (components tp) && outside qo (key w tp)
  end.

Definition copy_ok (w : world) (ctx : context) (qo : list string) (prefix fname : string) : bool :=
  let dest := dst_path fname (build_platform ctx) prefix (build_data_dir ctx) in
  dest_ok w qo dest dest.

Definition common_ok (w : world) (ctx : context) (qo : list string) (fname : string) : bool :=
  source_ok w qo fname &&
  match file_text w fname with None => true | Some _ => copy_ok w ctx qo common_prefix fname end.

Definition template_ok (w : world) (ctx : context) (qo : list string) (fname : string) : bool :=
  source_ok w qo fname &&
  match file_text w fname with
  | None => true
  | Some _ =>
      if template_search fname then
        let dest := dst_path fname (build_platform ctx) template_prefix (build_data_dir ctx) in
        dest_ok w qo dest (replace dest ".tmpl." ".") &&
        loader_ok w qo (replace (replace fname template_prefix "") backslash "/")
      else copy_ok w ctx qo template_prefix fname
  end.

Definition device_ok (w : world) (ctx : context) (qo : list string) (fname : string) : bool :=
  source_ok w qo fname &&
  match file_text w fname with
  | None => true
  | Some _ => String.eqb fname ".keep" || copy_ok w ctx qo (device_prefix ctx) fname
  end.

(** No staged file's key is a proper prefix of another's. *)
Definition prefix_free (ks : list (list string)) : bool :=
  forallb (λ k1, forallb (λ k2, negb (bool_decide (k1 `prefix_of` k2 ∧ k1 ≠ k2))) ks) ks.

End Spec.

(** ** The staged tree, entry by entry *)

Lemma files_of_snoc (es : list entry) (e : entry) :
  files_of (es ++ [e]) = <[e.1 := File e.2]> (files_of es).
Proof. unfold files_of. by rewrite fmap_app, reverse_app. Qed.

Lemma elem_of_proper_prefixes (k x : list string) :
  x ∈ proper_prefixes k ↔ ∃ j, j < length k ∧ x = take j k.
Proof.
  unfold proper_prefixes. rewrite list_elem_of_fmap. split.
  - intros (j & -> & Hj%elem_of_seq). exists j. split; [lia|done].
  - intros (j & Hj & ->). exists j. split; [done|]. apply elem_of_seq. lia.
Qed.

Lemma dirs_of_lookup (es : list entry) (k : list string) :
  dirs_of es !! k = if decide (k ∈ es ≫= λ e, proper_prefixes e.1) then Some Dir else None.
Proof.
  unfold dirs_of. case_decide as Hk.
  - apply (elem_of_list_to_map_1' _ k Dir).
    + by intros y (? & [= -> ->] & _)%list_elem_of_fmap.
    + apply list_elem_of_fmap. by exists k.
  - apply not_elem_of_list_to_map_1. rewrite <- list_fmap_compose. by rewrite list_fmap_id.
Qed.

(** The proper prefixes of [st ++ cs ++ [b]]: the prefixes of [st], and
    the directories [mkdir_p] makes below [st]. *)
Lemma proper_prefixes_key (st cs : list string) (b : string) (x : list string) :
  x ∈ proper_prefixes (st ++ cs ++ [b]) ↔
  (∃ j, j ≤ length st ∧ x = take j st) ∨ x ∈ dir_prefixes st cs.
Proof.
  rewrite elem_of_proper_prefixes, elem_of_dir_prefixes, !length_app. simpl. split.
  - intros (j & Hj & ->). destruct (decide (j ≤ length st)).
    + left. exists j. split; [done|]. by rewrite take_app_le.
    + right. exists (j - length st). split; [lia|].
      rewrite take_app_ge by lia. rewrite take_app_le by lia. done.
  - intros [(j & Hj & ->) | (j & Hj & ->)].
    + exists j. split; [lia|]. by rewrite take_app_le.
    + exists (length st + j). split; [lia|].
      rewrite take_app_ge by lia. rewrite take_app_le by lia. by rewrite Nat.add_sub_swap, Nat.sub_diag.
Qed.

Lemma bind_snoc_elem (es : list entry) (e : entry) (x : list string) :
  x ∈ (es ++ [e]) ≫= (λ e, proper_prefixes e.1) ↔
  x ∈ es ≫= (λ e, proper_prefixes e.1) ∨ x ∈ proper_prefixes e.1.
Proof.
  rewrite !list_elem_of_bind. setoid_rewrite elem_of_app. setoid_rewrite list_elem_of_singleton.
  naive_solver.
Qed.

(** One write of [copy_file] or [process_template] (its parents made, then
    the file) extends the staged tree by one entry, when the start
    directory and its ancestors exist. *)
Lemma staged_step (m0 : gmap (list string) node) (es : list entry) (st cs : list string)
    (b c : string) :
  (∀ j, j ≤ length st → is_Some (m0 !! take j st)) →
  <[st ++ cs ++ [b] := File c]> (mkdir_p (staged_fs m0 es) st cs) =
  staged_fs m0 (es ++ [(st ++ cs ++ [b], c)]).
Proof.
  intros Hst. apply map_eq. intros x. unfold staged_fs.
  rewrite !lookup_union, files_of_snoc. cbn [fst snd].
  destruct (decide (st ++ cs ++ [b] = x)) as [<-|Hne].
  { by rewrite !lookup_insert_eq, union_Some_l. }
  rewrite !lookup_insert_ne, mkdir_p_lookup by done. unfold staged_fs.
  rewrite !lookup_union, !dirs_of_lookup.
  destruct (files_of es !! x) as [f|]; [by rewrite !union_Some_l|]. rewrite !(left_id_L None union).
  destruct (m0 !! x) as [n|] eqn:Hm; [by rewrite !union_Some_l|]. rewrite !(left_id_L None union).
  case_decide as Hx; cbn iota.
  { rewrite decide_True; [done|]. apply bind_snoc_elem. by left. }
  apply decide_ext. rewrite bind_snoc_elem. cbn [fst]. rewrite proper_prefixes_key. simpl. split.
  - by intros ?; right; right.
  - intros [?|[(j & Hj & ->)|?]]; [done| |done]. destruct (Hst j Hj) as [? Hs]. by rewrite Hm in Hs.
Qed.

(** ** The checker, read as propositions *)

Lemma plainb_sound (cs : list string) : plainb cs = true → plain cs.
Proof.
  unfold plainb, plain. rewrite forallb_forall, Forall_forall. intros H x Hx.
  apply negb_true_iff, H. by apply list_elem_of_In.
Qed.

Lemma prefix_free_sound (ks : list (list string)) (k1 k2 : list string) :
  prefix_free ks = true → k1 ∈ ks → k2 ∈ ks → k1 `prefix_of` k2 → k1 = k2.
Proof.
  unfold prefix_free. rewrite forallb_forall. intros H H1 H2 Hp.
  apply list_elem_of_In in H1, H2. specialize (H k1 H1). rewrite forallb_forall in H.
  specialize (H k2 H2). apply negb_true_iff, bool_decide_eq_false in H.
  destruct (decide (k1 = k2)); [done|]. by exfalso; apply H.
Qed.

Lemma files_of_Some (es : list entry) (k : list string) (n : node) :
  files_of es !! k = Some n → ∃ c, n = File c ∧ (k, c) ∈ es.
Proof.
  unfold files_of. intros H%elem_of_list_to_map_2.
  apply elem_of_reverse, list_elem_of_fmap in H as ([k' c] & [= -> ->] & He). by exists c.
Qed.

(** A key that a later batch of entries writes holds one of that batch's texts. *)
Lemma files_of_app_r (es1 es2 : list entry) (k : list string) (d0 : string) :
  (k, d0) ∈ es2 → ∃ d, (k, d) ∈ es2 ∧ files_of (es1 ++ es2) !! k = Some (File d).
Proof.
  induction es2 as [|e es2 IH] using rev_ind; [by intros ?%elem_of_nil|].
  intros Hin. rewrite app_assoc, files_of_snoc.
  destruct (decide (e.1 = k)) as [<-|Hne].
  - exists e.2. rewrite lookup_insert_eq. split; [|done]. destruct e. apply elem_of_app. right. by left.
  - rewrite lookup_insert_ne by done.
    apply elem_of_app in Hin as [Hin|Hin%list_elem_of_singleton]; [|by subst e].
    destruct (IH Hin) as (d & Hd & Hl). exists d. split; [apply elem_of_app; by left|done].
Qed.

Lemma dirs_of_Some (es : list entry) (k : list string) (n : node) :
  dirs_of es !! k = Some n → n = Dir ∧ ∃ e, e ∈ es ∧ k `prefix_of` e.1 ∧ k ≠ e.1.
Proof.
  rewrite dirs_of_lookup. case_decide as H; [|done]. intros [= <-]. split; [done|].
  apply list_elem_of_bind in H as (e & Hk & He). exists e. split; [done|].
  apply elem_of_proper_prefixes in Hk as (j & Hj & ->). split; [apply prefix_take|].
  intros E. apply (f_equal length) in E. rewrite length_take in E. lia.
Qed.

Lemma cleared_lookup (m : gmap (list string) node) (qo k : list string) :
  cleared m qo !! k = if decide (qo `prefix_of` k) then None else m !! k.
Proof.
  unfold cleared. rewrite map_lookup_filter.
  destruct (m !! k); simpl; case_decide; simpl;
    rewrite ?option_guard_True, ?option_guard_False by tauto; done.
Qed.

Lemma omap_mjoin {A B} (f : A → option B) (l : list A) : omap f l = mjoin (map (λ x, option_list (f x)) l).
Proof. induction l as [|x l IH]; [done|]. simpl. destruct (f x); simpl; [f_equal|]; exact IH. Qed.

Lemma isfile_file_text (w : world) (p : string) :
  isfile w p = match file_text w p with Some _ => true | None => false end.
Proof. unfold isfile, file_text. by destruct (stat w p) as [|[]]. Qed.

(** ** A tree partly staged *)

Section Tree.
Context (w : world) (qo : list string) (E : list entry).
Hypotheses (Hw : wf_world w) (Hq : qo ≠ []) (Hpar : fs w !! removelast qo = Some Dir)
  (Hbelow : ∀ e, e ∈ E → qo `prefix_of` e.1 ∧ e.1 ≠ qo)
  (Hfree : ∀ e1 e2, e1 ∈ E → e2 ∈ E → e1.1 `prefix_of` e2.1 → e1.1 = e2.1).

(** The directories above the output directory exist. *)
Lemma above_out_dir (k : list string) : k `prefix_of` qo → k ≠ qo → fs w !! k = Some Dir.
Proof.
  intros Hk Hne. destruct (exists_last Hq) as (r & x & Er).
  rewrite Er in Hk, Hpar. rewrite removelast_last in Hpar.
  destruct (prefix_snoc_cases _ _ _ Hk) as [[t ->] | ->]; [|done].
  destruct t as [|y t]; [by rewrite app_nil_r in Hpar|].
  pose proof (wf_prefix_dir (fs w) [] (k ++ y :: t) Dir Hw Hpar (length k)) as H.
  rewrite !app_nil_l, take_app_length in H. apply H. rewrite length_app. simpl. lia.
Qed.

(** A proper prefix of a staged key is above the output or below it. *)
Lemma prefix_of_key (e : entry) (k : list string) :
  e ∈ E → k `prefix_of` e.1 → (qo `prefix_of` k) ∨ (k `prefix_of` qo ∧ k ≠ qo).
Proof.
  intros He Hk. destruct (Hbelow e He) as [Hqe _].
  destruct (prefix_weak_total k qo e.1 Hk Hqe) as [H|H]; [|by left].
  destruct (decide (k = qo)) as [->|Hne]; [left; done|by right].
Qed.

Context (acc : list entry).
Hypothesis (Hacc : ∀ e, e ∈ acc → e ∈ E).

Lemma staged_outside (k : list string) :
  ¬ qo `prefix_of` k → staged_fs (cleared (fs w) qo) acc !! k = fs w !! k.
Proof.
  intros Hk. unfold staged_fs. rewrite !lookup_union, cleared_lookup, decide_False by done.
  destruct (files_of acc !! k) as [n|] eqn:Hf.
  { exfalso. apply files_of_Some in Hf as (c & _ & Hc). apply Hk, (Hbelow (k, c)), Hacc, Hc. }
  destruct (dirs_of acc !! k) as [n|] eqn:Hd.
  - apply dirs_of_Some in Hd as (-> & e & He & Hke & _).
    destruct (prefix_of_key e k (Hacc e He) Hke) as [|[H1 H2]]; [done|].
    by rewrite above_out_dir.
  - by destruct (fs w !! k).
Qed.

(** No file on the way to a key to stage. *)
Lemma staged_no_file (e : entry) (k : list string) (d : string) :
  e ∈ E → k `prefix_of` e.1 → k ≠ e.1 → staged_fs (cleared (fs w) qo) acc !! k ≠ Some (File d).
Proof.
  intros He Hk Hne. destruct (prefix_of_key e k He Hk) as [Hb|[H1 H2]].
  - unfold staged_fs. rewrite !lookup_union, cleared_lookup, decide_True by done.
    destruct (files_of acc !! k) as [n|] eqn:Hf.
    + apply files_of_Some in Hf as (c & -> & Hc).
      pose proof (Hfree (k, c) e (Hacc _ Hc) He Hk) as E1. simpl in E1. done.
    + destruct (dirs_of acc !! k) as [n|] eqn:Hd; [|done].
      apply dirs_of_Some in Hd as [-> _]. done.
  - rewrite staged_outside by (intros H3; apply H2; by apply (anti_symm prefix)).
    by rewrite above_out_dir.
Qed.

(** No directory where a key is to be staged. *)
Lemma staged_not_dir (e : entry) : e ∈ E → staged_fs (cleared (fs w) qo) acc !! e.1 ≠ Some Dir.
Proof.
  intros He. destruct (Hbelow e He) as [Hqe _]. unfold staged_fs.
  rewrite !lookup_union, cleared_lookup, decide_True by done.
  destruct (files_of acc !! e.1) as [n|] eqn:Hf.
  { apply files_of_Some in Hf as (c & -> & _). by rewrite union_Some_l. }
  destruct (dirs_of acc !! e.1) as [n|] eqn:Hd; [|done].
  apply dirs_of_Some in Hd as (-> & e' & He' & Hp & Hne).
  by pose proof (Hfree e e' He (Hacc _ He') Hp).
Qed.

End Tree.

Section TemplateEntries.
Context `{Yaml} `{!Jinja}.

(** What the template layer stages, name by name. *)
Definition template_out (w : world) (ctx : context) (config : yaml_doc) (n : string) : list entry :=
  match template_entry w ctx config n with inr h => h | inl _ => [] end.

Lemma template_entries_spec (w : world) (ctx : context) (config : yaml_doc) (names : list string)
    (ts : list entry) :
  template_entries w ctx config names = inr ts →
  ts = mjoin (map (template_out w ctx config) names) ∧
  ∀ n, n ∈ names → template_entry w ctx config n = inr (template_out w ctx config n).
Proof.
  revert ts. induction names as [|n ns IH]; intros ts Hts.
  { injection Hts as <-. split; [done|]. by intros n ?%elem_of_nil. }
  simpl in Hts.
  destruct (template_entry w ctx config n) as [e|h] eqn:Hn; [done|].
  destruct (template_entries w ctx config ns) as [e|rest]; [done|]. injection Hts as <-.
  destruct (IH rest eq_refl) as [-> IH2].
  assert (Ho : template_out w ctx config n = h) by (unfold template_out; by rewrite Hn).
  split; [by cbn; rewrite Ho|].
  intros m [->|Hm]%elem_of_cons; [by rewrite Ho|by apply IH2].
Qed.

(** The template layer fails at its first failing name. *)
Lemma template_entries_error (w : world) (ctx : context) (config : yaml_doc) (names : list string)
    (e : exc) :
  template_entries w ctx config names = inl e →
  ∃ pre n post, names = pre ++ n :: post ∧
    (∀ m, m ∈ pre → template_entry w ctx config m = inr (template_out w ctx config m)) ∧
    template_entry w ctx config n = inl e.
Proof.
  induction names as [|n ns IH]; [done|]. simpl.
  destruct (template_entry w ctx config n) as [e'|h] eqn:Hn.
  - intros [= ->]. exists [], n, ns. split; [done|]. split; [by intros m ?%elem_of_nil|done].
  - destruct (template_entries w ctx config ns) as [e'|rest]; [|done]. intros [= ->].
    destruct (IH eq_refl) as (pre & m & post & -> & Hpre & Hm).
    exists (n :: pre), m, post. split; [done|]. split; [|done].
    intros x [->|Hx]%elem_of_cons; [|by apply Hpre]. unfold template_out. by rewrite Hn.
Qed.

End TemplateEntries.

(** ** The cleared and the empty staging *)

Lemma cleared_absent (m : gmap (list string) node) (qo : list string) :
  wf_fs m → m !! qo = None → cleared m qo = m.
Proof.
  intros Hm Hqo. apply map_eq. intros k. rewrite cleared_lookup. case_decide as Hk; [|done].
  destruct Hk as [[|x r] ->]; [by rewrite app_nil_r|].
  destruct (m !! (qo ++ x :: r)) as [n|] eqn:E1; [|done].
  pose proof (wf_prefix_dir m qo (x :: r) n Hm E1 0) as H0. simpl in H0.
  rewrite app_nil_r, Hqo in H0. exfalso. specialize (H0 ltac:(lia)). discriminate.
Qed.

Lemma staged_fs_nil (m : gmap (list string) node) : staged_fs m [] = m.
Proof. unfold staged_fs, files_of, dirs_of. simpl. by rewrite (left_id_L ∅ union), (right_id_L ∅ union). Qed.

End Staging.
