(* ===== verification/Confinement.v ===== *)
(** * Every run stays in its output directory and terminates

    [Refinement] describes the runs that succeed.  This file is about every
    run, including those that end with an exception half way: a file
    that cannot be read, a template Jinja does not render, a destination
    that is a directory.  [kept s] says that the tree of [s] agrees with
    the input everywhere outside the output directory [qo].  Each operation
    that changes the tree preserves it when it writes at or below [qo].
    This holds for [os.mkdir] ([mkdir_kept]), the file write
    ([write_text_kept]), the recursion of [os.makedirs] ([makedirs_kept]),
    [shutil.copy] ([copy_kept]) and [shutil.rmtree] ([rmtree_kept]).  It
    holds for the script's [prep_dst], [copy_file] and [process_template],
    and for its three loops, whose walk is then the listing of the input
    tree ([loop_eager]).  [layout_ok] decides the conditions on the input.
    It is the part of [Refinement.staging_ok] that concerns paths.  The
    theorems: every run leaves the tree outside [qo] as it was, and every
    run ends with a value or a Python exception, never with the
    model's [OutOfFuel] ([main_confined], [main_terminates]). *)

From S2P Require Import Prelude PyStr PosixPath FileSys Glob Matcher Host BuildWebui Staging.

Module Confinement.
Import PyStr PosixPath FileSys Glob Matcher Host BuildWebui Staging.

(** Two paths on one branch of the tree. *)
Definition comparable (qo k : list string) : Prop := qo `prefix_of` k ∨ k `prefix_of` qo.

(** The tree of [s] agrees with the input [w] outside the output
    directory [qo]. *)
Definition kept (w : world) (qo : list string) (s : world) : Prop :=
  wf_world s ∧ cwd s = cwd w ∧ ∀ k, ¬ qo `prefix_of` k → fs s !! k = fs w !! k.

(** A computation is safe when it keeps the tree outside the output and
    raises no [OutOfFuel]. *)
Definition safe {A} (w : world) (qo : list string) (m : PyM A) : Prop :=
  StExc.triple (kept w qo) m (kept w qo) no_fuel.

(** ** What [main] needs of its input: the paths of every write *)

Section Layout.
Context `{ScandirOrder} `{Yaml} `{!Jinja} `{ConfigParser}.

(** A listed template file: a checked destination, renamed when it is
    rendered. *)
Definition template_layout_ok (w : world) (ctx : context) (qo : list string) (fname : string) : bool :=
  source_ok w qo fname &&
  match file_text w fname with
  | None => true
  | Some _ =>
      if template_search fname then
        let dest := dst_path fname (build_platform ctx) template_prefix (build_data_dir ctx) in
        dest_ok w qo dest (replace dest ".tmpl." ".")
      else copy_ok w ctx qo template_prefix fname
  end.

(** The output directory can be cleared, the roots are walked away from
    it, and every file of the listings is a plain source written to a
    checked destination below the output. *)
Definition layout_ok (w : world) (ctx : context) (qo : list string) : bool :=
  out_ok w (output_root ctx) qo &&
  forallb (root_ok w qo) [common_prefix; template_prefix; device_prefix ctx] &&
  forallb (common_ok w ctx qo) (listing w common_prefix) &&
  forallb (template_layout_ok w ctx qo) (listing w template_prefix) &&
  forallb (device_ok w ctx qo) (listing w (device_prefix ctx)).

End Layout.

Lemma comparable_prefix (qo k k' : list string) :
  comparable qo k' → k `prefix_of` k' → comparable qo k.
Proof.
  intros [Hq|Hq] Hk; [by apply (prefix_weak_total qo k k')|].
  right. by transitivity k'.
Qed.

Lemma plain_basename (p : string) :
  plain (components p) → plain (components (basename p)).
Proof.
  intros Hp. destruct (components_basename_sub p) as [->|[-> Hin]]; [constructor|].
  constructor; [|constructor]. by eapply Forall_forall in Hp.
Qed.

(** [os.path.join(dst, os.path.basename(src))]: the components of [dst]
    and at most one more. *)
Lemma key_join_basename (w : world) (dst src : string) :
  dst ≠ "" →
  key w (PosixPath.join dst [basename src]) = key w dst ++ components (basename src).
Proof.
  intros Hd. unfold key, start, PosixPath.join. simpl.
  change "/" with sep. rewrite (startswith_join_step dst _ Hd (basename_not_sep src)).
  rewrite components_join_step by apply basename_not_sep. by rewrite app_assoc.
Qed.

Lemma dest_ok_spec (w : world) (qo : list string) (dest out : string) :
  dest_ok w qo dest out = true →
  basename out ≠ "" ∧ dirname out = dirname dest ∧ basename (dirname dest) ≠ "" ∧
  plain (components out) ∧ fs w !! start w dest = Some Dir ∧ ¬ qo `prefix_of` start w dest ∧
  qo `prefix_of` key w out ∧ key w out ≠ qo.
Proof.
  unfold dest_ok, outside, strictly_below. rewrite !andb_true_iff, !negb_true_iff.
  intros ((((((C1 & C2) & C3) & C4) & C5) & C6) & C7).
  apply eqb_true in C2. apply bool_decide_eq_false in C6. apply bool_decide_eq_true in C5, C7.
  split; [by intros E1; rewrite E1 in C1|]. split; [done|].
  split; [by intros E1; rewrite E1 in C3|]. split; [by apply plainb_sound|].
  split; [done|]. split; [done|]. by destruct C7.
Qed.

Lemma start_dirname_any (w : world) (p : string) : start w (dirname p) = start w p.
Proof.
  destruct (String.eqb_spec (dirname p) "") as [E|E]; [|by apply start_dirname].
  unfold start. rewrite E. change "/" with sep. by rewrite (rfind_none_not_abs p (dirname_empty p E)).
Qed.

Lemma key_dirname_prefix (w : world) (p : string) : key w (dirname p) `prefix_of` key w p.
Proof.
  unfold key. rewrite start_dirname_any. apply prefix_app, components_dirname_prefix.
Qed.

(** The directory of a checked write is on the branch of the output. *)
Lemma dest_ok_dir (w : world) (qo : list string) (dest out : string) :
  dest_ok w qo dest out = true →
  plain (components (dirname dest)) ∧ comparable qo (key w (dirname dest)) ∧
  plain (components out) ∧ qo `prefix_of` key w out ∧ basename out ≠ "".
Proof.
  intros Hok. destruct (dest_ok_spec w qo dest out Hok) as (Hb & Hd & _ & Hp & _ & _ & Hk & _).
  rewrite <- Hd. split; [apply (plain_prefix _ _ (components_dirname_prefix out) Hp)|].
  split; [|done]. apply (comparable_prefix _ _ (key w out)); [by left|apply key_dirname_prefix].
Qed.

(** [prep_dst] followed by a use of its result: the parents are made, then
    the destination is used. *)
Lemma prep_dst_then {B} (fname bp prefix : string) (dd : option string) (f : string → PyM B)
    (s : world) :
  (prep_dst fname bp prefix dd ≫= f) s =
  ((StExc.get ≫= λ s', if path_exists s' (dirname (dst_path fname bp prefix dd)) then mret tt
                        else makedirs (dirname (dst_path fname bp prefix dd))) ≫= λ _,
     f (dst_path fname bp prefix dd)) s.
Proof.
  unfold prep_dst, mbind, mret, StExc_bind, StExc_ret, StExc.bind, StExc.get, StExc.ret.
  destruct (path_exists _ _); [done|]. by destruct (makedirs _ s) as [[e|[]] s'].
Qed.

Section Kept.
Context (w : world) (qo : list string).
Hypotheses (Hw : wf_world w) (Hq : qo ≠ []) (Hpar : fs w !! removelast qo = Some Dir).

Lemma kept_start (s : world) (p : string) : kept w qo s → start s p = start w p.
Proof. intros (_ & Hc & _). unfold start. by rewrite Hc. Qed.

(** The directories above the output exist in the input. *)
Lemma above_output (k : list string) : k `prefix_of` qo → k ≠ qo → is_Some (fs w !! k).
Proof.
  intros [r ->] Hk. destruct r as [|x r] using rev_ind; [by rewrite app_nil_r in Hk|].
  rewrite app_assoc, removelast_last in Hpar. apply (wf_prefix_some _ _ r Hw). by eexists.
Qed.

Lemma kept_change (s s' : world) :
  kept w qo s → wf_world s' → cwd s' = cwd s → (∀ k, ¬ qo `prefix_of` k → fs s' !! k = fs s !! k) →
  kept w qo s'.
Proof.
  intros (_ & Hc & Hs) Hw' Hc' Hk. split; [done|]. split; [congruence|].
  intros k Hqk. rewrite Hk by done. by apply Hs.
Qed.

(** A write at or below the output, or a new directory above it. *)
Lemma kept_insert (s : world) (k : list string) (n : node) :
  kept w qo s → wf_world (set_fs s (<[k := n]> (fs s))) →
  qo `prefix_of` k ∨ k `prefix_of` qo ∧ fs s !! k = None →
  kept w qo (set_fs s (<[k := n]> (fs s))).
Proof.
  intros Hs Hw' Hk. apply (kept_change s); [done|done|done|]. intros k' Hk'. simpl.
  destruct (decide (k' = k)) as [->|Hne]; [|by rewrite lookup_insert_ne].
  destruct Hk as [Hk|[Hk Hn]]; [done|]. exfalso.
  assert (Hkq : k ≠ qo) by (intros ->; apply Hk'; done).
  destruct (above_output k Hk Hkq) as [m Hm]. destruct Hs as (_ & _ & Hs).
  rewrite Hs in Hn by done. congruence.
Qed.

Lemma kept_print (s : world) (out : list string) : kept w qo s → kept w qo (mkWorld (fs s) (cwd s) out).
Proof. done. Qed.

(** [os.mkdir(p)] creates only the entry at the key of [p], and only when
    it is missing, so that a directory above the output is never changed. *)
Lemma mkdir_kept (p : string) :
  plain (components p) → comparable qo (key w p) → StExc.preserves (kept w qo) (mkdir p).
Proof.
  intros Hp Hk s Hs. pose proof (mkdir_wf p s (proj1 Hs)) as Hw'. revert Hw'.
  unfold mkdir, mbind, StExc_bind. rewrite StExc.bind_get.
  destruct (resolve_parent s p) as [e|[par name]] eqn:Hr; [by intros|].
  destruct (resolve_parent_key s p par name Hp Hr) as [Hpn ->].
  rewrite Hpn, (kept_start s p Hs). change (start w p ++ components p) with (key w p).
  destruct (fs s !! key w p) as [n|] eqn:Hl; [by intros|]. intros Hw'.
  apply kept_insert; [done|done|]. destruct Hk as [Hk|Hk]; [by left|by right].
Qed.

(** [open(p, 'w').write(data)] writes only the entry at the key of [p]. *)
Lemma write_text_kept (p data : string) :
  plain (components p) → qo `prefix_of` key w p → StExc.preserves (kept w qo) (write_text p data).
Proof.
  intros Hp Hk s Hs. pose proof (write_text_wf p data s (proj1 Hs)) as Hw'. revert Hw'.
  unfold write_text, mbind, StExc_bind. rewrite StExc.bind_get.
  destruct (_ && _); [by intros|].
  destruct (resolve_parent s p) as [e|[par name]] eqn:Hr; [by intros|].
  destruct (resolve_parent_key s p par name Hp Hr) as [Hpn Hn]. cbv zeta.
  rewrite (step_comp_plain par name Hn), Hpn, (kept_start s p Hs).
  change (start w p ++ components p) with (key w p).
  destruct (fs s !! key w p) as [[d|]|]; [destruct (endswith p "/")|by intros|destruct (endswith p "/")];
    try by intros.
  all: intros Hw'; apply kept_insert; auto.
Qed.

Lemma pass_file_exists_preserves (P : world → Prop) (e : exc) :
  StExc.preserves P (pass_file_exists e).
Proof. unfold pass_file_exists. repeat case_match; auto with pystr. Qed.

(** [os.makedirs(name)]: every directory it makes is on the way to [name]. *)
Lemma makedirs_go_kept (n : nat) (name : string) :
  plain (components name) → comparable qo (key w name) → StExc.preserves (kept w qo) (makedirs_go n name).
Proof.
  revert name. induction n as [|n IH]; intros name Hp Hk; [apply StExc.preserves_raise|].
  cbn [makedirs_go]. destruct (makedirs_split name) as [head tail] eqn:Hs.
  apply preserves_mbind; [auto with pystr|]. intros s0.
  apply StExc.preserves_bind; [|intros []; [auto with pystr|by apply mkdir_kept]].
  destruct (String.eqb_spec head "") as [->|Hh]; [simpl; auto with pystr|].
  destruct (_ && _); [|auto with pystr].
  apply preserves_mbind; [|auto with pystr].
  apply StExc.preserves_catch; [|apply pass_file_exists_preserves].
  destruct (makedirs_split_key w name head tail Hs Hh) as [Hst Hpre].
  apply IH; [by apply (plain_prefix _ _ Hpre)|].
  apply (comparable_prefix _ _ (key w name) Hk). unfold key. rewrite Hst. by apply prefix_app.
Qed.

Lemma makedirs_kept (name : string) :
  plain (components name) → comparable qo (key w name) → StExc.preserves (kept w qo) (makedirs name).
Proof. apply makedirs_go_kept. Qed.

(** [shutil.copy(src, dst)] writes [dst], or [dst/basename(src)] when [dst]
    is a directory. *)
Lemma copy_kept (src dst : string) :
  plain (components src) → plain (components dst) → basename dst ≠ "" →
  qo `prefix_of` key w dst → StExc.preserves (kept w qo) (copy src dst).
Proof.
  intros Hps Hpd Hb Hk. apply preserves_mbind; [auto with pystr|]. intros s0. cbv zeta.
  assert (Hd : ∀ b : bool, plain (components (if b then PosixPath.join dst [basename src] else dst)) ∧
                qo `prefix_of` key w (if b then PosixPath.join dst [basename src] else dst)).
  { intros [|]; [|done]. rewrite key_join_basename by (by apply basename_nonempty_path).
    unfold PosixPath.join. simpl. rewrite components_join_step by apply basename_not_sep.
    split; [apply Forall_app; split; [done|by apply plain_basename]|by apply prefix_app_r]. }
  destruct (Hd (isdir s0 dst)) as [Hp' Hk']. revert Hp' Hk'.
  generalize (if isdir s0 dst then PosixPath.join dst [basename src] else dst). intros d Hp' Hk'.
  destruct (samefile _ _ _); [auto with pystr|].
  apply preserves_mbind; [auto with pystr|intros data].
  apply preserves_mbind; [|auto with pystr].
  apply StExc.preserves_catch; [by apply write_text_kept|]. intros e.
  unfold copyfile_open_error. repeat case_match; auto using preserves_raise_os with pystr.
  apply preserves_mbind; [auto with pystr|]. intros s1.
  destruct (path_exists _ _); auto using preserves_raise_os with pystr.
Qed.

(** [shutil.rmtree(p)] of a path that resolves to the output or below it. *)
Lemma rmtree_kept (p : string) (s : world) :
  kept w qo s → (∀ q, resolve s p = inr q → qo `prefix_of` q) → kept w qo (rmtree p s).2.
Proof.
  intros Hs Hr. pose proof (rmtree_wf p s (proj1 Hs)) as Hw'. revert Hw'.
  unfold rmtree, mbind, StExc_bind. rewrite StExc.bind_get.
  destruct (resolve s p) as [e|q] eqn:Hq'; [by intros|]. specialize (Hr q eq_refl).
  destruct (fs s !! q) as [[d|]|]; [by intros|simpl|by intros].
  assert (Hout : ∀ k, ¬ qo `prefix_of` k → remove_below q (fs s) !! k = fs s !! k).
  { intros k Hk. rewrite remove_below_lookup, decide_True; [done|]. left. intros Hqk.
    apply Hk. by transitivity q. }
  destruct (rmdir_errno p q); intros Hw'; apply (kept_change s); try done; simpl; intros k Hk.
  all: first [by apply Hout | rewrite lookup_delete_ne; [by apply Hout|]; intros <-; by apply Hk].
Qed.

Lemma print_kept (line : string) : StExc.preserves (kept w qo) (print line).
Proof. apply StExc.preserves_modify. intros s. apply kept_print. Qed.

Lemma safe_of {A} (m : PyM A) : StExc.preserves (kept w qo) m → StExc.raises_only no_fuel m → safe w qo m.
Proof. apply StExc.triple_of. Qed.

Lemma safe_bind {A B} (m : PyM A) (f : A → PyM B) : safe w qo m → (∀ a, safe w qo (f a)) → safe w qo (m ≫= f).
Proof. intros Hm Hf. by apply (triple_mbind _ (kept w qo)). Qed.

Lemma safe_ret {A} (a : A) : safe w qo (mret a).
Proof. by apply triple_mret. Qed.

(** [prep_dst] on the branch of the output, then a safe w qo use of the
    destination. *)
Lemma prep_dst_then_safe {B} (fname bp prefix : string) (dd : option string) (f : string → PyM B) :
  let dest := dst_path fname bp prefix dd in
  plain (components (dirname dest)) → comparable qo (key w (dirname dest)) → safe w qo (f dest) →
  safe w qo (prep_dst fname bp prefix dd ≫= f).
Proof.
  intros dest Hp Hk Hf. apply (StExc.triple_ext _ _ _ _ _ (λ s _, prep_dst_then _ _ _ _ f s)).
  apply safe_bind; [|done]. apply safe_of.
  - apply preserves_mbind; [auto with pystr|]. intros s'.
    destruct (path_exists _ _); [auto with pystr|by apply makedirs_kept].
  - apply raises_only_mbind; [auto with raises|]. intros s'.
    destruct (path_exists _ _); auto with raises.
Qed.

(** [copy_file] of a plain source to a checked destination. *)
Lemma copy_file_safe (fname bp prefix : string) (dd : option string) :
  let dest := dst_path fname bp prefix dd in
  dest_ok w qo dest dest = true → plain (components fname) →
  safe w qo (copy_file fname bp prefix dd).
Proof.
  intros dest Hok Hpf. destruct (dest_ok_dir w qo dest dest Hok) as (Hpd & Hkd & Hp & Hk & Hb).
  apply prep_dst_then_safe; [done|done|]. apply safe_bind; [|intros _; apply safe_ret].
  apply safe_of; [by apply copy_kept|apply copy_no_fuel].
Qed.

(** [process_template] to a checked destination: the loader and Jinja only
    read or raise. *)
Lemma process_template_safe `{Yaml} `{!Jinja} `{ConfigParser} `{!LibErrors}
    (fname bp : string) (tenv : list string) (config : yaml_doc) (prefix : string)
    (dd : option string) :
  let dest := dst_path fname bp prefix dd in
  dest_ok w qo dest (replace dest ".tmpl." ".") = true →
  safe w qo (process_template fname bp tenv config prefix dd).
Proof.
  intros dest Hok. destruct (dest_ok_dir w qo dest _ Hok) as (Hpd & Hkd & Hp & Hk & Hb).
  unfold process_template. apply safe_bind; [apply safe_of; [apply print_kept|apply StExc.raises_only_modify]|].
  intros u. cbv beta. apply safe_bind; [apply safe_of; [auto using get_source_preserves|apply get_source_no_fuel]|].
  intros src. apply safe_bind; [apply safe_of; [apply lift_preserves|]|].
  { apply lift_no_fuel. intros e. apply jinja_render_no_fuel. }
  intros r. apply prep_dst_then_safe; [done|done|].
  apply safe_of; [by apply write_text_kept|apply write_text_no_fuel].
Qed.

(** ** The loops walk the listing of the input tree *)

Lemma root_ok_spec `{ScandirOrder} (prefix : string) :
  root_ok w qo prefix = true →
  let d := dirname (prefix +:+ "**") in
  basename (prefix +:+ "**") = "**" ∧ d ≠ "" ∧ has_magic d = false ∧ plain (components d) ∧
  ∃ qr, resolve w d = inr qr ∧ ¬ qr `prefix_of` qo ∧ ¬ qo `prefix_of` qr.
Proof.
  intros Hr. unfold root_ok, outside in Hr. cbv zeta in Hr |- *.
  rewrite !andb_true_iff, !negb_true_iff in Hr.
  destruct Hr as ((((Hb & Hd) & Hm) & Hp) & Hr). apply eqb_true in Hb.
  split; [done|]. split; [by intros E1; rewrite E1 in Hd|]. split; [done|].
  split; [by apply plainb_sound|]. destruct (resolve w _) as [e|qr]; [done|].
  rewrite andb_true_iff, !negb_true_iff in Hr. destruct Hr as [H3 H4].
  apply bool_decide_eq_false in H3, H4. by exists qr.
Qed.

(** A plain source outside the output is seen as in the input. *)
Lemma source_kept (s : world) (n : string) (qs : list string) :
  kept w qo s → plain (components n) → resolve w n = inr qs → ¬ qo `prefix_of` qs →
  resolve s n = inr qs ∧ stat s n = stat w n.
Proof.
  intros (_ & Hc & Hf) Hp Hr Hqs.
  assert (Hk : ∀ k, k `prefix_of` qs → fs s !! k = fs w !! k).
  { intros k Hk. apply Hf. intros Hk'. apply Hqs. by transitivity k. }
  split; [by eapply resolve_agree_plain|by eapply stat_agree_plain].
Qed.

Lemma source_ok_kept (s : world) (n : string) :
  kept w qo s → source_ok w qo n = true →
  ∃ qs, resolve w n = inr qs ∧ ¬ qo `prefix_of` qs ∧ resolve s n = inr qs ∧ stat s n = stat w n.
Proof.
  intros Hs. unfold source_ok. rewrite andb_true_iff. intros [Hp Hr].
  destruct (resolve w n) as [e|qs] eqn:E1; [done|]. unfold outside in Hr.
  apply negb_true_iff, bool_decide_eq_false in Hr. exists qs.
  destruct (source_kept s n qs) as [? ?]; auto using plainb_sound.
Qed.

Lemma isfile_kept (s : world) (n : string) :
  kept w qo s → source_ok w qo n = true → isfile s n = isfile w n.
Proof.
  intros Hs Hn. destruct (source_ok_kept s n Hs Hn) as (qs & _ & _ & _ & Hst).
  unfold isfile. by rewrite Hst.
Qed.

(** Jinja's loader finds the same template in a tree kept outside the
    output, and does not change the tree. *)
Lemma get_source_kept (s : world) (t : string) :
  kept w qo s → loader_ok w qo t = true →
  get_source template_env t s = ((get_source template_env t w).1, s).
Proof.
  intros (_ & Hc & Hf) Hl. unfold loader_ok in Hl. unfold get_source, lift. run_simpl.
  destruct (split_template_path t) as [e|pieces]; simpl; [done|].
  set (tp := PosixPath.join "data/webui/template" pieces) in *.
  apply andb_true_iff in Hl as [Hp Ho%negb_true_iff%bool_decide_eq_false].
  assert (Hst : stat s tp = stat w tp).
  { apply stat_agree_key; [by apply plainb_sound|done|]. intros k Hk.
    apply Hf. intros Hqk. apply Ho. by transitivity k. }
  unfold isfile, read_text. run_simpl. rewrite Hst.
  destruct (stat w tp) as [e|[d|]] eqn:E2; simpl; try done.
  change (PosixPath.join "data/webui/template" pieces) with tp. by rewrite Hst, E2.
Qed.

(** Two trees that agree with the input outside the output agree around a
    root walked away from it. *)
Lemma kept_agree_root (s1 s2 : world) (qr : list string) :
  kept w qo s1 → kept w qo s2 → ¬ qr `prefix_of` qo → ¬ qo `prefix_of` qr →
  agree_around qr s1 s2.
Proof.
  intros (_ & Hc1 & Hf1) (_ & Hc2 & Hf2) Hn1 Hn2. split; [congruence|].
  intros k Hk. assert (Hout : ¬ qo `prefix_of` k).
  { intros Hq'. destruct Hk as [Hk|Hk].
    - apply Hn2. by transitivity k.
    - destruct (prefix_weak_total qr qo k Hk Hq'); auto. }
  by rewrite Hf1, Hf2.
Qed.

Section Loops.
Context `{ScandirOrder} `{!ScandirOrderOk}.

(** The names a loop visits from a tree kept outside the output are those
    listed on the input. *)
Lemma listing_kept (prefix : string) (s : world) (names : list string) :
  root_ok w qo prefix = true → kept w qo s →
  iglob_names (glob_fuel s) s (prefix +:+ "**") = Some names → names = listing w prefix.
Proof.
  intros Hr Hs Hn. destruct (root_ok_spec prefix Hr) as (_ & Hd & _ & Hp & qr & Hqr & Hn1 & Hn2).
  assert (Ha : agree_around qr w s) by (apply kept_agree_root; [|done..]; by split).
  rewrite (iglob_names_agree w s _ _ qr Hw Hd Hp Hqr Ha) in Hn.
  destruct (iglob_names_some (glob_fuel w) w (prefix +:+ "**") Hw Hd) as [ns Hns];
    [unfold glob_fuel; lia|].
  unfold listing. rewrite Hns. simpl.
  pose proof (iglob_names_le w _ (glob_fuel w `max` glob_fuel s) _ _ (Nat.le_max_l _ _) Hns) as E1.
  pose proof (iglob_names_le w _ (glob_fuel w `max` glob_fuel s) _ _ (Nat.le_max_r _ _) Hn) as E2.
  rewrite E1 in E2. by injection E2.
Qed.

(** A loop over [glob.iglob(prefix + '**')] whose body keeps a predicate
    [P] of trees kept outside the output runs the body over the listing of
    the input tree, whatever the body raises. *)
Lemma loop_eager (P : world → Prop) (prefix : string) (body : string → PyM unit) (s0 : world) :
  root_ok w qo prefix = true → (∀ s, P s → kept w qo s) → P s0 →
  (∀ n s, n ∈ listing w prefix → P s → P (body n s).2) →
  glob_loop prefix body s0 = StExc.mfor (listing w prefix) body s0.
Proof.
  intros Hr HP Hs0 Hb. destruct (root_ok_spec prefix Hr) as (Hbs & Hd & Hm & Hp & qr & Hqr & Hn1 & Hn2).
  assert (Hq0 : resolve s0 (dirname (prefix +:+ "**")) = inr qr)
    by (apply (source_kept s0 _ qr (HP s0 Hs0) Hp Hqr); intros Hq'; by apply Hn2).
  destruct (iglob_names_some (glob_fuel s0) s0 (prefix +:+ "**") (proj1 (HP s0 Hs0)) Hd) as [names Hn];
    [unfold glob_fuel; lia|].
  rewrite <- (listing_kept prefix s0 names Hr (HP s0 Hs0) Hn).
  unfold glob_loop, mbind, StExc_bind. rewrite StExc.bind_get.
  apply (iglob_for_eager P); try done; [apply (HP s0 Hs0)| |].
  - intros q w' Hq' Hw'. rewrite Hq0 in Hq'. injection Hq' as <-.
    apply kept_agree_root; auto.
  - intros n Hin s Hs. rewrite (listing_kept prefix s0 names Hr (HP s0 Hs0) Hn) in Hin. by apply Hb.
Qed.

(** So a loop whose body is safe on every listed name is safe. *)
Lemma loop_safe (prefix : string) (body : string → PyM unit) :
  root_ok w qo prefix = true → (∀ n, n ∈ listing w prefix → safe w qo (body n)) →
  safe w qo (glob_loop prefix body).
Proof.
  intros Hr Hb. apply (StExc.triple_ext _ _ _ _ (StExc.mfor (listing w prefix) body)).
  - intros s Hs. apply (loop_eager (kept w qo)); [done|done|done|].
    intros n s' Hn Hs'. by apply (Hb n Hn s' Hs').
  - by apply StExc.triple_mfor.
Qed.

End Loops.

Lemma safe_at {A} (m : PyM A) (s0 : world) :
  safe w qo m → kept w qo s0 → StExc.triple (λ s, s = s0) m (kept w qo) no_fuel.
Proof. intros Hm Hs0 s ->. by apply Hm. Qed.

Lemma source_ok_plain (n : string) : source_ok w qo n = true → plain (components n).
Proof. unfold source_ok. intros [Hp _]%andb_true_iff. by apply plainb_sound. Qed.

Section Bodies.
Context `{ScandirOrder} `{!ScandirOrderOk} `{Yaml} `{!Jinja} `{ConfigParser} `{!LibErrors}.

(** The body of a loop: the tree is read, then [if os.path.isfile(filename)
    ...], where the test [g] may add conditions on the name. *)
Lemma isfile_body_safe (n : string) (g : bool → bool) (m : PyM unit) :
  source_ok w qo n = true → (g (isfile w n) = true → safe w qo m) →
  safe w qo (s' ← StExc.get; if g (isfile s' n) then m else mret tt).
Proof.
  intros Hsrc Hm. unfold mbind at 1, StExc_bind at 1. apply StExc.triple_get_bind. intros s0 Hs0.
  rewrite (isfile_kept s0 n Hs0 Hsrc).
  destruct (g (isfile w n)); [apply safe_at; auto|by apply StExc.triple_ret; intros ? ->].
Qed.

Lemma common_loop_safe (ctx : context) :
  root_ok w qo common_prefix = true → forallb (common_ok w ctx qo) (listing w common_prefix) = true →
  safe w qo (common_loop ctx).
Proof.
  intros Hr Hok. unfold common_loop. cbv zeta. fold common_prefix. apply loop_safe; [done|].
  intros n Hn. apply (forallb_elem _ _ n) in Hok; [|done].
  apply andb_true_iff in Hok as [Hsrc Hok].
  apply (isfile_body_safe n (λ b, b)); [done|]. rewrite isfile_file_text. intros Hf.
  destruct (file_text w n); [|done]. apply copy_file_safe; [done|by apply source_ok_plain].
Qed.

Lemma device_loop_safe (ctx : context) :
  root_ok w qo (device_prefix ctx) = true →
  forallb (device_ok w ctx qo) (listing w (device_prefix ctx)) = true →
  safe w qo (device_loop ctx).
Proof.
  intros Hr Hok. unfold device_loop. cbv zeta. fold (device_prefix ctx). apply loop_safe; [done|].
  intros n Hn. apply (forallb_elem _ _ n) in Hok; [|done].
  apply andb_true_iff in Hok as [Hsrc Hok].
  apply (isfile_body_safe n (λ b, b && negb (String.eqb n ".keep"))); [done|].
  rewrite isfile_file_text. intros Hf. destruct (file_text w n); [|done].
  destruct (String.eqb n ".keep"); [done|]. apply copy_file_safe; [done|by apply source_ok_plain].
Qed.

Lemma template_loop_safe (ctx : context) (config : yaml_doc) :
  root_ok w qo template_prefix = true →
  forallb (template_layout_ok w ctx qo) (listing w template_prefix) = true →
  safe w qo (template_loop ctx config).
Proof.
  intros Hr Hok. unfold template_loop. cbv zeta. fold template_prefix. apply loop_safe; [done|].
  intros n Hn. apply (forallb_elem _ _ n) in Hok; [|done].
  apply andb_true_iff in Hok as [Hsrc Hok]. unfold template_body. cbv zeta. fold template_prefix.
  apply (isfile_body_safe n (λ b, b)); [done|]. rewrite isfile_file_text. intros Hf.
  destruct (file_text w n); [|done]. destruct (template_search n).
  - by apply process_template_safe.
  - apply copy_file_safe; [done|by apply source_ok_plain].
Qed.
End Bodies.
End Kept.
(** ** Every run of the script *)

Lemma rmtree_no_fuel (p : string) : StExc.raises_only no_fuel (rmtree p).
Proof.
  apply raises_only_mbind; [auto with raises|intros s].
  destruct (resolve s p) as [e|q]; [apply raises_only_raise_os|].
  destruct (fs s !! q) as [[d|]|]; try apply raises_only_raise_os.
  apply raises_only_mbind; [auto with raises|intros _].
  destruct (rmdir_errno p q); [apply raises_only_raise_os|auto with raises].
Qed.

Lemma resolve_same (s w : world) (p : string) :
  fs s = fs w → cwd s = cwd w → resolve s p = resolve w p.
Proof. intros Hf Hc. unfold resolve, start. by rewrite Hf, Hc. Qed.

Lemma out_ok_spec (w : world) (out : string) (qo : list string) :
  out_ok w out qo = true → qo ≠ [] ∧ fs w !! removelast qo = Some Dir.
Proof.
  unfold out_ok. rewrite !andb_true_iff. intros [[H1 H2] _].
  apply bool_decide_eq_true in H1, H2. done.
Qed.

Section Main.
Context `{ScandirOrder} `{!ScandirOrderOk} `{Yaml} `{!Jinja} `{ConfigParser} `{!LibErrors}.

(** Until the output directory is cleared, the run only prints and reads. *)
Lemma main_safe (inv : invocation) (w : world) (ctx : context) (qo : list string) :
  wf_world w → (resolve_context inv w).1 = inr ctx → resolve w (output_root ctx) = inr qo →
  layout_ok w ctx qo = true →
  kept w qo (main inv w).2 ∧ ∀ e, (main inv w).1 = inl e → no_fuel e.
Proof.
  intros Hw Hctx Hr Hok. unfold layout_ok in Hok. simpl in Hok. rewrite !andb_true_iff in Hok.
  destruct Hok as ((((Hout & (Hrc & Hrt & Hrd & _)) & Hc) & Ht) & Hd).
  destruct (out_ok_spec w _ qo Hout) as [Hq Hpar].
  set (P1 := λ s : world, fs s = fs w ∧ cwd s = cwd w).
  assert (HP1 : ∀ s, P1 s → kept w qo s).
  { intros s [Hf Hcw]. split; [unfold wf_world; by rewrite Hf|]. split; [done|]. by rewrite Hf. }
  assert (Hpr : ∀ line, StExc.preserves P1 (print line)) by (intros line s Hs; exact Hs).
  pose proof (resolve_context_preserves P1 inv Hpr w (conj eq_refl eq_refl)) as Hw1.
  unfold main, mbind at 1, StExc_bind at 1.
  destruct (resolve_context inv w) as [r1 w1] eqn:E1. simpl in Hctx, Hw1. subst r1.
  apply (StExc.triple_run_bind P1 _ _ _ _ w ctx w1 E1 Hw1). cbv beta.
  apply (triple_mbind _ P1); [apply StExc.triple_of; [apply read_text_preserves|apply read_text_no_fuel]| |exact HP1].
  intros text. apply (triple_mbind _ P1); [|intros config|exact HP1].
  { apply StExc.triple_of; [apply lift_preserves|]. apply lift_no_fuel. apply yaml_load_no_fuel. }
  apply (triple_mbind _ P1); [apply StExc.triple_of; [apply Hpr|apply StExc.raises_only_modify]| |exact HP1].
  intros u. destruct (negb _); [by apply StExc.triple_raise|].
  unfold mbind at 1, StExc_bind at 1. apply StExc.triple_get_bind. intros s0 Hs0.
  apply (triple_mbind _ (kept w qo)); [|intros u1|done].
  - destruct (isdir s0 (output_root ctx)); [|apply StExc.triple_ret; intros ? ->; by apply HP1].
    intros s ->. split.
    + apply rmtree_kept; [by apply HP1|]. intros q Hq'.
      rewrite (resolve_same s0 w) in Hq' by apply Hs0. rewrite Hr in Hq'. by injection Hq' as ->.
    + intros e He. apply (rmtree_no_fuel (output_root ctx) s0 e (rmtree (output_root ctx) s0).2).
      by rewrite <- He, <- surjective_pairing.
  - apply safe_bind; [eapply common_loop_safe; eauto|intros u2].
    apply safe_bind; [eapply template_loop_safe; eauto|intros u3].
    eapply device_loop_safe; eauto.
Qed.

(** C16: the run stays inside its output directory, whether it succeeds or
    stops on an exception: when the context resolves, the output directory
    resolves to [qo] and [layout_ok] holds, every entry of the tree that is
    not [qo] or below it is, after the run, what it was before. *)
Theorem main_confined (inv : invocation) (w : world) (ctx : context) (qo : list string) :
  wf_world w → (resolve_context inv w).1 = inr ctx → resolve w (output_root ctx) = inr qo →
  layout_ok w ctx qo = true →
  ∀ k, ¬ qo `prefix_of` k → fs (main inv w).2 !! k = fs w !! k.
Proof.
  intros Hw Hctx Hr Hok k Hk.
  destruct (main_safe inv w ctx qo Hw Hctx Hr Hok) as [(_ & _ & Hf) _]. by apply Hf.
Qed.

(** The script always finishes: under the same conditions every run
    ends normally or with one of Python's exceptions, never with the
    model's [OutOfFuel].  The fuel of each recursive walk and of
    [os.makedirs] is enough even when the run stops half way. *)
Theorem main_terminates (inv : invocation) (w : world) (ctx : context) (qo : list string) :
  wf_world w → (resolve_context inv w).1 = inr ctx → resolve w (output_root ctx) = inr qo →
  layout_ok w ctx qo = true →
  (main inv w).1 = inr tt ∨ ∃ e, (main inv w).1 = inl e ∧ e ≠ OutOfFuel.
Proof.
  intros Hw Hctx Hr Hok. destruct (main_safe inv w ctx qo Hw Hctx Hr Hok) as [_ He].
  destruct (main inv w).1 as [e|[]]; [right; exists e; split; [done|by apply He]|by left].
Qed.

End Main.

Module Runs.
Import Instances BuildWebui.Runs.

(** The spec's example with an unterminated [{{] in the template: the run
    stops in the template loop. *)
Definition broken_world : world :=
  mkWorld (<[["data"; "webui"; "template"; "banner.tmpl.html"] := File "<h1>{{title"]> spec_tree) [] [].

Lemma main_confined_witness :
  fs (main (Standalone env_test) broken_world).2 !! ["data"; "webui"; "template"; "banner.tmpl.html"] =
  fs broken_world !! ["data"; "webui"; "template"; "banner.tmpl.html"].
Proof.
  apply (main_confined (Standalone env_test) broken_world (mkContext "test" "BUILD_TEST" None)
           ["data"; "BUILD_TEST"]).
  - apply wf_check_sound. vm_compute. reflexivity.
  - vm_compute. reflexivity.
  - vm_compute. reflexivity.
  - vm_compute. reflexivity.
  - intros [r Hr]. discriminate.
Defined.

End Runs.


End Confinement.
