(* ===== verification/Refinement.v ===== *)
(** * [main] refines the declarative staging of [Staging]

    [spec_entries] lists the files a run stages and [staging_ok] decides
    its side conditions.  The proof follows the script.  [staged_state acc
    s] says that the tree of [s] is the input cleared of the output
    directory with the entries [acc] staged.  Each loop body takes a staged
    state to the next one ([copy_step], [template_step],
    [template_body_step]).  A loop over [glob.iglob] is the loop over the
    listing of the input tree ([loop_eager_staged], from
    [Confinement.loop_eager], since a staged state is [kept]).  [main]
    reaches the loops in the cleared tree ([main_cleared]).  The theorems:
    the refinement itself ([main_stages]), the device override
    ([main_device_override]) and the error path of a failing template
    ([main_template_error]), each with a run on the spec's example. *)

From S2P Require Import Prelude PyStr PosixPath FileSys Glob Matcher Host BuildWebui Staging Confinement.

Module Refinement.
Import PyStr PosixPath FileSys Glob Matcher Host BuildWebui Staging Confinement.

(** ** The specification: what a run stages, and when *)

Section Spec.
Context `{ScandirOrder} `{Yaml} `{!Jinja} `{ConfigParser}.

(** Every file the run stages, in the order of the writes. *)
Definition spec_entries (w : world) (ctx : context) (config : yaml_doc) : exc + list entry :=
  match template_entries w ctx config (listing w template_prefix) with
  | inl e => inl e
  | inr ts =>
      inr (common_entries w ctx (listing w common_prefix) ++ ts ++
           device_entries w ctx (listing w (device_prefix ctx)))
  end.

(** The conditions under which the run stages exactly these files: the
    output can be cleared, the roots are walked away from it, every listed
    file is a plain source with a checked destination (and, for a
    template, a loader lookup outside the output), and the staged keys lie
    below the output with none a parent of another. *)
Definition staging_ok (w : world) (ctx : context) (qo : list string) (es : list entry) : bool :=
  out_ok w (output_root ctx) qo &&
  forallb (root_ok w qo) [common_prefix; template_prefix; device_prefix ctx] &&
  forallb (common_ok w ctx qo) (listing w common_prefix) &&
  forallb (template_ok w ctx qo) (listing w template_prefix) &&
  forallb (device_ok w ctx qo) (listing w (device_prefix ctx)) &&
  forallb (λ e, strictly_below qo e.1) es && prefix_free (fst <$> es).

End Spec.

(** ** One loop body at a time *)

Section Steps.
Context `{ScandirOrder} `{Yaml} `{!Jinja} `{ConfigParser}.
Context (w : world) (qo : list string) (E : list entry) (ctx : context).
Hypotheses (Hw : wf_world w) (Hq : qo ≠ []) (Hpar : fs w !! removelast qo = Some Dir)
  (Hbelow : ∀ e, e ∈ E → qo `prefix_of` e.1 ∧ e.1 ≠ qo)
  (Hfree : ∀ e1 e2, e1 ∈ E → e2 ∈ E → e1.1 `prefix_of` e2.1 → e1.1 = e2.1).

(** The states of the loops: a well-formed tree, the working directory of
    the start, and the tree staged with some of the entries. *)
Definition staged_state (acc : list entry) (s : world) : Prop :=
  wf_world s ∧ cwd s = cwd w ∧ fs s = staged_fs (cleared (fs w) qo) acc ∧ ∀ e, e ∈ acc → e ∈ E.

Lemma staged_state_outside (acc : list entry) (s : world) (k : list string) :
  staged_state acc s → ¬ qo `prefix_of` k → fs s !! k = fs w !! k.
Proof. intros (_ & _ & -> & Hacc) Hk. by apply (staged_outside w qo E). Qed.

Lemma staged_kept (acc : list entry) (s : world) : staged_state acc s → kept w qo s.
Proof.
  intros Hs. split; [apply Hs|]. split; [apply Hs|]. intros k Hk. by apply (staged_state_outside acc).
Qed.

Lemma start_cwd (s : world) (p : string) : cwd s = cwd w → start s p = start w p.
Proof. intros Hc. unfold start. by rewrite Hc. Qed.

Lemma start_prefixes_exist (st : list string) :
  fs w !! st = Some Dir → ¬ qo `prefix_of` st →
  ∀ j, j ≤ length st → is_Some (cleared (fs w) qo !! take j st).
Proof.
  intros Hst Hout j Hj. rewrite cleared_lookup, decide_False.
  - destruct (decide (j < length st)).
    + pose proof (wf_prefix_dir (fs w) [] st Dir Hw Hst j) as Hd1. simpl in Hd1.
      rewrite Hd1 by done. by eexists.
    + rewrite take_ge by lia. by rewrite Hst.
  - intros Hp. apply Hout. transitivity (take j st); [done|apply prefix_take].
Qed.

(** What a write of the entry [(st ++ cs ++ [b], c)] finds on the way, and
    what it leaves. *)
Lemma staged_write_pre (acc : list entry) (s : world) (st cs : list string) (b c : string) :
  staged_state acc s → (st ++ cs ++ [b], c) ∈ E →
  (∀ k d, k ∈ dir_prefixes st cs → fs s !! k ≠ Some (File d)) ∧
  fs s !! (st ++ cs ++ [b]) ≠ Some Dir.
Proof.
  intros (_ & _ & -> & Hacc) He. split.
  - intros k d Hk. pose proof (proj2 (proper_prefixes_key st cs b k) (or_intror Hk)) as Hp.
    apply elem_of_proper_prefixes in Hp as (j & Hj & ->).
    apply (staged_no_file w qo E Hw Hq Hpar Hbelow Hfree acc Hacc _ _ d He); [apply prefix_take|].
    intros Eq. apply (f_equal length) in Eq. simpl in Eq. rewrite length_take in Eq. lia.
  - apply (staged_not_dir w qo E Hbelow Hfree acc Hacc _ He).
Qed.

Lemma staged_write (acc : list entry) (s s' : world) (st cs : list string) (b c : string) :
  staged_state acc s → fs w !! st = Some Dir → ¬ qo `prefix_of` st →
  (st ++ cs ++ [b], c) ∈ E → wf_world s' → cwd s' = cwd w →
  fs s' = <[st ++ cs ++ [b] := File c]> (mkdir_p (fs s) st cs) →
  staged_state (acc ++ [(st ++ cs ++ [b], c)]) s'.
Proof.
  intros (_ & _ & Hf & Hacc) Hst Hout He Hw' Hc' Hf'. split; [done|]. split; [done|]. split.
  - rewrite Hf', Hf. by apply staged_step, start_prefixes_exist.
  - intros e [He' | He']%elem_of_app; [by apply Hacc|]. apply list_elem_of_singleton in He' as ->. done.
Qed.

(** [copy_file] of a listed file stages its entry. *)
Lemma copy_step (acc : list entry) (s : world) (prefix fname data : string) :
  let dest := dst_path fname (build_platform ctx) prefix (build_data_dir ctx) in
  staged_state acc s → source_ok w qo fname = true → file_text w fname = Some data →
  copy_ok w ctx qo prefix fname = true → (key w dest, data) ∈ E →
  ∃ s', copy_file fname (build_platform ctx) prefix (build_data_dir ctx) s = (inr tt, s') ∧
        staged_state (acc ++ [(key w dest, data)]) s'.
Proof.
  intros dest Hs Hsrc Hft Hok He.
  destruct (source_ok_kept w qo s fname (staged_kept acc s Hs) Hsrc) as (qs & Hrw & Hqs & Hrs & Hstat).
  destruct (dest_ok_spec w qo dest dest Hok) as (Hb & _ & Hbd & Hp & Hst & Hout & Hkb & Hkn).
  destruct (components_basename dest Hb) as [Hcs _].
  assert (Hkey : key w dest = start w dest ++ components (dirname dest) ++ [basename dest])
    by (unfold key; by rewrite Hcs).
  rewrite Hkey in He |- *.
  destruct (staged_write_pre acc s _ _ _ _ Hs He) as [Hnf Hnd].
  pose proof (start_cwd s dest (proj1 (proj2 Hs))) as Hss.
  pose proof (copy_file_run fname (build_platform ctx) prefix data (build_data_dir ctx) s qs)
    as Hc. cbv zeta in Hc. fold dest in Hc. rewrite Hss in Hc. rewrite Hcs in Hc.
  assert (Hrun : copy_file fname (build_platform ctx) prefix (build_data_dir ctx) s =
    (inr tt, set_fs s (<[start w dest ++ components (dirname dest) ++ [basename dest] := File data]>
                        (mkdir_p (fs s) (start w dest) (components (dirname dest)))))).
  { apply Hc; try done.
    - apply Hs.
    - by rewrite <- Hcs.
    - by rewrite (staged_state_outside acc s _ Hs Hout).
    - unfold file_text in Hft. rewrite Hstat. by destruct (stat w fname) as [|[]]; simplify_eq.
    - intros ->. apply Hqs. by rewrite <- Hkey. }
  pose proof (copy_file_wf fname (build_platform ctx) prefix (build_data_dir ctx) s (proj1 Hs))
    as Hw'. rewrite Hrun in Hw'.
  eexists. split; [exact Hrun|].
  eapply staged_write; [exact Hs|done|done|exact He|exact Hw'|apply Hs|reflexivity].
Qed.

(** Jinja's loader finds the same template in a partly staged tree. *)
Lemma get_source_agree (acc : list entry) (s : world) (t : string) :
  staged_state acc s → loader_ok w qo t = true →
  get_source template_env t s = ((get_source template_env t w).1, s).
Proof. intros Hs. apply get_source_kept, (staged_kept acc), Hs. Qed.

(** [process_template] of a listed template stages its entry. *)
Lemma template_step (acc : list entry) (s : world) (config : yaml_doc) (fname : string)
    (r : entry) :
  let dest := dst_path fname (build_platform ctx) template_prefix (build_data_dir ctx) in
  staged_state acc s → dest_ok w qo dest (replace dest ".tmpl." ".") = true →
  loader_ok w qo (replace (replace fname template_prefix "") backslash "/") = true →
  render_entry w ctx config template_prefix fname = inr r → r ∈ E →
  ∃ s', process_template fname (build_platform ctx) template_env config template_prefix
          (build_data_dir ctx) s = (inr tt, s') ∧
        staged_state (acc ++ [r]) s'.
Proof.
  intros dest Hs Hok Hl Hr He. unfold render_entry in Hr. fold dest in Hr.
  destruct (get_source _ _ w).1 as [e|src] eqn:Hsrc; [done|].
  destruct (jinja_render src config) as [e|rt] eqn:Hj; [done|]. injection Hr as <-.
  set (out := replace dest ".tmpl." ".") in *.
  destruct (dest_ok_spec w qo dest out Hok) as (Hb & Hd & Hbd & Hp & Hst & Hout & Hkb & Hkn).
  destruct (components_basename out Hb) as [Hcs _]. rewrite Hd in Hcs.
  assert (Hne : dirname dest ≠ "") by (by intros E1; rewrite E1 in Hbd).
  assert (Hso : start w out = start w dest)
    by (rewrite <- (start_dirname w out), Hd by (by rewrite Hd); by apply start_dirname).
  assert (Hkey : key w out = start w dest ++ components (dirname dest) ++ [basename out])
    by (unfold key; by rewrite Hso, Hcs).
  change (key w (replace_scan ".tmpl." "." 0 dest)) with (key w out) in He |- *.
  rewrite Hkey in He |- *.
  destruct (staged_write_pre acc s _ _ _ _ Hs He) as [Hnf Hnd].
  pose proof (start_cwd s dest (proj1 (proj2 Hs))) as Hss.
  pose proof (process_template_run fname (build_platform ctx) src rt template_env config
    template_prefix (build_data_dir ctx) s) as Hc. cbv zeta in Hc. fold dest out in Hc.
  rewrite Hss in Hc. rewrite Hcs in Hc.
  assert (Hrun : process_template fname (build_platform ctx) template_env config template_prefix
      (build_data_dir ctx) s =
    (inr tt, mkWorld (<[start w dest ++ components (dirname dest) ++ [basename out] := File rt]>
                        (mkdir_p (fs s) (start w dest) (components (dirname dest))))
                     (cwd s) (stdout s ++ ["processing template file " +:+ fname]))).
  { apply Hc; try done.
    - apply Hs.
    - by rewrite <- Hcs.
    - by rewrite (staged_state_outside acc s _ Hs Hout).
    - by rewrite (get_source_agree acc s _ Hs Hl). }
  pose proof (process_template_wf fname (build_platform ctx) template_env config template_prefix
    (build_data_dir ctx) s (proj1 Hs)) as Hw'. rewrite Hrun in Hw'.
  eexists. split; [exact Hrun|].
  eapply staged_write; [exact Hs|done|done|exact He|exact Hw'|apply Hs|reflexivity].
Qed.

(** A loop over [glob.iglob(prefix + '**')] whose body keeps some staged
    state runs the body over the listing of the input tree. *)
Lemma loop_eager_staged `{!ScandirOrderOk} (prefix : string) (body : string → PyM unit)
    (acc : list entry) (s0 : world) :
  root_ok w qo prefix = true → staged_state acc s0 →
  (∀ n acc' s, n ∈ listing w prefix → staged_state acc' s →
     ∃ acc'', staged_state acc'' (body n s).2) →
  glob_loop prefix body s0 = StExc.mfor (listing w prefix) body s0.
Proof.
  intros Hr Hs0 Hb. apply (loop_eager w qo Hw (λ s, ∃ acc, staged_state acc s)); [done| |by exists acc|].
  - intros s [acc' Hs]. by apply (staged_kept acc').
  - intros n s Hn [acc' Hs]. by apply (Hb n acc' s).
Qed.

(** A loop over [glob.iglob(prefix + '**')] whose body stages [out n] for
    each listed name [n] stages them all, in the order of the listing. *)
Lemma loop_stages `{!ScandirOrderOk} (prefix : string) (body : string → PyM unit)
    (out : string → list entry) (acc : list entry) (s0 : world) :
  root_ok w qo prefix = true → staged_state acc s0 →
  (∀ n acc' s, n ∈ listing w prefix → staged_state acc' s →
     ∃ s', body n s = (inr tt, s') ∧ staged_state (acc' ++ out n) s') →
  ∃ s', glob_loop prefix body s0 = (inr tt, s') ∧
        staged_state (acc ++ mjoin (map out (listing w prefix))) s'.
Proof.
  intros Hr Hs0 Hb. rewrite (loop_eager_staged prefix body acc s0 Hr Hs0).
  - apply StExc.mfor_accumulate; [|done]. intros n acc' s Hin Hs. by apply Hb.
  - intros n acc' s Hn Hs. destruct (Hb n acc' s Hn Hs) as (s' & -> & Hs'). by exists (acc' ++ out n).
Qed.

(** [for filename in glob.iglob(f'{common_prefix}**', recursive=True)] *)
Lemma common_loop_stages `{!ScandirOrderOk} (acc : list entry) (s0 : world) :
  root_ok w qo common_prefix = true →
  forallb (common_ok w ctx qo) (listing w common_prefix) = true →
  (∀ e, e ∈ common_entries w ctx (listing w common_prefix) → e ∈ E) →
  staged_state acc s0 →
  ∃ s', common_loop ctx s0 = (inr tt, s') ∧
        staged_state (acc ++ common_entries w ctx (listing w common_prefix)) s'.
Proof.
  intros Hr Hok HE Hs0. unfold common_loop, common_entries. cbv zeta. fold common_prefix.
  rewrite omap_mjoin. apply loop_stages; [done|done|]. intros n acc' s Hn Hs.
  apply (forallb_elem _ _ n) in Hok; [|done].
  unfold common_ok in Hok. apply andb_true_iff in Hok as [Hsrc Hok].
  unfold mbind, StExc_bind. rewrite StExc.bind_get, (isfile_kept w qo s n (staged_kept acc' s Hs) Hsrc), isfile_file_text.
  unfold copy_entry. destruct (file_text w n) as [data|] eqn:Hft; simpl.
  - apply (copy_step acc' s common_prefix n data Hs Hsrc Hft Hok). apply HE.
    unfold common_entries. rewrite omap_mjoin. apply list_elem_of_join. eexists. split; [|apply list_elem_of_fmap_2, Hn].
    unfold copy_entry. rewrite Hft. by left.
  - exists s. by rewrite app_nil_r.
Qed.

(** [for filename in glob.iglob(f"{dev_specific_prefix}**", recursive=True)] *)
Lemma device_loop_stages `{!ScandirOrderOk} (acc : list entry) (s0 : world) :
  root_ok w qo (device_prefix ctx) = true →
  forallb (device_ok w ctx qo) (listing w (device_prefix ctx)) = true →
  (∀ e, e ∈ device_entries w ctx (listing w (device_prefix ctx)) → e ∈ E) →
  staged_state acc s0 →
  ∃ s', device_loop ctx s0 = (inr tt, s') ∧
        staged_state (acc ++ device_entries w ctx (listing w (device_prefix ctx))) s'.
Proof.
  intros Hr Hok HE Hs0. unfold device_loop, device_entries. cbv zeta. fold (device_prefix ctx).
  rewrite omap_mjoin. apply loop_stages; [done|done|]. intros n acc' s Hn Hs.
  apply (forallb_elem _ _ n) in Hok; [|done].
  unfold device_ok in Hok. apply andb_true_iff in Hok as [Hsrc Hok].
  unfold mbind, StExc_bind. rewrite StExc.bind_get, (isfile_kept w qo s n (staged_kept acc' s Hs) Hsrc), isfile_file_text.
  unfold device_entry, copy_entry.
  destruct (String.eqb_spec n ".keep") as [|Hnk]; simpl.
  { exists s. rewrite andb_false_r, app_nil_r. done. }
  rewrite andb_true_r. destruct (file_text w n) as [data|] eqn:Hft; simpl; [|exists s; by rewrite app_nil_r].
  apply (copy_step acc' s (device_prefix ctx) n data Hs Hsrc Hft Hok). apply HE.
  unfold device_entries. rewrite omap_mjoin. apply list_elem_of_join. eexists.
  split; [|apply list_elem_of_fmap_2, Hn].
  unfold device_entry, copy_entry. rewrite Hft, (proj2 (String.eqb_neq n ".keep") Hnk). by left.
Qed.

(** [print] changes only the standard output. *)
Lemma staged_state_print (acc : list entry) (s : world) (out : list string) :
  staged_state acc s → staged_state acc (mkWorld (fs s) (cwd s) out).
Proof. done. Qed.

(** [process_template] of a template that the loader does not find, or
    that Jinja does not render, raises that exception after its [print]
    and stages nothing. *)
Lemma template_fail (acc : list entry) (s : world) (config : yaml_doc) (fname : string) (e : exc) :
  staged_state acc s →
  loader_ok w qo (replace (replace fname template_prefix "") backslash "/") = true →
  render_entry w ctx config template_prefix fname = inl e →
  ∃ s', process_template fname (build_platform ctx) template_env config template_prefix
          (build_data_dir ctx) s = (inl e, s') ∧ staged_state acc s'.
Proof.
  intros Hs Hl Hr. unfold render_entry in Hr. unfold process_template, mbind, StExc_bind.
  set (s1 := mkWorld (fs s) (cwd s) (stdout s ++ ["processing template file " +:+ fname])).
  assert (Hs1 : staged_state acc s1) by by apply staged_state_print.
  rewrite (StExc.bind_inr _ _ s tt s1 eq_refl).
  pose proof (get_source_agree acc s1 _ Hs1 Hl) as Hg.
  destruct (get_source _ _ w).1 as [e'|src]; simpl.
  - injection Hr as ->. rewrite (StExc.bind_inl _ _ s1 e s1 Hg). by exists s1.
  - rewrite (StExc.bind_inr _ _ s1 src s1 Hg).
    destruct (jinja_render src config) as [e'|rt] eqn:Hj; [|done]. injection Hr as ->.
    exists s1. split; [reflexivity|done].
Qed.

(** The body of the template loop on a listed name stages the name's
    entries, or raises the exception of its [template_entry]. *)
Lemma template_body_step (config : yaml_doc) (n : string) (acc : list entry) (s : world) :
  template_ok w ctx qo n = true → (∀ e, e ∈ template_out w ctx config n → e ∈ E) →
  staged_state acc s →
  ∃ s', template_body ctx config n s =
          (match template_entry w ctx config n with inl e => inl e | inr _ => inr tt end, s') ∧
        staged_state (acc ++ template_out w ctx config n) s'.
Proof.
  intros Hok HEn Hs. unfold template_ok in Hok. apply andb_true_iff in Hok as [Hsrc Hok].
  unfold template_body, template_out in *. cbv zeta. fold template_prefix.
  unfold mbind, StExc_bind. rewrite StExc.bind_get, (isfile_kept w qo s n (staged_kept acc s Hs) Hsrc), isfile_file_text.
  unfold template_entry in *. destruct (file_text w n) as [data|] eqn:Hft; simpl.
  2:{ exists s. by rewrite app_nil_r. }
  destruct (template_search n).
  - apply andb_true_iff in Hok as [Hd Hl].
    destruct (render_entry w ctx config template_prefix n) as [e|r] eqn:Hre.
    + rewrite app_nil_r. by apply (template_fail acc s config n e Hs Hl).
    + apply (template_step acc s config n r Hs Hd Hl Hre). apply HEn. by left.
  - unfold copy_entry in *. rewrite Hft in HEn |- *. simpl in HEn |- *.
    apply (copy_step acc s template_prefix n data Hs Hsrc Hft Hok). apply HEn. by left.
Qed.

(** [for filename in glob.iglob(f'{webui_template_prefix}**', recursive=True)] *)
Lemma template_loop_stages `{!ScandirOrderOk} (config : yaml_doc) (ts : list entry)
    (acc : list entry) (s0 : world) :
  root_ok w qo template_prefix = true →
  forallb (template_ok w ctx qo) (listing w template_prefix) = true →
  template_entries w ctx config (listing w template_prefix) = inr ts →
  (∀ e, e ∈ ts → e ∈ E) →
  staged_state acc s0 →
  ∃ s', template_loop ctx config s0 = (inr tt, s') ∧ staged_state (acc ++ ts) s'.
Proof.
  intros Hr Hok Hts HE Hs0.
  destruct (template_entries_spec w ctx config _ ts Hts) as [-> Hout].
  unfold template_loop. cbv zeta. fold template_prefix.
  apply loop_stages; [done|done|]. intros n acc' s Hn Hs.
  rewrite forallb_forall in Hok.
  destruct (template_body_step config n acc' s (Hok n (proj1 (list_elem_of_In _ _) Hn))) as (s' & Hrun & Hs');
    [|done|].
  - intros e He. apply HE, list_elem_of_join. exists (template_out w ctx config n).
    split; [done|]. by apply list_elem_of_fmap_2.
  - exists s'. by rewrite Hrun, (Hout n Hn).
Qed.

(** The template loop reaching a failing name: the names before it are
    staged, and the loop raises that name's exception. *)
Lemma template_loop_fails `{!ScandirOrderOk} (config : yaml_doc) (pre : list string) (n : string)
    (post : list string) (e : exc) (acc : list entry) (s0 : world) :
  root_ok w qo template_prefix = true →
  forallb (template_ok w ctx qo) (listing w template_prefix) = true →
  listing w template_prefix = pre ++ n :: post →
  (∀ m, m ∈ pre → template_entry w ctx config m = inr (template_out w ctx config m)) →
  template_entry w ctx config n = inl e →
  (∀ m x, m ∈ listing w template_prefix → x ∈ template_out w ctx config m → x ∈ E) →
  staged_state acc s0 →
  ∃ s', template_loop ctx config s0 = (inl e, s') ∧
        staged_state (acc ++ mjoin (map (template_out w ctx config) pre)) s'.
Proof.
  intros Hr Hok Hl Hpre Hn HE Hs0. rewrite forallb_forall in Hok.
  assert (Hstep : ∀ m acc' s, m ∈ listing w template_prefix → staged_state acc' s →
    ∃ s', template_body ctx config m s =
            (match template_entry w ctx config m with inl e => inl e | inr _ => inr tt end, s') ∧
          staged_state (acc' ++ template_out w ctx config m) s').
  { intros m acc' s Hm Hs. apply template_body_step; [|intros x; by apply HE|done].
    by apply Hok, list_elem_of_In. }
  unfold template_loop. cbv zeta. fold template_prefix.
  rewrite (loop_eager_staged template_prefix _ acc s0 Hr Hs0).
  2:{ intros m acc' s Hm Hs. destruct (Hstep m acc' s Hm Hs) as (s' & -> & Hs'). by eexists. }
  rewrite Hl, StExc.mfor_app.
  destruct (StExc.mfor_accumulate staged_state pre (template_body ctx config)
              (template_out w ctx config)) with acc s0 as (s1 & Hrun1 & Hs1); [|done|].
  { intros m acc' s Hm Hs. destruct (Hstep m acc' s) as (s' & Hrun & Hs');
      [rewrite Hl; apply elem_of_app; by left|done|].
    rewrite Hpre in Hrun by done. by exists s'. }
  rewrite (StExc.bind_inr _ _ s0 tt s1 Hrun1). cbn [StExc.mfor].
  destruct (Hstep n _ s1 ltac:(rewrite Hl; apply elem_of_app; right; by left) Hs1) as (s2 & Hrun2 & Hs2).
  rewrite Hn in Hrun2. rewrite (StExc.bind_inl _ _ s1 e s2 Hrun2). exists s2. split; [done|].
  replace (template_out w ctx config n) with (@nil entry) in Hs2 by (unfold template_out; by rewrite Hn).
  by rewrite app_nil_r in Hs2.
Qed.

End Steps.

(** ** The whole run *)

Section Main.
Context `{ScandirOrder} `{!ScandirOrderOk} `{Yaml} `{!Jinja} `{ConfigParser}.

(** Lines 70-73: after [shutil.rmtree] (when the output is a directory),
    the tree is the input cleared of the output directory. *)
Lemma clear_output (w w2 : world) (out : string) (qo : list string) :
  wf_world w → fs w2 = fs w → cwd w2 = cwd w → resolve w out = inr qo → out_ok w out qo = true →
  ∃ w3, (if isdir w2 out then rmtree out else mret tt) w2 = (inr tt, w3) ∧
        wf_world w3 ∧ cwd w3 = cwd w ∧ fs w3 = cleared (fs w) qo.
Proof.
  intros Hw Hf Hc Hr Hok. unfold out_ok in Hok. rewrite !andb_true_iff in Hok.
  destruct Hok as [[_ _] Hok].
  assert (Hr2 : resolve w2 out = inr qo) by (unfold resolve, start in *; by rewrite Hf, Hc).
  assert (Hi : isdir w2 out = isdir w out) by (unfold isdir; by rewrite (stat_ext w w2)).
  rewrite Hi. unfold isdir, stat. rewrite Hr.
  destruct (fs w !! qo) as [[d|]|] eqn:Hq; [done| |].
  - apply bool_decide_eq_true in Hok.
    destruct (rmtree_clears_subtree out w2 qo Hr2 ltac:(by rewrite Hf) Hok) as [Hrun Hk].
    exists (rmtree out w2).2. split; [by rewrite <- Hrun; destruct (rmtree out w2)|].
    split; [apply (rmtree_wf out w2); unfold wf_world; by rewrite Hf|].
    split; [unfold rmtree; run_simpl; rewrite Hr2; simpl; rewrite Hf, Hq; simpl; by rewrite Hok|].
    apply map_eq. intros k. rewrite Hk, cleared_lookup, Hf. done.
  - exists w2. split; [done|]. unfold wf_world. rewrite Hf. split; [done|]. split; [done|].
    by rewrite cleared_absent.
Qed.

(** What [staging_ok] grants, conjunct by conjunct. *)
Lemma staging_ok_spec (w : world) (ctx : context) (qo : list string) (es : list entry) :
  staging_ok w ctx qo es = true →
  out_ok w (output_root ctx) qo = true ∧ qo ≠ [] ∧ fs w !! removelast qo = Some Dir ∧
  root_ok w qo common_prefix = true ∧ root_ok w qo template_prefix = true ∧
  root_ok w qo (device_prefix ctx) = true ∧
  forallb (common_ok w ctx qo) (listing w common_prefix) = true ∧
  forallb (template_ok w ctx qo) (listing w template_prefix) = true ∧
  forallb (device_ok w ctx qo) (listing w (device_prefix ctx)) = true ∧
  (∀ e, e ∈ es → qo `prefix_of` e.1 ∧ e.1 ≠ qo) ∧
  (∀ e1 e2, e1 ∈ es → e2 ∈ es → e1.1 `prefix_of` e2.1 → e1.1 = e2.1).
Proof.
  unfold staging_ok. rewrite !andb_true_iff. simpl. rewrite !andb_true_iff.
  intros ((((((Hout & Hrc & Hrt & Hrd & _) & Hc) & Ht) & Hd) & Hb) & Hpf).
  pose proof Hout as Hout'. unfold out_ok in Hout'. rewrite !andb_true_iff in Hout'.
  destruct Hout' as [[Hq%bool_decide_eq_true Hpar%bool_decide_eq_true] _].
  do 9 (split; [done|]). split.
  - intros e He. rewrite forallb_forall in Hb. apply (bool_decide_eq_true_1 _), Hb, list_elem_of_In, He.
  - intros e1 e2 He1 He2. apply (prefix_free_sound _ _ _ Hpf); by apply list_elem_of_fmap_2.
Qed.

(** The layers of [spec_entries] are among its entries. *)
Lemma spec_entries_layers (w : world) (ctx : context) (config : yaml_doc) (es : list entry) :
  spec_entries w ctx config = inr es →
  ∃ ts, template_entries w ctx config (listing w template_prefix) = inr ts ∧
        es = common_entries w ctx (listing w common_prefix) ++ ts ++
             device_entries w ctx (listing w (device_prefix ctx)).
Proof.
  unfold spec_entries. destruct (template_entries _ _ _ _) as [e|ts]; [done|].
  intros [= <-]. by exists ts.
Qed.

(** Lines 59-75: with the context resolved, the configuration read and
    parsed and a [BUILD_*] platform, [main] reaches its three loops in a
    tree that is the input cleared of the output directory. *)
Lemma main_cleared (inv : invocation) (w : world) (ctx : context) (text : string)
    (config : yaml_doc) (qo : list string) :
  wf_world w →
  (resolve_context inv w).1 = inr ctx →
  stat w (PosixPath.join "data" ["webui"; "config"; target ctx +:+ ".yaml"]) = inr (File text) →
  yaml_load text = inr config →
  startswith (build_platform ctx) "BUILD_" = true →
  resolve w (output_root ctx) = inr qo → out_ok w (output_root ctx) qo = true →
  ∃ w3, main inv w = (common_loop ctx;; template_loop ctx config;; device_loop ctx) w3 ∧
        wf_world w3 ∧ cwd w3 = cwd w ∧ fs w3 = cleared (fs w) qo.
Proof.
  intros Hw Hctx Hst Hy Hbp Hr Hout.
  pose proof (resolve_context_fs inv w) as Hf1. pose proof (resolve_context_cwd inv w) as Hc1.
  unfold main at 1. unfold mbind at 1 2 3 4 5, StExc_bind.
  destruct (resolve_context inv w) as [r1 w1] eqn:E1. simpl in Hctx, Hf1, Hc1. subst r1.
  rewrite (StExc.bind_inr _ _ w ctx w1 E1).
  rewrite (StExc.bind_inr _ _ w1 text w1) by (apply read_text_file; by rewrite (stat_ext w w1)).
  rewrite (StExc.bind_inr _ _ w1 config w1) by (unfold lift; by rewrite Hy).
  erewrite StExc.bind_inr by reflexivity.
  rewrite Hbp. cbn [negb]. unfold mbind at 1. rewrite StExc.bind_get.
  match goal with |- context [StExc.bind _ (if isdir ?w2 _ then _ else _) _] =>
    destruct (clear_output w w2 (output_root ctx) qo Hw Hf1 Hc1 Hr Hout)
      as (w3 & Hrun3 & Hw3 & Hc3 & Hf3) end.
  exists w3. split; [|done]. unfold mbind at 1. by rewrite (StExc.bind_inr _ _ _ tt w3 Hrun3).
Qed.

(** The staged state the loops start from. *)
Lemma staged_state_start (w w3 : world) (qo : list string) (E : list entry) :
  wf_world w3 → cwd w3 = cwd w → fs w3 = cleared (fs w) qo → staged_state w qo E [] w3.
Proof.
  intros Hw3 Hc3 Hf3. split; [done|]. split; [done|]. split; [by rewrite staged_fs_nil|].
  by intros ? ?%elem_of_nil.
Qed.

(** The run of [main] under the conditions of the refinement. *)
Lemma main_refines (inv : invocation) (w : world) (ctx : context) (text : string)
    (config : yaml_doc) (qo : list string) (es : list entry) :
  wf_world w →
  (resolve_context inv w).1 = inr ctx →
  stat w (PosixPath.join "data" ["webui"; "config"; target ctx +:+ ".yaml"]) = inr (File text) →
  yaml_load text = inr config →
  startswith (build_platform ctx) "BUILD_" = true →
  resolve w (output_root ctx) = inr qo →
  spec_entries w ctx config = inr es →
  staging_ok w ctx qo es = true →
  (main inv w).1 = inr tt ∧ staged_state w qo es es (main inv w).2.
Proof.
  intros Hw Hctx Hst Hy Hbp Hr Hes Hok.
  destruct (staging_ok_spec w ctx qo es Hok)
    as (Hout & Hq & Hpar & Hrc & Hrt & Hrd & Hc & Ht & Hd & Hb & Hpf).
  destruct (spec_entries_layers w ctx config es Hes) as (ts & Hts & Hes').
  destruct (main_cleared inv w ctx text config qo Hw Hctx Hst Hy Hbp Hr Hout)
    as (w3 & -> & Hw3 & Hc3 & Hf3).
  pose proof (staged_state_start w w3 qo es Hw3 Hc3 Hf3) as Hs3. unfold mbind, StExc_bind.
  assert (HE : ∀ l1 l2 l3 e, es = l1 ++ l2 ++ l3 → e ∈ l1 ∨ e ∈ l2 ∨ e ∈ l3 → e ∈ es).
  { intros l1 l2 l3 e -> He. by rewrite !elem_of_app. }
  destruct (common_loop_stages w qo es ctx Hw Hq Hpar Hb Hpf [] w3 Hrc Hc
              (λ e He, HE _ _ _ e Hes' (or_introl He)) Hs3) as (w4 & Hrun4 & Hs4).
  rewrite (StExc.bind_inr _ _ _ tt w4 Hrun4).
  destruct (template_loop_stages w qo es ctx Hw Hq Hpar Hb Hpf config ts _ w4 Hrt Ht Hts
              (λ e He, HE _ _ _ e Hes' (or_intror (or_introl He))) Hs4) as (w5 & Hrun5 & Hs5).
  rewrite (StExc.bind_inr _ _ _ tt w5 Hrun5).
  destruct (device_loop_stages w qo es ctx Hw Hq Hpar Hb Hpf _ w5 Hrd Hd
              (λ e He, HE _ _ _ e Hes' (or_intror (or_intror He))) Hs5) as (w6 & Hrun6 & Hs6).
  rewrite Hrun6. split; [done|]. simpl. rewrite app_nil_l, <- !app_assoc in Hs6.
  rewrite Hes' at 2. exact Hs6.
Qed.

(** C2: the refinement.  When the context resolves, the configuration
    reads and parses, the platform is a [BUILD_*] one and [staging_ok]
    holds, the script ends normally and leaves exactly the declarative
    tree: the input cleared of the output directory, with the parents and
    the files of [spec_entries], later writes of a key winning. *)
Theorem main_stages (inv : invocation) (w : world) (ctx : context) (text : string)
    (config : yaml_doc) (qo : list string) (es : list entry) :
  wf_world w →
  (resolve_context inv w).1 = inr ctx →
  stat w (PosixPath.join "data" ["webui"; "config"; target ctx +:+ ".yaml"]) = inr (File text) →
  yaml_load text = inr config →
  startswith (build_platform ctx) "BUILD_" = true →
  resolve w (output_root ctx) = inr qo →
  spec_entries w ctx config = inr es →
  staging_ok w ctx qo es = true →
  (main inv w).1 = inr tt ∧ fs (main inv w).2 = staged_fs (cleared (fs w) qo) es.
Proof.
  intros Hw Hctx Hst Hy Hbp Hr Hes Hok.
  destruct (main_refines inv w ctx text config qo es Hw Hctx Hst Hy Hbp Hr Hes Hok) as [? (_ & _ & ? & _)].
  by split.
Qed.

(** C14: device-specific files override: under the conditions of the
    refinement, a key that a file of [data/webui/device_specific/<platform>/]
    is copied to holds, after the run, the text of a device-specific file,
    whatever the common and template roots staged there before. *)
Theorem main_device_override (inv : invocation) (w : world) (ctx : context) (text : string)
    (config : yaml_doc) (qo : list string) (es : list entry)
    (k : list string) (d0 : string) :
  wf_world w →
  (resolve_context inv w).1 = inr ctx →
  stat w (PosixPath.join "data" ["webui"; "config"; target ctx +:+ ".yaml"]) = inr (File text) →
  yaml_load text = inr config →
  startswith (build_platform ctx) "BUILD_" = true →
  resolve w (output_root ctx) = inr qo →
  spec_entries w ctx config = inr es →
  staging_ok w ctx qo es = true →
  (k, d0) ∈ device_entries w ctx (listing w (device_prefix ctx)) →
  ∃ d, (k, d) ∈ device_entries w ctx (listing w (device_prefix ctx)) ∧
       fs (main inv w).2 !! k = Some (File d).
Proof.
  intros Hw Hctx Hst Hy Hbp Hr Hes Hok Hk.
  destruct (main_refines inv w ctx text config qo es Hw Hctx Hst Hy Hbp Hr Hes Hok) as [_ (_ & _ & -> & _)].
  destruct (spec_entries_layers w ctx config es Hes) as (ts & _ & ->).
  rewrite app_assoc. destruct (files_of_app_r (common_entries w ctx (listing w common_prefix) ++ ts) _ k d0 Hk)
    as (d & Hd & Hl).
  exists d. split; [done|]. unfold staged_fs. by apply lookup_union_Some_l.
Qed.


(** C15: a template that the loader does not find or Jinja does not
    render ends the run with its exception: the common files and the
    template files listed before it are staged, nothing after it, under
    the conditions of the refinement for the files that were to be staged. *)
Theorem main_template_error (inv : invocation) (w : world) (ctx : context) (text : string)
    (config : yaml_doc) (qo : list string) (e : exc) :
  wf_world w →
  (resolve_context inv w).1 = inr ctx →
  stat w (PosixPath.join "data" ["webui"; "config"; target ctx +:+ ".yaml"]) = inr (File text) →
  yaml_load text = inr config →
  startswith (build_platform ctx) "BUILD_" = true →
  resolve w (output_root ctx) = inr qo →
  spec_entries w ctx config = inl e →
  staging_ok w ctx qo (common_entries w ctx (listing w common_prefix) ++
                       mjoin (map (template_out w ctx config) (listing w template_prefix))) = true →
  (main inv w).1 = inl e ∧
  ∃ pre n post, listing w template_prefix = pre ++ n :: post ∧ template_entry w ctx config n = inl e ∧
    fs (main inv w).2 = staged_fs (cleared (fs w) qo)
      (common_entries w ctx (listing w common_prefix) ++ mjoin (map (template_out w ctx config) pre)).
Proof.
  intros Hw Hctx Hst Hy Hbp Hr Hes Hok.
  set (E := common_entries w ctx (listing w common_prefix) ++
            mjoin (map (template_out w ctx config) (listing w template_prefix))) in Hok.
  destruct (staging_ok_spec w ctx qo E Hok)
    as (Hout & Hq & Hpar & Hrc & Hrt & Hrd & Hc & Ht & Hd & Hb & Hpf).
  unfold spec_entries in Hes. destruct (template_entries _ _ _ _) as [e'|ts] eqn:Hts; [|done].
  injection Hes as ->.
  destruct (template_entries_error w ctx config _ e Hts) as (pre & n & post & Hl & Hpre & Hn).
  destruct (main_cleared inv w ctx text config qo Hw Hctx Hst Hy Hbp Hr Hout)
    as (w3 & -> & Hw3 & Hc3 & Hf3).
  pose proof (staged_state_start w w3 qo E Hw3 Hc3 Hf3) as Hs3. unfold mbind, StExc_bind.
  destruct (common_loop_stages w qo E ctx Hw Hq Hpar Hb Hpf [] w3 Hrc Hc) as (w4 & Hrun4 & Hs4);
    [intros x Hx; apply elem_of_app; by left|done|].
  rewrite (StExc.bind_inr _ _ _ tt w4 Hrun4).
  assert (HE : ∀ m x, m ∈ listing w template_prefix → x ∈ template_out w ctx config m → x ∈ E).
  { intros m x Hm Hx. apply elem_of_app. right. apply list_elem_of_join.
    exists (template_out w ctx config m). split; [done|]. by apply list_elem_of_fmap_2. }
  destruct (template_loop_fails w qo E ctx Hw Hq Hpar Hb Hpf config pre n post e _ w4 Hrt Ht Hl Hpre Hn
              HE Hs4) as (w5 & Hrun5 & Hs5).
  rewrite (StExc.bind_inl _ _ _ e w5 Hrun5). cbn [fst snd]. split; [done|].
  exists pre, n, post. split; [done|]. split; [done|]. by destruct Hs5 as (_ & _ & -> & _).
Qed.

End Main.

Module Runs.
Import Instances BuildWebui.Runs Confinement.Runs.

(** The spec's example: the stale output is removed, [.htaccess] and
    [.keep] are not staged, the template is rendered and the device file
    overrides the common one. *)
Definition example_entries : list entry :=
  [(["data"; "BUILD_TEST"; "index.html"], "common");
   (["data"; "BUILD_TEST"; "banner.html"], "<h1>X</h1>");
   (["data"; "BUILD_TEST"; "index.html"], "device")].

Lemma main_stages_witness :
  (main (Standalone env_test) spec_world).1 = inr tt ∧
  fs (main (Standalone env_test) spec_world).2 =
    staged_fs (cleared (fs spec_world) ["data"; "BUILD_TEST"]) example_entries.
Proof.
  apply (main_stages (Standalone env_test) spec_world (mkContext "test" "BUILD_TEST" None)
           "title: X" config_test ["data"; "BUILD_TEST"] example_entries).
  - apply wf_check_sound. vm_compute. reflexivity.
  - vm_compute. reflexivity.
  - vm_compute. reflexivity.
  - vm_compute. reflexivity.
  - vm_compute. reflexivity.
  - vm_compute. reflexivity.
  - vm_compute. reflexivity.
  - vm_compute. reflexivity.
Defined.

Lemma main_device_override_witness :
  ∃ d, (["data"; "BUILD_TEST"; "index.html"], d) ∈
         device_entries spec_world (mkContext "test" "BUILD_TEST" None)
           (listing spec_world (device_prefix (mkContext "test" "BUILD_TEST" None))) ∧
       fs (main (Standalone env_test) spec_world).2 !! ["data"; "BUILD_TEST"; "index.html"] =
         Some (File d).
Proof.
  apply (main_device_override (Standalone env_test) spec_world (mkContext "test" "BUILD_TEST" None)
           "title: X" config_test ["data"; "BUILD_TEST"] example_entries
           ["data"; "BUILD_TEST"; "index.html"] "device").
  - apply wf_check_sound. vm_compute. reflexivity.
  - vm_compute. reflexivity.
  - vm_compute. reflexivity.
  - vm_compute. reflexivity.
  - vm_compute. reflexivity.
  - vm_compute. reflexivity.
  - vm_compute. reflexivity.
  - vm_compute. reflexivity.
  - apply list_elem_of_In. vm_compute. left. reflexivity.
Defined.

Lemma main_template_error_witness :
  (main (Standalone env_test) broken_world).1 = inl (TemplateError "unexpected end of template") ∧
  ∃ pre n post,
    listing broken_world template_prefix = pre ++ n :: post ∧
    template_entry broken_world (mkContext "test" "BUILD_TEST" None) config_test n =
      inl (TemplateError "unexpected end of template") ∧
    fs (main (Standalone env_test) broken_world).2 =
      staged_fs (cleared (fs broken_world) ["data"; "BUILD_TEST"])
        (common_entries broken_world (mkContext "test" "BUILD_TEST" None)
           (listing broken_world common_prefix) ++
         mjoin (map (template_out broken_world (mkContext "test" "BUILD_TEST" None) config_test) pre)).
Proof.
  apply (main_template_error (Standalone env_test) broken_world (mkContext "test" "BUILD_TEST" None)
           "title: X" config_test ["data"; "BUILD_TEST"]).
  - apply wf_check_sound. vm_compute. reflexivity.
  - vm_compute. reflexivity.
  - vm_compute. reflexivity.
  - vm_compute. reflexivity.
  - vm_compute. reflexivity.
  - vm_compute. reflexivity.
  - vm_compute. reflexivity.
  - vm_compute. reflexivity.
Defined.

End Runs.

End Refinement.
