(* ===== verification/Determinism.v ===== *)
(** * The result does not depend on the order of the directory listings

    [os.scandir] lists a directory in an order the operating system
    chooses, and [glob.iglob] yields names in that order.  The model takes
    the order as a parameter ([FileSys.ScandirOrder], any permutation of
    the entries).  This file compares two runs of the script on the same
    tree under two orders.  The final tree is the same whenever, within
    each of the three roots, no two files are staged to one key with
    different texts ([blocks_functional]).  Across the roots the order is
    fixed by the code (common, then templates, then device-specific files)
    and an override is intended.  Two files of one root can collide: a
    template [x.tmpl.html] is rendered to [x.html], where a plain [x.html]
    beside it is copied too, and [str.replace] removes every occurrence of
    the root prefix.  Then the file written last wins
    ([main_last_write_wins]) and the result depends on the order: [Runs]
    shows the identity order and the reversed order giving different
    outputs on such a tree. *)

From S2P Require Import Prelude PyStr PosixPath FileSys Glob Matcher Host BuildWebui Staging Confinement Refinement.

Module Determinism.
Import PyStr PosixPath FileSys Glob Matcher Host BuildWebui Staging Confinement Refinement.

(** Two lists with the same elements. *)
Definition same_elems {A} (l1 l2 : list A) : Prop := ∀ x, x ∈ l1 ↔ x ∈ l2.

(** Within a batch, a key determines the staged text. *)
Definition functionalb (es : list entry) : bool :=
  forallb (λ e1, forallb (λ e2, negb (bool_decide (e1.1 = e2.1)) || bool_decide (e1.2 = e2.2)) es) es.

Section Blocks.
Context `{ScandirOrder} `{Yaml} `{!Jinja}.

(** The three batches of a run, each functional: the common files, the
    template outputs and the device-specific files. *)
Definition blocks_functional (w : world) (ctx : context) (config : yaml_doc) : bool :=
  match template_entries w ctx config (listing w template_prefix) with
  | inl _ => false
  | inr ts =>
      functionalb (common_entries w ctx (listing w common_prefix)) && functionalb ts &&
      functionalb (device_entries w ctx (listing w (device_prefix ctx)))
  end.

End Blocks.

(** ** Entries with the same elements stage the same tree *)

Lemma same_elems_app {A} (l1 l2 l1' l2' : list A) :
  same_elems l1 l1' → same_elems l2 l2' → same_elems (l1 ++ l2) (l1' ++ l2').
Proof. intros H1 H2 x. rewrite !elem_of_app. by rewrite (H1 x), (H2 x). Qed.

Lemma same_elems_omap {A B} (f : A → option B) (l1 l2 : list A) :
  same_elems l1 l2 → same_elems (omap f l1) (omap f l2).
Proof. unfold same_elems. intros Hl x. rewrite !list_elem_of_omap. by setoid_rewrite Hl. Qed.

Lemma same_elems_join_map {A B} (f : A → list B) (l1 l2 : list A) :
  same_elems l1 l2 → same_elems (mjoin (map f l1)) (mjoin (map f l2)).
Proof.
  unfold same_elems. intros Hl x. rewrite !list_elem_of_join. setoid_rewrite list_elem_of_fmap.
  split; intros (ys & Hx & a & -> & Ha); exists (f a); split; try done; exists a;
    split; try done; by apply Hl.
Qed.

Lemma forallb_same {A} (f : A → bool) (l1 l2 : list A) :
  same_elems l1 l2 → forallb f l1 = forallb f l2.
Proof.
  intros Hl. apply eq_bool_prop_intro. rewrite !Is_true_true, !forallb_forall.
  split; intros Hf x Hx%list_elem_of_In; apply Hf, list_elem_of_In, Hl, Hx.
Qed.

(** A check over a list against the same list: the same under any order. *)
Lemma forallb2_same {A} (g : A → A → bool) (l1 l2 : list A) :
  same_elems l1 l2 → forallb (λ x, forallb (g x) l1) l1 = forallb (λ x, forallb (g x) l2) l2.
Proof.
  intros Hs. rewrite (forallb_same _ _ _ Hs). apply forallb_in_ext. intros x _. by apply forallb_same.
Qed.

Lemma functionalb_sound (es : list entry) :
  functionalb es = true → ∀ k d1 d2, (k, d1) ∈ es → (k, d2) ∈ es → d1 = d2.
Proof.
  unfold functionalb. rewrite forallb_forall. intros Hf k d1 d2 H1 H2.
  specialize (Hf _ (proj1 (list_elem_of_In _ _) H1)). rewrite forallb_forall in Hf.
  specialize (Hf _ (proj1 (list_elem_of_In _ _) H2)). simpl in Hf.
  rewrite bool_decide_eq_true_2 in Hf by done. simpl in Hf. by apply bool_decide_eq_true in Hf.
Qed.

Lemma functionalb_same (es1 es2 : list entry) :
  same_elems es1 es2 → functionalb es1 = functionalb es2.
Proof.
  intros Hs. unfold functionalb. by apply forallb2_same.
Qed.

(** The files of two batches: the later batch wins. *)
Lemma files_of_app (es1 es2 : list entry) : files_of (es1 ++ es2) = files_of es2 ∪ files_of es1.
Proof. unfold files_of. by rewrite fmap_app, reverse_app, list_to_map_app. Qed.

(** The file at a key is the text of the last entry staged there. *)
Lemma files_of_last (pre post : list entry) (k : list string) (d : string) :
  (∀ d', (k, d') ∉ post) → files_of (pre ++ (k, d) :: post) !! k = Some (File d).
Proof.
  intros Hpost. change ((k, d) :: post) with ([(k, d)] ++ post).
  rewrite !files_of_app.
  apply lookup_union_Some_l. rewrite lookup_union.
  destruct (files_of post !! k) as [n|] eqn:Hf.
  { apply files_of_Some in Hf as (c & _ & Hc). by destruct (Hpost c). }
  unfold files_of. simpl. by rewrite lookup_insert_eq.
Qed.

Lemma files_of_same (es1 es2 : list entry) :
  functionalb es1 = true → same_elems es1 es2 → files_of es1 = files_of es2.
Proof.
  intros Hf Hs. assert (Hf2 : functionalb es2 = true) by by rewrite <- (functionalb_same _ _ Hs).
  apply map_eq. intros k.
  destruct (files_of es1 !! k) as [n1|] eqn:L1, (files_of es2 !! k) as [n2|] eqn:L2; try done.
  - destruct (files_of_Some _ _ _ L1) as (c1 & -> & H1), (files_of_Some _ _ _ L2) as (c2 & -> & H2).
    apply Hs in H1. by rewrite (functionalb_sound es2 Hf2 k c1 c2 H1 H2).
  - destruct (files_of_Some _ _ _ L1) as (c1 & -> & H1). apply Hs in H1.
    destruct (files_of_app_r [] es2 k c1 H1) as (d & _ & Hl). simpl in Hl. congruence.
  - destruct (files_of_Some _ _ _ L2) as (c2 & -> & H2). apply Hs in H2.
    destruct (files_of_app_r [] es1 k c2 H2) as (d & _ & Hl). simpl in Hl. congruence.
Qed.

Lemma dirs_of_same (es1 es2 : list entry) : same_elems es1 es2 → dirs_of es1 = dirs_of es2.
Proof.
  intros Hs. apply map_eq. intros k. rewrite !dirs_of_lookup.
  assert (Hb : k ∈ es1 ≫= (λ e, proper_prefixes e.1) ↔ k ∈ es2 ≫= (λ e, proper_prefixes e.1)).
  { unfold same_elems in Hs. rewrite !list_elem_of_bind. by setoid_rewrite Hs. }
  by destruct (decide (k ∈ _)), (decide (k ∈ _)); tauto.
Qed.

(** Three batches, each functional, with the same elements batch by
    batch: the same staged tree. *)
Lemma staged_fs_blocks (m : gmap (list string) node) (c1 t1 d1 c2 t2 d2 : list entry) :
  functionalb c1 = true → functionalb t1 = true → functionalb d1 = true →
  same_elems c1 c2 → same_elems t1 t2 → same_elems d1 d2 →
  staged_fs m (c1 ++ t1 ++ d1) = staged_fs m (c2 ++ t2 ++ d2).
Proof.
  intros Fc Ft Fd Sc St Sd. unfold staged_fs.
  rewrite (dirs_of_same _ (c2 ++ t2 ++ d2)) by (repeat apply same_elems_app; done).
  by rewrite !files_of_app, (files_of_same c1 c2), (files_of_same t1 t2), (files_of_same d1 d2).
Qed.


Lemma same_elems_fmap {A B} (f : A → B) (l1 l2 : list A) :
  same_elems l1 l2 → same_elems (f <$> l1) (f <$> l2).
Proof. unfold same_elems. intros Hl x. rewrite !list_elem_of_fmap. by setoid_rewrite Hl. Qed.

(** The template loop of [Staging] succeeds when every template does. *)
Lemma template_entries_inr `{Yaml} `{!Jinja} (w : world) (ctx : context) (config : yaml_doc)
    (names : list string) :
  (∀ n, n ∈ names → template_entry w ctx config n = inr (template_out w ctx config n)) →
  template_entries w ctx config names = inr (mjoin (map (template_out w ctx config) names)).
Proof.
  induction names as [|n ns IH]; intros Hn; [done|]. simpl.
  rewrite (Hn n (list_elem_of_here _ _)), IH; [done|]. intros m Hm. apply Hn. by right.
Qed.

(** ** Two orders *)

Section Orders.
Context (O1 O2 : ScandirOrder) (Ok1 : @ScandirOrderOk O1) (Ok2 : @ScandirOrderOk O2).
Context `{Yaml} `{!Jinja} `{ConfigParser}.

(** [glob.iglob] over a directory yields the same names under both
    orders, each order its own way. *)
Lemma listing_same (w : world) (prefix : string) (q : list string) :
  wf_world w → dirname (prefix +:+ "**") ≠ "" → resolve w (dirname (prefix +:+ "**")) = inr q →
  same_elems (listing (H := O1) w prefix) (listing (H := O2) w prefix).
Proof.
  intros Hw Hd Hr. unfold listing.
  destruct (iglob_names_some (H := O1) (glob_fuel w) w (prefix +:+ "**") Hw Hd) as [n1 E1];
    [unfold glob_fuel; lia|].
  destruct (iglob_names_some (H := O2) (glob_fuel w) w (prefix +:+ "**") Hw Hd) as [n2 E2];
    [unfold glob_fuel; lia|].
  rewrite E1, E2. simpl. intros y.
  by rewrite (iglob_names_spec (H := O1) _ w _ q n1 Hw Hd Hr E1 y),
    (iglob_names_spec (H := O2) _ w _ q n2 Hw Hd Hr E2 y).
Qed.

Lemma root_listing_same (w : world) (qo : list string) (prefix : string) :
  wf_world w → root_ok w qo prefix = true →
  same_elems (listing (H := O1) w prefix) (listing (H := O2) w prefix).
Proof.
  intros Hw Hr. destruct (root_ok_spec (H := O1) w qo prefix Hr) as (_ & Hd & _ & _ & qr & Hqr & _).
  by apply (listing_same w prefix qr).
Qed.

(** The three roots of a context are listed with the same names. *)
Definition roots_same (w : world) (ctx : context) : Prop :=
  same_elems (listing (H := O1) w common_prefix) (listing (H := O2) w common_prefix) ∧
  same_elems (listing (H := O1) w template_prefix) (listing (H := O2) w template_prefix) ∧
  same_elems (listing (H := O1) w (device_prefix ctx)) (listing (H := O2) w (device_prefix ctx)).

Lemma staging_ok_same (w : world) (ctx : context) (qo : list string) (es1 es2 : list entry) :
  roots_same w ctx → same_elems es1 es2 →
  staging_ok (H := O1) w ctx qo es1 = staging_ok (H := O2) w ctx qo es2.
Proof.
  intros (Lc & Lt & Ld) Hs. unfold staging_ok, prefix_free.
  rewrite (forallb_same _ _ _ Lc), (forallb_same _ _ _ Lt), (forallb_same _ _ _ Ld).
  rewrite (forallb_same _ _ _ Hs).
  by rewrite (forallb2_same _ _ _ (same_elems_fmap fst _ _ Hs)).
Qed.

(** The entries of the run under the second order: the same batches,
    listed in its own order. *)
Lemma spec_entries_same (w : world) (ctx : context) (config : yaml_doc) (es : list entry) :
  roots_same w ctx → spec_entries (H := O1) w ctx config = inr es →
  ∃ c1 t1 d1 c2 t2 d2,
    es = c1 ++ t1 ++ d1 ∧ spec_entries (H := O2) w ctx config = inr (c2 ++ t2 ++ d2) ∧
    template_entries w ctx config (listing (H := O1) w template_prefix) = inr t1 ∧
    c1 = common_entries w ctx (listing (H := O1) w common_prefix) ∧
    d1 = device_entries w ctx (listing (H := O1) w (device_prefix ctx)) ∧
    same_elems c1 c2 ∧ same_elems t1 t2 ∧ same_elems d1 d2.
Proof.
  intros (Lc & Lt & Ld) Hes. destruct (spec_entries_layers (H := O1) w ctx config es Hes) as (ts & Hts & ->).
  destruct (template_entries_spec w ctx config _ ts Hts) as [Hts' Hall].
  set (l2 := listing (H := O2) w template_prefix).
  assert (Ht2 : template_entries w ctx config l2 = inr (mjoin (map (template_out w ctx config) l2)))
    by (apply template_entries_inr; intros n Hn; apply Hall, Lt, Hn).
  eexists _, ts, _, _, _, _. split; [done|]. split.
  { unfold spec_entries. fold l2. rewrite Ht2. reflexivity. }
  split; [done|]. split; [done|]. split; [done|].
  split; [by apply same_elems_omap|]. split; [|by apply same_elems_omap].
  rewrite Hts'. by apply same_elems_join_map.
Qed.

(** C19: the output does not depend on the order in which the operating
    system lists directories.  When a run under one order meets the
    conditions of the refinement and, within each root, a key determines
    the staged text, then under any other order the run also ends normally
    and leaves the same tree. *)
Theorem main_order_independent (inv : invocation) (w : world) (ctx : context) (text : string)
    (config : yaml_doc) (qo : list string) (es : list entry) :
  wf_world w →
  (resolve_context inv w).1 = inr ctx →
  stat w (PosixPath.join "data" ["webui"; "config"; target ctx +:+ ".yaml"]) = inr (File text) →
  yaml_load text = inr config →
  startswith (build_platform ctx) "BUILD_" = true →
  resolve w (output_root ctx) = inr qo →
  spec_entries (H := O1) w ctx config = inr es →
  staging_ok (H := O1) w ctx qo es = true →
  blocks_functional (H := O1) w ctx config = true →
  (main (H := O2) inv w).1 = inr tt ∧ fs (main (H := O2) inv w).2 = fs (main (H := O1) inv w).2.
Proof.
  intros Hw Hctx Hst Hy Hbp Hr Hes Hok Hf.
  destruct (staging_ok_spec (H := O1) w ctx qo es Hok) as (_ & _ & _ & Hrc & Hrt & Hrd & _).
  assert (Hl : roots_same w ctx) by (split; [|split]; eapply root_listing_same; eauto).
  destruct (spec_entries_same w ctx config es Hl Hes)
    as (c1 & t1 & d1 & c2 & t2 & d2 & -> & Hes2 & Ht1 & Ec & Ed & Sc & St & Sd).
  assert (Hok2 : staging_ok (H := O2) w ctx qo (c2 ++ t2 ++ d2) = true).
  { rewrite <- (staging_ok_same w ctx qo (c1 ++ t1 ++ d1)); [done|done|].
    by repeat apply same_elems_app. }
  destruct (main_refines (H := O1) inv w ctx text config qo _ Hw Hctx Hst Hy Hbp Hr Hes Hok)
    as [_ (_ & _ & E1 & _)].
  destruct (main_refines (H := O2) inv w ctx text config qo _ Hw Hctx Hst Hy Hbp Hr Hes2 Hok2)
    as [H2 (_ & _ & E2 & _)].
  split; [done|]. rewrite E1, E2. unfold blocks_functional in Hf. rewrite Ht1 in Hf.
  rewrite <- Ec, <- Ed in Hf. apply andb_true_iff in Hf as [[Fc Ft]%andb_true_iff Fd].
  symmetry. by apply staged_fs_blocks.
Qed.

End Orders.

Section LastWrite.
Context `{ScandirOrder} `{!ScandirOrderOk} `{Yaml} `{!Jinja} `{ConfigParser}.

(** C20: When several files are staged at one destination, the output
    holds the text of the one written last.  Under the conditions of the
    refinement, if [(k, d)] is an entry of the run after which no entry is
    staged at [k], the final tree has the file [d] at [k].  This is the
    override of the spec's layering (line 40), and within one root it makes
    the listing order decide between colliding files. *)
Theorem main_last_write_wins (inv : invocation) (w : world) (ctx : context) (text : string)
    (config : yaml_doc) (qo : list string) (pre post : list entry) (k : list string) (d : string) :
  wf_world w →
  (resolve_context inv w).1 = inr ctx →
  stat w (PosixPath.join "data" ["webui"; "config"; target ctx +:+ ".yaml"]) = inr (File text) →
  yaml_load text = inr config →
  startswith (build_platform ctx) "BUILD_" = true →
  resolve w (output_root ctx) = inr qo →
  spec_entries w ctx config = inr (pre ++ (k, d) :: post) →
  staging_ok w ctx qo (pre ++ (k, d) :: post) = true →
  (∀ d', (k, d') ∉ post) →
  fs (main inv w).2 !! k = Some (File d).
Proof.
  intros Hw Hctx Hst Hy Hbp Hr Hes Hok Hpost.
  destruct (main_refines inv w ctx text config qo _ Hw Hctx Hst Hy Hbp Hr Hes Hok)
    as [_ (_ & _ & -> & _)].
  unfold staged_fs. apply lookup_union_Some_l. by apply files_of_last.
Qed.

End LastWrite.

(** ** Runs: the identity order against the reversed order *)
Module Runs.
Import Instances BuildWebui.Runs Refinement.Runs.

(** An [os.scandir] that lists every directory backwards. *)
Definition scandir_rev : ScandirOrder := λ _ names, reverse names.

Lemma scandir_rev_ok : @ScandirOrderOk scandir_rev.
Proof. intros q names. apply reverse_Permutation. Qed.

Lemma main_order_independent_witness :
  (main (H := scandir_rev) (Standalone env_test) spec_world).1 = inr tt ∧
  fs (main (H := scandir_rev) (Standalone env_test) spec_world).2 =
    fs (main (H := scandir_map_order) (Standalone env_test) spec_world).2.
Proof.
  apply (main_order_independent scandir_map_order scandir_rev scandir_map_order_ok scandir_rev_ok
           (Standalone env_test) spec_world (mkContext "test" "BUILD_TEST" None)
           "title: X" config_test ["data"; "BUILD_TEST"] example_entries).
  - apply wf_check_sound. vm_compute. reflexivity.
  - vm_compute. reflexivity.
  - vm_compute. reflexivity.
  - vm_compute. reflexivity.
  - vm_compute. reflexivity.
  - vm_compute. reflexivity.
  - vm_compute. reflexivity.
  - vm_compute. reflexivity.
  - vm_compute. reflexivity.
Defined.

(** The spec's tree with a plain [banner.html] beside [banner.tmpl.html]:
    both are staged at [data/BUILD_TEST/banner.html]. *)
Definition collision_world : world :=
  mkWorld (<[["data"; "webui"; "template"; "banner.html"] := File "plain"]> spec_tree) [] [].

(** The run behind the finding on colliding templates: in
    [collision_world], [template/banner.tmpl.html] is rendered to
    [banner.html] and [template/banner.html] is copied to the same path.
    Both orders run [main] to completion; the identity order keeps the
    rendered page, the reversed order the plain copy ([main_last_write_wins]
    on each order's listing).  The blocks are not functional there, so
    [main_order_independent] does not apply. *)
Example main_collision_order_dependent :
  let inv := Standalone env_test in
  let out := ["data"; "BUILD_TEST"; "banner.html"] in
  blocks_functional (H := scandir_map_order) collision_world (mkContext "test" "BUILD_TEST" None)
    config_test = false ∧
  (main (H := scandir_map_order) inv collision_world).1 = inr tt ∧
  (main (H := scandir_rev) inv collision_world).1 = inr tt ∧
  fs (main (H := scandir_map_order) inv collision_world).2 !! out = Some (File "<h1>X</h1>") ∧
  fs (main (H := scandir_rev) inv collision_world).2 !! out = Some (File "plain").
Proof. vm_compute. repeat split. Qed.

Lemma main_last_write_wins_witness :
  fs (main (Standalone env_test) spec_world).2 !! ["data"; "BUILD_TEST"; "index.html"] =
    Some (File "device").
Proof.
  apply (main_last_write_wins (Standalone env_test) spec_world (mkContext "test" "BUILD_TEST" None)
           "title: X" config_test ["data"; "BUILD_TEST"]
           [(["data"; "BUILD_TEST"; "index.html"], "common");
            (["data"; "BUILD_TEST"; "banner.html"], "<h1>X</h1>")] []).
  - apply wf_check_sound. vm_compute. reflexivity.
  - vm_compute. reflexivity.
  - vm_compute. reflexivity.
  - vm_compute. reflexivity.
  - vm_compute. reflexivity.
  - vm_compute. reflexivity.
  - vm_compute. reflexivity.
  - vm_compute. reflexivity.
  - intros d' Hd'. by apply not_elem_of_nil in Hd'.
Defined.

End Runs.

End Determinism.
