(* ===== verification/Rerun.v ===== *)
(** * What was in the output directory does not matter; rebuilding is idempotent

    [main] starts by removing the output directory ([shutil.rmtree], line
    75), so a run should not depend on what an earlier build left there.
    [kept w qo s] ([Confinement]) says that [s] agrees with [w] outside the
    output directory [qo].  Section [Kept] shows that every check of
    [Refinement.staging_ok] and every entry of [Refinement.spec_entries]
    carries over from [w] to such an [s].  Section [Main] adds the reads
    that come before the removal (the YAML configuration and, under
    PlatformIO, [platformio.ini]) and the output path itself, whose
    conditions [rerun_ok] decides.  The theorems: a run on [s] stages the
    same tree as a run on [w] ([main_stale_output_irrelevant]), and a run
    on the output of a run leaves it unchanged ([main_idempotent]).
    [rerun_ok] asks for the configuration to lie outside the output: when
    it lies inside, the first run deletes it and the second fails
    ([main_rerun_fails_config_in_output]); [Runs] applies that to a
    [BUILD_DATA_DIR] naming the configuration directory. *)

From S2P Require Import Prelude PyStr PosixPath FileSys Glob Matcher Host BuildWebui Staging Confinement Refinement.

Module Rerun.
Import PyStr PosixPath FileSys Glob Matcher Host BuildWebui Staging Confinement Refinement.

(** ** Checks and entries on a tree kept outside the output *)

Section Kept.
Context (w : world) (qo : list string) (s : world).
Hypothesis Hs : kept w qo s.
Context `{ScandirOrder} `{Yaml} `{!Jinja} `{ConfigParser}.

Lemma key_kept (p : string) : key s p = key w p.
Proof. destruct Hs as (_ & Hc & _). unfold key, start. by rewrite Hc. Qed.

Lemma file_text_kept (n : string) : source_ok w qo n = true → file_text s n = file_text w n.
Proof.
  intros Hn. destruct (source_ok_kept w qo s n Hs Hn) as (qs & _ & _ & _ & Hst).
  unfold file_text. by rewrite Hst.
Qed.

Lemma source_ok_kept_ok (n : string) : source_ok w qo n = true → source_ok s qo n = true.
Proof.
  intros Hn. destruct (source_ok_kept w qo s n Hs Hn) as (qs & Hr & _ & Hr' & _).
  unfold source_ok in *. by rewrite Hr'; rewrite Hr in Hn.
Qed.

Lemma copy_entry_kept (ctx : context) (prefix n : string) :
  source_ok w qo n = true → copy_entry s ctx prefix n = copy_entry w ctx prefix n.
Proof. intros Hn. unfold copy_entry. by rewrite file_text_kept, key_kept. Qed.

Lemma dest_ok_kept (dest out : string) : dest_ok w qo dest out = true → dest_ok s qo dest out = true.
Proof.
  destruct Hs as (_ & Hc & Hf). unfold dest_ok. rewrite key_kept.
  assert (Hst : start s dest = start w dest) by (unfold start; by rewrite Hc). rewrite Hst.
  rewrite !andb_true_iff. intros ((((((? & ?) & ?) & ?) & ?) & Ho) & ?).
  pose proof Ho as Ho'%negb_true_iff%bool_decide_eq_false. rewrite Hf by done. naive_solver.
Qed.

Lemma loader_ok_kept (t : string) : loader_ok s qo t = loader_ok w qo t.
Proof. unfold loader_ok. destruct (split_template_path t); [done|]. by rewrite key_kept. Qed.

Lemma root_ok_kept (prefix : string) : root_ok w qo prefix = true → root_ok s qo prefix = true.
Proof.
  intros Hr. pose proof Hr as Hr'. unfold root_ok in Hr' |- *.
  destruct (root_ok_spec w qo prefix Hr) as (_ & _ & _ & Hp & qr & Hq & _ & Hn).
  rewrite (proj1 (source_kept w qo s _ qr Hs Hp Hq Hn)). by rewrite Hq in Hr'.
Qed.

Lemma copy_ok_kept (ctx : context) (prefix n : string) :
  copy_ok w ctx qo prefix n = true → copy_ok s ctx qo prefix n = true.
Proof. apply dest_ok_kept. Qed.

Lemma common_ok_kept (ctx : context) (n : string) :
  common_ok w ctx qo n = true → common_ok s ctx qo n = true.
Proof.
  unfold common_ok. rewrite !andb_true_iff. intros [Hn Hc].
  rewrite file_text_kept by done. split; [by apply source_ok_kept_ok|].
  destruct (file_text w n); [by apply copy_ok_kept|done].
Qed.

Lemma template_ok_kept (ctx : context) (n : string) :
  template_ok w ctx qo n = true → template_ok s ctx qo n = true.
Proof.
  unfold template_ok. rewrite !andb_true_iff. intros [Hn Ht].
  rewrite file_text_kept, loader_ok_kept by done. split; [by apply source_ok_kept_ok|].
  destruct (file_text w n); [|done]. destruct (template_search n); [|by apply copy_ok_kept].
  apply andb_true_iff in Ht as [Hd Hl]. by rewrite dest_ok_kept.
Qed.

Lemma device_ok_kept (ctx : context) (n : string) :
  device_ok w ctx qo n = true → device_ok s ctx qo n = true.
Proof.
  unfold device_ok. rewrite !andb_true_iff. intros [Hn Hd].
  rewrite file_text_kept by done. split; [by apply source_ok_kept_ok|].
  destruct (file_text w n); [|done]. apply orb_true_iff in Hd as [->|Hd]; [done|].
  apply orb_true_iff. right. by apply copy_ok_kept.
Qed.

Lemma template_entry_kept (ctx : context) (config : yaml_doc) (n : string) :
  template_ok w ctx qo n = true → template_entry s ctx config n = template_entry w ctx config n.
Proof.
  unfold template_ok, template_entry. rewrite andb_true_iff. intros [Hn Ht].
  rewrite file_text_kept by done. destruct (file_text w n); [|done].
  destruct (template_search n); [|by rewrite copy_entry_kept].
  apply andb_true_iff in Ht as [_ Hl]. unfold render_entry.
  rewrite (get_source_kept w qo s _ Hs Hl), key_kept. done.
Qed.

Lemma template_entries_kept (ctx : context) (config : yaml_doc) (names : list string) :
  forallb (template_ok w ctx qo) names = true →
  template_entries s ctx config names = template_entries w ctx config names.
Proof.
  induction names as [|n ns IH]; [done|]. simpl. rewrite andb_true_iff. intros [Hn Hns].
  by rewrite template_entry_kept, IH.
Qed.

(** [shutil.rmtree] leaves the same tree on [s] as on [w]. *)
Lemma cleared_kept : cleared (fs s) qo = cleared (fs w) qo.
Proof.
  destruct Hs as (_ & _ & Hf). apply map_eq. intros k. rewrite !cleared_lookup.
  case_decide; [done|]. by apply Hf.
Qed.

(** The output path resolves on [s] as on [w]; only the directories above
    the output are looked at. *)
Lemma resolve_out_kept (out : string) :
  plain (components out) → resolve w out = inr qo → resolve s out = inr qo.
Proof.
  destruct Hs as (_ & Hc & Hf). intros Hp Hr. apply (resolve_agree_proper w); [done..|].
  intros k Hk Hne. apply Hf. intros Hk'. by apply Hne, (anti_symm prefix).
Qed.

(** The rest needs the input tree well formed and the listing order a
    permutation. *)
Context `{!ScandirOrderOk}.
Hypothesis Hw : wf_world w.

(** Each root is listed the same on [s] as on [w]. *)
Lemma listing_kept_eq (prefix : string) : root_ok w qo prefix = true → listing s prefix = listing w prefix.
Proof.
  intros Hr. destruct (root_ok_spec w qo prefix Hr) as (_ & Hd & _).
  destruct (iglob_names_some (glob_fuel s) s (prefix +:+ "**")) as [ns Hns];
    [apply Hs|done|unfold glob_fuel; lia|].
  unfold listing at 1. rewrite Hns. simpl. by apply (listing_kept w qo Hw prefix s ns).
Qed.

Lemma spec_entries_kept (ctx : context) (config : yaml_doc) (es : list entry) :
  staging_ok w ctx qo es = true → spec_entries s ctx config = spec_entries w ctx config.
Proof.
  intros Hok. destruct (staging_ok_spec w ctx qo es Hok) as (_ & _ & _ & Hrc & Hrt & Hrd & Hc & Ht & Hd & _).
  unfold spec_entries. rewrite !listing_kept_eq, template_entries_kept by done.
  destruct (template_entries w _ _ _); [done|]. unfold common_entries, device_entries.
  rewrite (omap_in_ext (copy_entry s ctx common_prefix) (copy_entry w ctx common_prefix)),
    (omap_in_ext (device_entry s ctx) (device_entry w ctx)); [done|..]; intros n Hn.
  - destruct (andb_prop _ _ (forallb_elem _ _ n Hd Hn)) as [Hn' _].
    unfold device_entry. destruct String.eqb; [done|]. by apply copy_entry_kept.
  - destruct (andb_prop _ _ (forallb_elem _ _ n Hc Hn)) as [Hn' _]. by apply copy_entry_kept.
Qed.

Lemma staging_ok_kept (ctx : context) (es : list entry) :
  staging_ok w ctx qo es = true → out_ok s (output_root ctx) qo = true → staging_ok s ctx qo es = true.
Proof.
  intros Hok Hout. destruct (staging_ok_spec w ctx qo es Hok) as (_ & _ & _ & Hrc & Hrt & Hrd & _).
  unfold staging_ok in *. rewrite !listing_kept_eq by done. rewrite !andb_true_iff in Hok |- *.
  destruct Hok as ((((((_ & Hr) & Hc) & Ht) & Hd) & Hb) & Hpf).
  repeat split; try done; (eapply forallb_mono; [|done]);
    eauto using root_ok_kept, common_ok_kept, template_ok_kept, device_ok_kept.
Qed.

End Kept.

(** ** Whole runs *)

(** The conditions of a rebuild on top of the run's input: the output path
    is plain, and the files read before [shutil.rmtree] (the YAML
    configuration of line 60, and [platformio.ini] of line 55 under
    PlatformIO) lie outside the output directory. *)
Definition rerun_ok (inv : invocation) (w : world) (ctx : context) (qo : list string) : bool :=
  plainb (components (output_root ctx)) &&
  source_ok w qo (PosixPath.join "data" ["webui"; "config"; target ctx +:+ ".yaml"]) &&
  match inv with
  | PlatformIO _ _ => source_ok w qo "platformio.ini"
  | Standalone _ => true
  end.

Lemma prefix_removelast_not (qo : list string) : qo ≠ [] → ¬ qo `prefix_of` removelast qo.
Proof.
  intros Hq Hp. destruct (exists_last Hq) as (r & x & ->). rewrite removelast_last in Hp.
  apply prefix_length in Hp. rewrite length_app in Hp. simpl in Hp. lia.
Qed.

(** A plain output path names neither [.] nor [..], so [os.rmdir] of an
    existing output directory raises nothing. *)
Lemma rmdir_errno_plain (out : string) (qo : list string) :
  plain (components out) → qo ≠ [] → rmdir_errno out qo = None.
Proof.
  intros Hp Hq. unfold rmdir_errno. rewrite bool_decide_eq_false_2 by done.
  destruct (last (components out)) as [x|] eqn:Ex; [|done].
  apply last_Some_elem_of in Ex. apply (proj1 (Forall_forall _ _) Hp) in Ex.
  unfold curdir_or_pardir in Ex. apply orb_false_iff in Ex as [-> ->]. done.
Qed.

(** Standalone, the context comes from the environment alone. *)
Lemma resolve_context_standalone_any `{ConfigParser} (env : gmap string string) (w s : world) :
  (resolve_context (Standalone env) s).1 = (resolve_context (Standalone env) w).1.
Proof. unfold resolve_context. run_simpl. by destruct (py_falsy _ || py_falsy _). Qed.

Section Main.
Context `{ScandirOrder} `{!ScandirOrderOk} `{Yaml} `{!Jinja} `{ConfigParser}.
Context (w s : world) (qo : list string).
Hypotheses (Hw : wf_world w) (Hs : kept w qo s).

Lemma resolve_context_kept (inv : invocation) (ctx : context) :
  (resolve_context inv w).1 = inr ctx →
  match inv with PlatformIO _ _ => source_ok w qo "platformio.ini" = true | Standalone _ => True end →
  (resolve_context inv s).1 = inr ctx.
Proof.
  destruct inv as [env|pioenv args]; intros Hctx Hini.
  - by rewrite (resolve_context_standalone_any env w s).
  - unfold resolve_context, configparser_read in *. run_simpl.
    destruct (source_ok_kept w qo s _ Hs Hini) as (_ & _ & _ & _ & ->). revert Hctx.
    unfold lift. repeat case_match; simpl; congruence.
Qed.

(** The output directory of [s] can be cleared and made again. *)
Lemma out_ok_kept (out : string) :
  plain (components out) → resolve w out = inr qo → out_ok w out qo = true →
  (∀ d, fs s !! qo ≠ Some (File d)) → out_ok s out qo = true.
Proof.
  intros Hp Hr Hout Hnf. destruct (out_ok_spec w out qo Hout) as [Hq Hpar].
  destruct Hs as (_ & _ & Hf). unfold out_ok.
  rewrite Hf by (by apply prefix_removelast_not). rewrite !bool_decide_eq_true_2 by done. simpl.
  destruct (fs s !! qo) as [[d|]|] eqn:E; [by exfalso; eapply Hnf| |done].
  apply bool_decide_eq_true_2, rmdir_errno_plain; done.
Qed.

(** A run on [s] meets the conditions of the refinement wherever the run
    on [w] does, and stages the same tree. *)
Lemma main_kept_runs (inv : invocation) (ctx : context) (text : string) (config : yaml_doc)
    (es : list entry) :
  (resolve_context inv w).1 = inr ctx →
  stat w (PosixPath.join "data" ["webui"; "config"; target ctx +:+ ".yaml"]) = inr (File text) →
  yaml_load text = inr config →
  startswith (build_platform ctx) "BUILD_" = true →
  resolve w (output_root ctx) = inr qo →
  spec_entries w ctx config = inr es →
  staging_ok w ctx qo es = true →
  rerun_ok inv w ctx qo = true →
  (∀ d, fs s !! qo ≠ Some (File d)) →
  (main inv s).1 = inr tt ∧ fs (main inv s).2 = fs (main inv w).2.
Proof.
  intros Hctx Hst Hy Hbp Hr Hes Hok Hre Hnf. unfold rerun_ok in Hre.
  apply andb_true_iff in Hre as [[Hp%plainb_sound Hcfg]%andb_true_iff Hini].
  destruct (staging_ok_spec _ _ _ _ Hok) as (Hout & _).
  destruct (main_refines inv w ctx text config qo es Hw Hctx Hst Hy Hbp Hr Hes Hok)
    as [_ (_ & _ & E1 & _)].
  destruct (main_refines inv s ctx text config qo es) as [Hrun (_ & _ & E2 & _)].
  - apply Hs.
  - apply resolve_context_kept; [done|]. by destruct inv.
  - by destruct (source_ok_kept w qo s _ Hs Hcfg) as (_ & _ & _ & _ & ->).
  - done.
  - done.
  - by apply (resolve_out_kept w qo s Hs).
  - by rewrite (spec_entries_kept w qo s Hs Hw ctx config es Hok).
  - apply (staging_ok_kept w qo s Hs Hw); [done|]. by apply out_ok_kept.
  - split; [done|]. by rewrite E1, E2, (cleared_kept w qo s Hs).
Qed.

End Main.

(** A key at or below the output directory at which no entry is staged
    holds no file after staging. *)
Lemma staged_key_not_file (m : gmap (list string) node) (qo k : list string) (es : list entry)
    (d : string) :
  qo `prefix_of` k → (∀ e, e ∈ es → e.1 ≠ k) → staged_fs (cleared m qo) es !! k ≠ Some (File d).
Proof.
  intros Hk Hb. unfold staged_fs. rewrite !lookup_union, cleared_lookup, decide_True by done.
  destruct (files_of es !! k) as [n|] eqn:Hf.
  { apply files_of_Some in Hf as (c & _ & Hc). by destruct (Hb _ Hc). }
  destruct (dirs_of es !! k) as [n|] eqn:Hd; [|done].
  apply dirs_of_Some in Hd as [-> _]. cbn. congruence.
Qed.

Section Theorems.
Context `{ScandirOrder} `{!ScandirOrderOk} `{Yaml} `{!Jinja} `{ConfigParser}.

(** C21: What an earlier build left in the output directory does not
    matter.  If a run on [w] ends normally by the refinement's conditions
    and [rerun_ok] holds, then a run on any tree [s] that agrees with [w]
    outside the output directory, and has no file at the output path, also
    ends normally and leaves the same tree. *)
Theorem main_stale_output_irrelevant (inv : invocation) (w s : world) (ctx : context)
    (text : string) (config : yaml_doc) (qo : list string) (es : list entry) :
  wf_world w →
  (resolve_context inv w).1 = inr ctx →
  stat w (PosixPath.join "data" ["webui"; "config"; target ctx +:+ ".yaml"]) = inr (File text) →
  yaml_load text = inr config →
  startswith (build_platform ctx) "BUILD_" = true →
  resolve w (output_root ctx) = inr qo →
  spec_entries w ctx config = inr es →
  staging_ok w ctx qo es = true →
  rerun_ok inv w ctx qo = true →
  kept w qo s → (∀ d, fs s !! qo ≠ Some (File d)) →
  (main inv s).1 = inr tt ∧ fs (main inv s).2 = fs (main inv w).2.
Proof. intros Hw ? ? ? ? ? ? ? ? Hs. by apply (main_kept_runs w s qo Hw Hs inv ctx text config es). Qed.

(** C22: Rebuilding is idempotent.  Under the same conditions, running the
    script again on the tree the run left ends normally and changes
    nothing in the file system. *)
Theorem main_idempotent (inv : invocation) (w : world) (ctx : context) (text : string)
    (config : yaml_doc) (qo : list string) (es : list entry) :
  wf_world w →
  (resolve_context inv w).1 = inr ctx →
  stat w (PosixPath.join "data" ["webui"; "config"; target ctx +:+ ".yaml"]) = inr (File text) →
  yaml_load text = inr config →
  startswith (build_platform ctx) "BUILD_" = true →
  resolve w (output_root ctx) = inr qo →
  spec_entries w ctx config = inr es →
  staging_ok w ctx qo es = true →
  rerun_ok inv w ctx qo = true →
  (main inv (main inv w).2).1 = inr tt ∧ fs (main inv (main inv w).2).2 = fs (main inv w).2.
Proof.
  intros Hw Hctx Hst Hy Hbp Hr Hes Hok Hre.
  destruct (staging_ok_spec _ _ _ _ Hok) as (_ & Hq & Hpar & _ & _ & _ & _ & _ & _ & Hb & Hpf).
  destruct (main_refines inv w ctx text config qo es Hw Hctx Hst Hy Hbp Hr Hes Hok) as [_ Hs1].
  assert (Hk : kept w qo (main inv w).2) by by apply (staged_kept w qo es Hw Hq Hpar Hb es).
  apply (main_kept_runs w _ qo Hw Hk inv ctx text config es); try done.
  intros d. destruct Hs1 as (_ & _ & -> & _). apply staged_key_not_file; [done|].
  intros e He. apply Hb, He.
Qed.

(** A run whose configuration is not a readable file ends with the
    [OSError] of [open] on it. *)
Lemma main_config_unreadable (inv : invocation) (w : world) (ctx : context) :
  let cfg := PosixPath.join "data" ["webui"; "config"; target ctx +:+ ".yaml"] in
  (resolve_context inv w).1 = inr ctx → (∀ d, stat w cfg ≠ inr (File d)) →
  ∃ e, (main inv w).1 = inl (OSError e cfg).
Proof.
  intros cfg Hctx Hst. pose proof (resolve_context_fs inv w) as Hf1.
  pose proof (resolve_context_cwd inv w) as Hc1. unfold main, mbind, StExc_bind.
  destruct (resolve_context inv w) as [r1 w1] eqn:E1. simpl in Hctx, Hf1, Hc1. subst r1.
  rewrite (StExc.bind_inr _ _ w ctx w1 E1). fold cfg.
  assert (Hs1 : stat w1 cfg = stat w cfg) by (by apply stat_ext).
  destruct (stat w cfg) as [e|[d|]] eqn:Es; [| by destruct (Hst d) |].
  - exists e. by rewrite (StExc.bind_inl _ _ w1 _ w1 (read_text_error w1 _ e ltac:(by rewrite Hs1))).
  - exists EISDIR. by rewrite (StExc.bind_inl _ _ w1 _ w1 (read_text_dir w1 _ ltac:(by rewrite Hs1))).
Qed.

(** C23: A build whose output directory holds its YAML configuration
    cannot be run again.  Standalone, when the first run ends normally by
    the refinement's conditions, the configuration is a plain path whose
    key lies at or below the output directory, and no staged file lands
    on that key, then [shutil.rmtree] deletes the configuration after it
    was read: the first run ends normally and the second raises the
    [OSError] of reading it. *)
Theorem main_rerun_fails_config_in_output (env : gmap string string) (w : world) (ctx : context)
    (text : string) (config : yaml_doc) (qo : list string) (es : list entry) :
  let cfg := PosixPath.join "data" ["webui"; "config"; target ctx +:+ ".yaml"] in
  wf_world w →
  (resolve_context (Standalone env) w).1 = inr ctx →
  stat w cfg = inr (File text) →
  yaml_load text = inr config →
  startswith (build_platform ctx) "BUILD_" = true →
  resolve w (output_root ctx) = inr qo →
  spec_entries w ctx config = inr es →
  staging_ok w ctx qo es = true →
  plain (components cfg) → qo `prefix_of` key w cfg → (∀ e, e ∈ es → e.1 ≠ key w cfg) →
  (main (Standalone env) w).1 = inr tt ∧
  ∃ err, (main (Standalone env) (main (Standalone env) w).2).1 = inl (OSError err cfg).
Proof.
  intros cfg Hw Hctx Hst Hy Hbp Hr Hes Hok Hp Hin Hnone.
  destruct (main_refines (Standalone env) w ctx text config qo es Hw Hctx Hst Hy Hbp Hr Hes Hok)
    as [Hrun (_ & Hc1 & Hf1 & _)].
  split; [done|]. apply main_config_unreadable; [by rewrite (resolve_context_standalone_any env w)|].
  intros d. unfold stat. fold cfg. destruct (resolve (main (Standalone env) w).2 cfg) as [e|q] eqn:Eq; [done|].
  assert (Hq : q = key w cfg).
  { unfold resolve in Eq. destruct (String.eqb cfg ""); [done|].
    apply walk_plain_inr in Eq; [|done]. rewrite Eq. unfold key, start. by rewrite Hc1. }
  subst q. rewrite Hf1. pose proof (staged_key_not_file (fs w) qo _ es d Hin Hnone) as Hn.
  repeat case_match; congruence.
Qed.

End Theorems.

(** ** Runs on the spec's example *)
Module Runs.
Import Instances BuildWebui.Runs Refinement.Runs.

(** The spec's tree where an earlier build left other files in the output
    directory. *)
Definition stale_world : world :=
  mkWorld (<[["data"; "BUILD_TEST"; "css"] := Dir]>
           (<[["data"; "BUILD_TEST"; "css"; "old.css"] := File "x"]> spec_tree)) [] [].

Lemma stale_world_kept : kept spec_world ["data"; "BUILD_TEST"] stale_world.
Proof.
  split; [apply wf_check_sound; vm_compute; reflexivity|]. split; [reflexivity|].
  intros k Hk. simpl. rewrite !lookup_insert_ne; [done| |]; intros <-; apply Hk; by eexists.
Qed.

Lemma main_stale_output_irrelevant_witness :
  (main (Standalone env_test) stale_world).1 = inr tt ∧
  fs (main (Standalone env_test) stale_world).2 = fs (main (Standalone env_test) spec_world).2.
Proof.
  apply (main_stale_output_irrelevant (Standalone env_test) spec_world stale_world
           (mkContext "test" "BUILD_TEST" None) "title: X" config_test ["data"; "BUILD_TEST"]
           example_entries).
  - apply wf_check_sound. vm_compute. reflexivity.
  - vm_compute. reflexivity.
  - vm_compute. reflexivity.
  - vm_compute. reflexivity.
  - vm_compute. reflexivity.
  - vm_compute. reflexivity.
  - vm_compute. reflexivity.
  - vm_compute. reflexivity.
  - vm_compute. reflexivity.
  - apply stale_world_kept.
  - intros d. vm_compute. congruence.
Defined.

Lemma main_idempotent_witness :
  (main (Standalone env_test) (main (Standalone env_test) spec_world).2).1 = inr tt ∧
  fs (main (Standalone env_test) (main (Standalone env_test) spec_world).2).2 =
    fs (main (Standalone env_test) spec_world).2.
Proof.
  apply (main_idempotent (Standalone env_test) spec_world (mkContext "test" "BUILD_TEST" None)
           "title: X" config_test ["data"; "BUILD_TEST"] example_entries).
  - apply wf_check_sound. vm_compute. reflexivity.
  - vm_compute. reflexivity.
  - vm_compute. reflexivity.
  - vm_compute. reflexivity.
  - vm_compute. reflexivity.
  - vm_compute. reflexivity.
  - vm_compute. reflexivity.
  - vm_compute. reflexivity.
  - vm_compute. reflexivity.
Defined.

(** [BUILD_DATA_DIR] naming the configuration directory. *)
Definition inv_config_out : invocation :=
  Standalone (<["BUILD_DATA_DIR" := "data/webui/config"]> env_test).

Definition config_out_entries : list entry :=
  [(["data"; "webui"; "config"; "index.html"], "common");
   (["data"; "webui"; "config"; "banner.html"], "<h1>X</h1>");
   (["data"; "webui"; "config"; "index.html"], "device")].

(** The run behind the finding on the configuration directory, in full:
    the layout passes [staging_ok] but not [rerun_ok]; the second run fails
    on [test.yaml]. *)
Example main_rerun_config_in_output :
  let ctx := mkContext "test" "BUILD_TEST" (Some "data/webui/config") in
  spec_entries spec_world ctx config_test = inr config_out_entries ∧
  staging_ok spec_world ctx ["data"; "webui"; "config"] config_out_entries = true ∧
  rerun_ok inv_config_out spec_world ctx ["data"; "webui"; "config"] = false ∧
  (main inv_config_out spec_world).1 = inr tt ∧
  (main inv_config_out (main inv_config_out spec_world).2).1 =
    inl (OSError ENOENT "data/webui/config/test.yaml").
Proof. vm_compute. repeat split. Qed.

Lemma main_rerun_fails_config_in_output_witness :
  (main inv_config_out spec_world).1 = inr tt ∧
  ∃ err, (main inv_config_out (main inv_config_out spec_world).2).1 =
           inl (OSError err "data/webui/config/test.yaml").
Proof.
  apply (main_rerun_fails_config_in_output (<["BUILD_DATA_DIR" := "data/webui/config"]> env_test)
           spec_world (mkContext "test" "BUILD_TEST" (Some "data/webui/config")) "title: X"
           config_test ["data"; "webui"; "config"] config_out_entries).
  - apply wf_check_sound. vm_compute. reflexivity.
  - vm_compute. reflexivity.
  - vm_compute. reflexivity.
  - vm_compute. reflexivity.
  - vm_compute. reflexivity.
  - vm_compute. reflexivity.
  - vm_compute. reflexivity.
  - vm_compute. reflexivity.
  - apply plainb_sound. vm_compute. reflexivity.
  - exists ["test.yaml"]. vm_compute. reflexivity.
  - apply Forall_forall, (bool_decide_unpack _). vm_compute. reflexivity.
Defined.

End Runs.

End Rerun.
